(** * syncwithme RAG system: retrieval, fusion and day scheduling

    A shallow embedding of the core of the repository:
    - [dist/core/intent-extractor.js]  (module [IntentExtractor]),
    - [dist/core/vector-store.js]      (module [VectorStore]),
    - [dist/core/dual-rag-system.js]   (module [DualRAGSystem]),
    - the [DayPlanner] class of the day-planner source (module [DayPlanner]).

    Further down: the query pipeline ([DualRAGQuery]), the affiliate
    policy ([AffiliateEngine]), the write path of the vector store
    ([StoredPatterns]) and the venue validator ([VenueValidator]).

    Conventions.
    - JavaScript numbers that carry confidences and scores are exact
      rationals ([Q]); integer quantities (minutes, prices, interest scores)
      are [Z] or [N].  IEEE rounding is not part of the model.
    - JavaScript strings are [string]s (UTF-8 bytes).  Substring search on
      valid UTF-8 agrees with substring search on code points, so
      [includes] and the price pattern are exact; [toLowerCase] is exact on
      ASCII text and leaves other bytes alone.
    - An [async] function that may reject, and a synchronous one that may
      throw, both return an [outcome].
    - Collaborators that live outside the repository (embedding client,
      vector index, completion client, JSON decoding, calendar arithmetic,
      affiliate policy, haversine trigonometry) are [Variable]s of the
      section that uses them. *)

From Stdlib Require Import ZArith QArith Qminmax Qround List String Ascii Lia Bool.
From Stdlib Require Import Sorted Permutation.
From stdpp Require Import gmap strings list pretty.

Open Scope string_scope.

(* ===================================================================== *)
(** * JavaScript primitives used by the sources                           *)
(* ===================================================================== *)

Module JS.

(** ** Exceptions and rejected promises *)

Inductive outcome (A : Type) : Type :=
| Returned (a : A)
| Thrown (e : string).
Arguments Returned {A} a.
Arguments Thrown {A} e.

Definition bind {A B : Type} (m : outcome A) (k : A -> outcome B) : outcome B :=
  match m with
  | Returned a => k a
  | Thrown e => Thrown e
  end.

(** [try { body } catch (error) { handler }] *)
Definition try_catch {A : Type} (body : outcome A) (handler : string -> outcome A)
  : outcome A :=
  match body with
  | Returned a => Returned a
  | Thrown e => handler e
  end.

(** [xs.map(f)] where [f] may throw: the first exception aborts the map. *)
Fixpoint mapM {A B : Type} (f : A -> outcome B) (xs : list A) : outcome (list B) :=
  match xs with
  | [] => Returned []
  | x :: rest =>
      bind (f x) (fun y => bind (mapM f rest) (fun ys => Returned (y :: ys)))
  end.

Definition returns {A : Type} (m : outcome A) : bool :=
  match m with Returned _ => true | Thrown _ => false end.

(** ** Strings *)

Definition lower_ascii (c : ascii) : ascii :=
  let n := nat_of_ascii c in
  if (65 <=? n)%nat && (n <=? 90)%nat then ascii_of_nat (n + 32) else c.

Fixpoint toLowerCase (s : string) : string :=
  match s with
  | EmptyString => EmptyString
  | String c rest => String (lower_ascii c) (toLowerCase rest)
  end.

(** [s.includes(sub)] *)
Fixpoint includes (s sub : string) : bool :=
  String.prefix sub s ||
  match s with
  | EmptyString => false
  | String _ rest => includes rest sub
  end.

(** [parts.join(sep)] *)
Fixpoint join (sep : string) (parts : list string) : string :=
  match parts with
  | [] => ""
  | [p] => p
  | p :: rest => p ++ sep ++ join sep rest
  end.

(** [s.split(':')], written with an accumulator for the current field. *)
Fixpoint split_colon_aux (cur : string) (s : string) : list string :=
  match s with
  | EmptyString => [cur]
  | String c rest =>
      if Ascii.eqb c ":"%char
      then cur :: split_colon_aux "" rest
      else split_colon_aux (cur ++ String c "") rest
  end.

Definition split_colon (s : string) : list string := split_colon_aux "" s.

Definition is_digit (c : ascii) : bool :=
  let n := nat_of_ascii c in (48 <=? n)%nat && (n <=? 57)%nat.

Definition digit_value (c : ascii) : Z := Z.of_nat (nat_of_ascii c) - 48.

(** Value of a run of decimal digits, most significant first. *)
Fixpoint digits_value (acc : Z) (s : string) : option Z :=
  match s with
  | EmptyString => Some acc
  | String c rest =>
      if is_digit c then digits_value (10 * acc + digit_value c) rest else None
  end.

(** [Number(s)] on the fragment the planner meets: a string of decimal
    digits denotes its value and the empty string denotes 0.  [None] stands
    for every other string: [NaN] for text that is no numeric literal, and
    "outside the modelled fragment" for signed, fractional, exponent, radix
    or space-padded literals.  Statements that depend on a time of day ask
    for times on which [timeToMinutes] answers [Some]. *)
Definition Number (s : string) : option Z := digits_value 0 s.

(** ** Truthiness *)

(** [s || dflt] for a possibly absent string: [undefined], [null] and the
    empty string are falsy. *)
Definition truthy_string (s : option string) : option string :=
  match s with
  | Some EmptyString => None
  | other => other
  end.

Definition or_string (s : option string) (dflt : string) : string :=
  match truthy_string s with Some v => v | None => dflt end.

(** [x || 0] for a possibly absent number: [undefined] and [0] are falsy. *)
Definition or_zero (x : option Q) : Q :=
  match x with
  | Some v => if Qeq_bool v 0 then 0%Q else v
  | None => 0%Q
  end.

(** ** Arrays *)

(** [[...new Set(xs)]]: a [Set] iterates in insertion order, so each value
    stays at its first occurrence. *)
Fixpoint set_spread_aux (seen : gset string) (xs : list string) : list string :=
  match xs with
  | [] => []
  | x :: rest =>
      if bool_decide (x ∈ seen) then set_spread_aux seen rest
      else x :: set_spread_aux ({[x]} ∪ seen) rest
  end.

Definition set_spread (xs : list string) : list string := set_spread_aux ∅ xs.

(** [xs.slice(from, to)] for in-range non-negative bounds. *)
Definition slice {A : Type} (from to : nat) (xs : list A) : list A :=
  firstn (to - from) (skipn from xs).

(** [xs.sort(cmp)]: the sort is stable, and [x] goes before [y] unless
    [cmp x y > 0].  Insertion from the right keeps equal elements in their
    input order. *)
Fixpoint sort_insert {A : Type} (cmp : A -> A -> Z) (x : A) (sorted : list A) : list A :=
  match sorted with
  | [] => [x]
  | y :: rest =>
      if (cmp x y <=? 0)%Z then x :: y :: rest
      else y :: sort_insert cmp x rest
  end.

Fixpoint sort {A : Type} (cmp : A -> A -> Z) (xs : list A) : list A :=
  match xs with
  | [] => []
  | x :: rest => sort_insert cmp x (sort cmp rest)
  end.

(** [xs.reduce((sum, x) => sum + f(x), 0)] *)
Definition reduce_sum {A : Type} (f : A -> Q) (xs : list A) : Q :=
  fold_left (fun sum x => (sum + f x)%Q) xs 0%Q.

End JS.

Export JS.

(* ===================================================================== *)
(** * Data model (the shapes the compiled sources read and build)         *)
(* ===================================================================== *)

Module Types.

Record Venue := {
  name : string;
  type : string;
  address : option string;
  priceRange : string;
  bookingMethod : string;
  rating : Q;
  specialNotes : list string
}.

Record PatternMetadata := {
  md_source : option string;
  lastUpdated : option string;
  bookingPattern : string;
  localInsights : option (list string)
}.

Record SuccessPattern := {
  sp_id : option string;
  sp_destination : option string;
  category : option string;
  venues : list Venue;
  sp_budgetTier : option string;
  successRate : Q;
  userSatisfaction : Q;
  metadata : PatternMetadata
}.

(** [mapsTo]: the partial intent a phrase pattern contributes. *)
Record IntentFragment := {
  fr_budgetTier : option string;
  fr_interests : option (list string);
  fr_pace : option string;
  fr_groupType : option string
}.

Record LanguagePattern := {
  lp_id : option string;
  lp_intent : option string;
  phrases : list string;
  lp_confidence : Q;
  mapsTo : IntentFragment;
  examples : list string
}.

(** A retrieval hit; the [type] tag of the source is the constructor. *)
Inductive RAGContent :=
| success_pattern (p : SuccessPattern)
| language_pattern (p : LanguagePattern).

Record RAGResult := {
  content : RAGContent;
  confidence : Q;
  source : string
}.

Record Dates := { start : string; end_ : string }.

Record TravelIntent := {
  destination : string;
  dates : option Dates;
  interests : list string;
  budgetTier : string;
  groupType : string;
  pace : string;
  originalText : string;
  ti_confidence : Q
}.

Record TravelRecommendation := {
  rec_venues : list Venue;
  rec_confidence : Q;
  reasoning : string;
  localTips : list string;
  alternatives : list Venue
}.

End Types.

Export Types.

(* ===================================================================== *)
(** * Retrieval layer: [CloudVectorStore]                                 *)
(* ===================================================================== *)

Module VectorStore.

(** One hit of [index.query]. *)
Record Match (Metadata : Type) := {
  score : Q;
  match_metadata : Metadata
}.
Arguments score {Metadata} m.
Arguments match_metadata {Metadata} m.

(** The [filter] object sent to the index. *)
Record FilterConditions := {
  fc_type : string;
  fc_destination : option string;
  fc_budgetTier : option string;
  fc_category : option string
}.

(** The caller-side [filters] argument of [querySuccessPatterns]. *)
Record Filters := {
  f_destination : option string;
  f_budgetTier : option string;
  f_category : option string
}.

Definition no_filters : Filters :=
  {| f_destination := None; f_budgetTier := None; f_category := None |}.

(** [CONFIG.rag] *)
Record RagConfig := {
  topK : nat;
  confidenceThreshold : Q
}.

(** [dist/config/index.js] *)
Definition CONFIG_rag : RagConfig :=
  {| topK := 10; confidenceThreshold := 6 # 10 |}.

Section Store.

(** The stored metadata of a hit, the embedding vector, and the external
    clients.  Decoding a hit calls [JSON.parse] on stored strings, which
    throws on malformed text. *)
Variable Metadata : Type.
Variable Embedding : Type.
Variable embedQuery : string -> outcome Embedding.
Variable indexQuery : Embedding -> nat -> FilterConditions -> outcome (list (Match Metadata)).
Variable parseSuccessPattern : Metadata -> outcome SuccessPattern.
Variable parseLanguagePattern : Metadata -> outcome LanguagePattern.
Variable metadataSource : Metadata -> option string.

Definition successFilterConditions (filters : Filters) : FilterConditions :=
  {| fc_type := "success_pattern";
     fc_destination :=
       match truthy_string (f_destination filters) with
       | Some d => Some (toLowerCase d)
       | None => None
       end;
     fc_budgetTier := truthy_string (f_budgetTier filters);
     fc_category := truthy_string (f_category filters) |}.

Definition languageFilterConditions : FilterConditions :=
  {| fc_type := "language_pattern";
     fc_destination := None; fc_budgetTier := None; fc_category := None |}.

(** [match.score >= threshold] *)
Definition passes (threshold : Q) (m : Match Metadata) : bool :=
  Qle_bool threshold (score m).

Definition toSuccessResult (m : Match Metadata) : outcome RAGResult :=
  bind (parseSuccessPattern (match_metadata m)) (fun p =>
  Returned {| content := success_pattern p;
              confidence := score m;
              source := or_string (metadataSource (match_metadata m)) "unknown" |}).

Definition toLanguageResult (m : Match Metadata) : outcome RAGResult :=
  bind (parseLanguagePattern (match_metadata m)) (fun p =>
  Returned {| content := language_pattern p;
              confidence := score m;
              source := "language_corpus" |}).

Definition querySuccessPatterns (cfg : RagConfig) (query : string) (filters : Filters)
  : outcome (list RAGResult) :=
  bind (embedQuery query) (fun embedding =>
  bind (indexQuery embedding (topK cfg) (successFilterConditions filters)) (fun matches =>
  mapM toSuccessResult (List.filter (passes (confidenceThreshold cfg)) matches))).

(** The phrase collection has its own literal threshold and its own [topK]. *)
Definition languageThreshold : Q := 6 # 10.

Definition queryLanguagePatterns (query : string) : outcome (list RAGResult) :=
  bind (embedQuery query) (fun embedding =>
  bind (indexQuery embedding 5%nat languageFilterConditions) (fun matches =>
  mapM toLanguageResult (List.filter (passes languageThreshold) matches))).

End Store.

End VectorStore.

(* ===================================================================== *)
(** * Intent extraction: [IntentExtractor]                                *)
(* ===================================================================== *)

Module IntentExtractor.

(** What [JSON.parse] of the completion text yields when it is an object
    of the requested shape: every field may be missing or [null].  A JSON
    number, string, boolean or array reads like the object without fields;
    a field of another JSON type than the prompt asks for is outside the
    model. *)
Record PartialIntent := {
  pi_destination : option string;
  pi_dates : option Dates;
  pi_interests : option (list string);
  pi_budgetTier : option string;
  pi_groupType : option string;
  pi_pace : option string;
  pi_confidence : option Q
}.

(** The completion text may also be the JSON literal [null]. *)
Inductive ParsedJSON :=
| JSON_null
| JSON_object (o : PartialIntent).

(** [{ confidence: 0.3 }] *)
Definition degradedGuess : PartialIntent :=
  {| pi_destination := None; pi_dates := None; pi_interests := None;
     pi_budgetTier := None; pi_groupType := None; pi_pace := None;
     pi_confidence := Some (3 # 10) |}.

(** The object [extractFromPatterns] returns: [{ ...extracted, confidence }]. *)
Record PatternIntent := {
  pt_budgetTier : option string;
  pt_interests : option (list string);
  pt_pace : option string;
  pt_groupType : option string;
  pt_confidence : Q
}.

Definition emptyPatternIntent : PatternIntent :=
  {| pt_budgetTier := None; pt_interests := None; pt_pace := None;
     pt_groupType := None; pt_confidence := 0 |}.

(** One iteration of the loop over the retrieved patterns. *)
Definition absorbPattern (message : string) (acc : PatternIntent) (pattern : RAGResult)
  : PatternIntent :=
  match content pattern with
  | success_pattern _ => acc
  | language_pattern langPattern =>
      let matchingPhrases :=
        List.filter (fun phrase => includes message (toLowerCase phrase)) (phrases langPattern) in
      if (0 <? length matchingPhrases)%nat then
        let m := mapsTo langPattern in
        {| pt_confidence := Qmax (pt_confidence acc) (confidence pattern);
           pt_budgetTier :=
             match truthy_string (fr_budgetTier m) with
             | Some b => Some b
             | None => pt_budgetTier acc
             end;
           pt_interests :=
             match fr_interests m with
             | Some more => Some ((match pt_interests acc with Some l => l | None => [] end) ++ more)%list
             | None => pt_interests acc
             end;
           pt_pace :=
             match truthy_string (fr_pace m) with
             | Some p => Some p
             | None => pt_pace acc
             end;
           pt_groupType :=
             match truthy_string (fr_groupType m) with
             | Some g => Some g
             | None => pt_groupType acc
             end |}
      else acc
  end.

Definition extractFromPatterns (userMessage : string) (patterns : list RAGResult)
  : PatternIntent :=
  fold_left (absorbPattern (toLowerCase userMessage)) patterns emptyPatternIntent.

Definition mergeArrays (arr1 arr2 : option (list string)) : list string :=
  let combined :=
    ((match arr1 with Some l => l | None => [] end) ++
     (match arr2 with Some l => l | None => [] end))%list in
  set_spread combined.

(** [a || b || dflt] on possibly absent strings. *)
Definition firstTruthy (a b : option string) (dflt : string) : string :=
  match truthy_string a with
  | Some v => v
  | None => or_string b dflt
  end.

Definition mergeIntents (aiIntent : PartialIntent) (patternIntent : PatternIntent)
    (originalText : string) : TravelIntent :=
  {| destination := or_string (pi_destination aiIntent) "";
     dates := pi_dates aiIntent;
     interests := mergeArrays (pi_interests aiIntent) (pt_interests patternIntent);
     budgetTier := firstTruthy (pt_budgetTier patternIntent) (pi_budgetTier aiIntent) "medium";
     groupType := firstTruthy (pt_groupType patternIntent) (pi_groupType aiIntent) "solo";
     pace := firstTruthy (pt_pace patternIntent) (pi_pace aiIntent) "moderate";
     originalText := originalText;
     ti_confidence :=
       Qmax (Qmax (or_zero (pi_confidence aiIntent))
                  (or_zero (Some (pt_confidence patternIntent))))
            (5 # 10) |}.

Section Extractor.

(** [queryLanguagePatterns] of the injected vector store; the completion
    request for the extraction prompt of a message ([None]: the response
    has no content); and [JSON.parse] of the completion text. *)
Variable queryLanguagePatterns : string -> outcome (list RAGResult).
Variable chatCompletion : string -> outcome (option string).
Variable JSON_parse : string -> outcome ParsedJSON.

Definition extractWithAI (userMessage : string) : outcome ParsedJSON :=
  try_catch
    (bind (chatCompletion userMessage) (fun content =>
     match truthy_string content with
     | None => Thrown "No AI response"
     | Some text => JSON_parse text
     end))
    (fun _ => Returned (JSON_object degradedGuess)).

(** [mergeIntents] reads [aiIntent.destination] first; on [null] that
    property access raises a [TypeError]. *)
Definition extractIntent (userMessage : string) : outcome TravelIntent :=
  bind (queryLanguagePatterns userMessage) (fun languagePatterns =>
  bind (extractWithAI userMessage) (fun aiIntent =>
  let patternIntent := extractFromPatterns userMessage languagePatterns in
  match aiIntent with
  | JSON_null => Thrown "TypeError: Cannot read properties of null"
  | JSON_object ai => Returned (mergeIntents ai patternIntent userMessage)
  end)).

End Extractor.

End IntentExtractor.

(* ===================================================================== *)
(** * Fusion and recommendation: [DualRAGSystem]                          *)
(* ===================================================================== *)

Module DualRAGSystem.

Definition getBudgetRange (budgetTier : string) : string :=
  if String.eqb budgetTier "low" then "€5-20"
  else if String.eqb budgetTier "medium" then "€20-50"
  else if String.eqb budgetTier "high" then "€50-100"
  else if String.eqb budgetTier "luxury" then "€100+"
  else "€20-50".

(** [intent.interests[0] || 'attraction'] *)
Definition primaryInterest (intent : TravelIntent) : string :=
  or_string (head (interests intent)) "attraction".

Definition generateFallbackRecommendations (intent : TravelIntent) : TravelRecommendation :=
  let fallbackVenue :=
    {| name := "Top " ++ primaryInterest intent ++ " in " ++ destination intent;
       type := primaryInterest intent;
       address := None;
       priceRange := getBudgetRange (budgetTier intent);
       bookingMethod := "online";
       rating := 4;
       specialNotes := ["Popular with travelers"; "Recommended for first-time visitors"] |} in
  {| rec_venues := [fallbackVenue];
     rec_confidence := 3 # 10;
     reasoning :=
       "I don't have specific success patterns for " ++ destination intent ++
       " yet, but this is a popular choice for " ++
       join " and " (interests intent) ++ " enthusiasts.";
     localTips := ["Consider booking in advance"; "Check local weather conditions"];
     alternatives := [] |}.

(** The key under which [deduplicateVenues] remembers a venue. *)
Definition venueKey (venue : Venue) : string :=
  toLowerCase (name venue) ++ "_" ++ type venue.

(** [venues.filter(...)] with the [seen] set threaded through the callback. *)
Fixpoint deduplicateVenues_from (seen : gset string) (venues : list Venue) : list Venue :=
  match venues with
  | [] => []
  | venue :: rest =>
      let key := venueKey venue in
      if bool_decide (key ∈ seen) then deduplicateVenues_from seen rest
      else venue :: deduplicateVenues_from ({[key]} ∪ seen) rest
  end.

Definition deduplicateVenues (venues : list Venue) : list Venue :=
  deduplicateVenues_from ∅ venues.

Definition averageConfidence (patterns : list RAGResult) : Q :=
  (reduce_sum confidence patterns / inject_Z (Z.of_nat (length patterns)))%Q.

Definition calculateRecommendationConfidence (patterns : list RAGResult)
    (venues : list Venue) : Q :=
  if ((length patterns =? 0) || (length venues =? 0))%nat then 3 # 10
  else
    let avgPatternConfidence := averageConfidence patterns in
    let venueBonus := (Qmin (inject_Z (Z.of_nat (length venues)) / 5) 1 * (2 # 10))%Q in
    Qmin (avgPatternConfidence + venueBonus) 1.

Definition calculateOverallConfidence (intent : TravelIntent) (patterns : list RAGResult)
    (recommendations : TravelRecommendation) : Q :=
  let intentConfidence := ti_confidence intent in
  let patternConfidence :=
    if (0 <? length patterns)%nat then averageConfidence patterns else 3 # 10 in
  let recommendationConfidence := rec_confidence recommendations in
  (intentConfidence * (3 # 10) + patternConfidence * (4 # 10)
   + recommendationConfidence * (3 # 10))%Q.

(** The body of the loop over the top patterns: the venues and the tips of
    one pattern.  A hit that carries no success pattern has no [venues]
    array to spread. *)
Definition patternVenuesAndTips (pattern : RAGResult)
  : outcome (list Venue * list string) :=
  match content pattern with
  | success_pattern successPattern =>
      Returned (venues successPattern,
                match localInsights (metadata successPattern) with
                | Some tips => tips
                | None => []
                end)
  | language_pattern _ => Thrown "TypeError: venues is not iterable"
  end.

Fixpoint collectVenuesAndTips (patterns : list RAGResult)
  : outcome (list Venue * list string) :=
  match patterns with
  | [] => Returned ([], [])
  | pattern :: rest =>
      bind (patternVenuesAndTips pattern) (fun '(vs, tips) =>
      bind (collectVenuesAndTips rest) (fun '(allVenues, localTips) =>
      Returned ((vs ++ allVenues)%list, (tips ++ localTips)%list)))
  end.

Section Recommend.

(** The completion request built from the intent, the selected venues, the
    tips and the literal query; [None]: the response has no content. *)
Variable contextCompletion :
  TravelIntent -> list Venue -> list string -> string -> outcome (option string).

Definition generateContextualResponse (intent : TravelIntent) (venues : list Venue)
    (localTips : list string) (originalQuery : string) : string :=
  match contextCompletion intent venues localTips originalQuery with
  | Returned content =>
      or_string content "These venues have proven successful for similar travelers."
  | Thrown _ =>
      "These recommendations are based on successful patterns from similar travelers."
  end.

Definition generateRecommendations (intent : TravelIntent)
    (successPatterns : list RAGResult) (originalQuery : string)
  : outcome TravelRecommendation :=
  if (length successPatterns =? 0)%nat then
    Returned (generateFallbackRecommendations intent)
  else
    bind (collectVenuesAndTips (slice 0 3 successPatterns)) (fun '(allVenues, localTips) =>
    let uniqueVenues := deduplicateVenues allVenues in
    let topVenues := slice 0 5 uniqueVenues in
    let reasoning := generateContextualResponse intent topVenues localTips originalQuery in
    Returned
      {| rec_venues := topVenues;
         rec_confidence := calculateRecommendationConfidence successPatterns topVenues;
         reasoning := reasoning;
         localTips := slice 0 5 (set_spread localTips);
         alternatives := slice 5 8 uniqueVenues |}).

End Recommend.

End DualRAGSystem.

(* ===================================================================== *)
(** * Day scheduling: [DayPlanner]                                        *)
(* ===================================================================== *)

Module DayPlanner.

Record Coordinates := { lat : Q; lng : Q }.

Record Activity := {
  name : string;
  type : string;
  address : string;
  duration : Z;
  price : string;
  openTime : option string;
  closeTime : option string;
  booking : option string;
  needsReservation : option bool;
  coordinates : option Coordinates
}.

Record TimeSlot := {
  time : string;
  activity : Activity;
  travelTime : option Z;
  affiliateLink : option string;
  tips : option (list string)
}.

Record DayPlan := {
  date : string;
  dayOfWeek : string;
  slots : list TimeSlot;
  totalCost : string;
  walkingDistance : Q;
  warnings : list string
}.

Inductive Pace := relaxed | moderate | intensive.
Inductive Budget := low | medium | high.
Inductive GroupType := solo | couple | friends | family.

Record Preferences := {
  pace : Pace;
  budget : Budget;
  interests : list string;
  groupType : GroupType
}.

Record TemplateSlot := { tpl_time : string; tpl_type : string }.

Definition at_ (t ty : string) : TemplateSlot := {| tpl_time := t; tpl_type := ty |}.

Definition getScheduleTemplate (p : Pace) : list TemplateSlot :=
  match p with
  | relaxed =>
      [ at_ "09:30" "breakfast"; at_ "11:00" "morning_activity";
        at_ "13:30" "lunch"; at_ "15:30" "afternoon_activity";
        at_ "17:30" "coffee"; at_ "19:30" "dinner";
        at_ "22:00" "evening_activity" ]
  | moderate =>
      [ at_ "09:00" "breakfast"; at_ "10:30" "morning_activity";
        at_ "13:00" "lunch"; at_ "14:30" "afternoon_activity";
        at_ "17:00" "coffee"; at_ "19:00" "dinner";
        at_ "21:30" "evening_activity"; at_ "23:30" "nightlife" ]
  | intensive =>
      [ at_ "08:00" "breakfast"; at_ "09:30" "morning_activity";
        at_ "12:00" "quick_lunch"; at_ "13:00" "afternoon_activity_1";
        at_ "15:30" "afternoon_activity_2"; at_ "17:30" "coffee";
        at_ "19:00" "dinner"; at_ "21:00" "evening_activity";
        at_ "23:00" "nightlife"; at_ "02:00" "late_night_food" ]
  end.

(** ** Times of day; [None] is [NaN] *)

Definition timeToMinutes (t : string) : option Z :=
  match map Number (split_colon t) with
  | Some hours :: Some minutes :: _ => Some (hours * 60 + minutes)%Z
  | _ => None
  end.

(** Comparisons with [NaN] are false. *)
Definition num_ge (a b : option Z) : bool :=
  match a, b with Some x, Some y => (y <=? x)%Z | _, _ => false end.
Definition num_le (a b : option Z) : bool :=
  match a, b with Some x, Some y => (x <=? y)%Z | _, _ => false end.
Definition num_lt (a b : option Z) : bool :=
  match a, b with Some x, Some y => (x <? y)%Z | _, _ => false end.

Definition isOpenAt (a : Activity) (t : string) (day : string) : bool :=
  if includes (toLowerCase (name a)) "berghain" && String.eqb day "Monday" then false
  else
    match truthy_string (openTime a), truthy_string (closeTime a) with
    | Some opens, Some closes =>
        let timeMin := timeToMinutes t in
        let openMin := timeToMinutes opens in
        let closeMin := timeToMinutes closes in
        if num_lt closeMin openMin
        then num_ge timeMin openMin || num_le timeMin closeMin
        else num_ge timeMin openMin && num_le timeMin closeMin
    | _, _ => true
    end.

Definition matchesBudget (a : Activity) (b : Budget) : bool :=
  let p := toLowerCase (price a) in
  match b with
  | low =>
      includes p "free" || includes p "€5" || includes p "€10" ||
      includes p "€15" || includes p "budget"
  | medium =>
      negb (includes p "€100") && negb (includes p "€200") &&
      negb (includes p "luxury")
  | high => true
  end.

Definition scoreActivity (a : Activity) (interests : list string) : Z :=
  fold_left
    (fun score interest =>
       if includes (toLowerCase (type a)) (toLowerCase interest) ||
          includes (toLowerCase (name a)) (toLowerCase interest)
       then (score + 10)%Z else score)
    interests 0%Z.

(** The slot-type rule for one meal or venue word: a slot of that kind
    takes only activities whose type mentions one of the two words. *)
Definition typeRule (slotType activityType word alt1 alt2 : string) : bool :=
  negb (includes slotType word && negb (includes activityType alt1)
        && negb (includes activityType alt2)).

Definition suitableFor (slotType : string) (prefs : Preferences) (day t : string)
    (a : Activity) : bool :=
  typeRule slotType (type a) "breakfast" "breakfast" "cafe" &&
  typeRule slotType (type a) "lunch" "restaurant" "lunch" &&
  typeRule slotType (type a) "dinner" "restaurant" "dinner" &&
  typeRule slotType (type a) "coffee" "cafe" "coffee" &&
  typeRule slotType (type a) "nightlife" "club" "bar" &&
  isOpenAt a t day &&
  matchesBudget a (budget prefs).

Definition selectBestActivity (slotType : string) (availableActivities : list Activity)
    (prefs : Preferences) (day t : string) : option Activity :=
  let suitable := List.filter (suitableFor slotType prefs day t) availableActivities in
  let ranked :=
    sort (fun a b => (scoreActivity b (interests prefs) - scoreActivity a (interests prefs))%Z)
         suitable in
  head ranked.

(** ** Tips *)

Fixpoint take_digits (s : string) : string :=
  match s with
  | EmptyString => EmptyString
  | String c rest => if is_digit c then String c (take_digits rest) else EmptyString
  end.

(** [parseInt(s)] on text that starts with its digits: the value of the
    leading digit run, [NaN] when there is none. *)
Definition parseInt (s : string) : option Z :=
  match take_digits s with
  | EmptyString => None
  | ds => digits_value 0 ds
  end.

Definition between (h : option Z) (lo hi : Z) : bool :=
  num_ge h (Some lo) && num_le h (Some hi).

Definition generateTips (a : Activity) (t : string) : list string :=
  let hour := match split_colon t with h :: _ => parseInt h | [] => None end in
  ((if includes (type a) "restaurant" then
      (if between hour 12 14 then ["Lunch rush - reservation recommended"] else []) ++
      (if between hour 19 21
       then ["Peak dinner time - expect wait without reservation"] else [])
    else []) ++
   (if includes (type a) "club" then
      if includes (toLowerCase (name a)) "berghain" then
        ["Dress code: Black/techno style"; "Don't be too drunk or too sober";
         "Go in small groups or alone"; "Rejection is common - have backup plan"]
      else ["Check dress code in advance"]
    else []) ++
   (if includes (type a) "museum" then
      "Audio guide available" ::
      (if between hour 10 16 then ["Peak hours - skip-the-line ticket worth it"] else [])
    else []) ++
   (if includes (type a) "cafe" then
      ["Good wifi for remote work"; "Power outlets available"]
    else []))%list.

(** ** Cost *)

Fixpoint drop_prefix (p s : string) : option string :=
  match p, s with
  | EmptyString, _ => Some s
  | String a p', String b s' => if Ascii.eqb a b then drop_prefix p' s' else None
  | String _ _, EmptyString => None
  end.

(** [price.match(/€(\d+)/)]: the capture group of the leftmost place where
    the euro sign is followed by a digit, extended over the whole digit run. *)
Fixpoint priceMatch (s : string) : option string :=
  let here :=
    match drop_prefix "€" s with
    | Some after =>
        match take_digits after with
        | EmptyString => None
        | ds => Some ds
        end
    | None => None
    end in
  match here with
  | Some ds => Some ds
  | None =>
      match s with
      | EmptyString => None
      | String _ rest => priceMatch rest
      end
  end.

(** The loop body: [total] is a JavaScript number, [None] when it is [NaN]. *)
Definition addPrice (total : option Z) (slot : TimeSlot) : option Z :=
  match priceMatch (price (activity slot)) with
  | Some ds =>
      match total, parseInt ds with
      | Some t, Some n => Some (t + n)%Z
      | _, _ => None
      end
  | None => total
  end.

Definition show_number (n : option Z) : string :=
  match n with Some z => pretty z | None => "NaN" end.

Definition calculateTotalCost (slots : list TimeSlot) : string :=
  "€" ++ show_number (fold_left addPrice slots (Some 0%Z)).

Section Planner.

(** Outside the repository: calendar arithmetic of [Date], the affiliate
    policy ([Some url] when an affiliate link is attached), and the
    great-circle distance. *)
Variable getDayOfWeek : string -> string.
Variable shouldUseAffiliate : Activity -> option string.
Variable haversineDistance : Coordinates -> Coordinates -> Q.

Definition createTimeSlot (t : string) (a : Activity) : TimeSlot :=
  {| time := t;
     activity := a;
     travelTime := None;
     affiliateLink := shouldUseAffiliate a;
     tips := Some (generateTips a t) |}.

Definition estimateDistance (from to : Activity) : Q :=
  match coordinates from, coordinates to with
  | Some c1, Some c2 => haversineDistance c1 c2
  | _, _ =>
      if includes (address from) "Mitte" && includes (address to) "Mitte" then 15 # 10
      else if includes (address from) "Kreuzberg" && includes (address to) "Kreuzberg" then 1
      else 3
  end.

Definition estimateTravelTime (distance : Q) : Z :=
  (Qceiling (distance / 4 * 60) + 5)%Z.

(** [addTravelTimes]: every slot but the first records the time from the
    activity before it.  The source writes the field in place; the slots of
    a plan are distinct objects, so the update is per position. *)
Fixpoint addTravelTimes_after (from : Activity) (slots : list TimeSlot) : list TimeSlot :=
  match slots with
  | [] => []
  | slot :: rest =>
      {| time := time slot;
         activity := activity slot;
         travelTime := Some (estimateTravelTime (estimateDistance from (activity slot)));
         affiliateLink := affiliateLink slot;
         tips := tips slot |}
      :: addTravelTimes_after (activity slot) rest
  end.

Definition addTravelTimes (slots : list TimeSlot) : list TimeSlot :=
  match slots with
  | [] => []
  | first :: rest => first :: addTravelTimes_after (activity first) rest
  end.

Fixpoint tightTimings (prev : TimeSlot) (slots : list TimeSlot) : list string :=
  match slots with
  | [] => []
  | slot :: rest =>
      let prevEnd :=
        match timeToMinutes (time prev) with
        | Some m => Some (m + duration (activity prev))%Z
        | None => None
        end in
      let nextStart := timeToMinutes (time slot) in
      let travel := match travelTime slot with Some m => m | None => 0%Z end in
      let arrival := match prevEnd with Some e => Some (e + travel)%Z | None => None end in
      ((if num_lt nextStart arrival
        then [("Tight timing between " ++ name (activity prev) ++ " and "
               ++ name (activity slot))%string]
        else []) ++ tightTimings slot rest)%list
  end.

Definition generateWarnings (slots : list TimeSlot) (day : string) : list string :=
  ((if String.eqb day "Monday" &&
       existsb (fun s => includes (type (activity s)) "museum") slots
    then ["Many museums closed on Mondays - verify opening hours"] else []) ++
   (if String.eqb day "Sunday" &&
       existsb (fun s => includes (type (activity s)) "shop") slots
    then ["Many shops closed on Sundays in Germany"] else []) ++
   match slots with
   | [] => []
   | first :: rest => tightTimings first rest
   end ++
   (if existsb (fun s => includes (type (activity s)) "park" ||
                         includes (type (activity s)) "market" ||
                         includes (type (activity s)) "outdoor") slots
    then ["Check weather forecast for outdoor activities"] else []))%list.

Fixpoint walkingTotal (from : Activity) (slots : list TimeSlot) : Q :=
  match slots with
  | [] => 0
  | slot :: rest =>
      (estimateDistance from (activity slot) + walkingTotal (activity slot) rest)%Q
  end.

(** [Math.round(total * 10) / 10] *)
Definition calculateWalkingDistance (slots : list TimeSlot) : Q :=
  let total := match slots with [] => 0%Q | first :: rest => walkingTotal (activity first) rest end in
  (inject_Z (Qfloor (total * 10 + (1 # 2))) / 10)%Q.

(** The comparator of the final sort; a [NaN] difference counts as 0. *)
Definition compareTimes (a b : TimeSlot) : Z :=
  match timeToMinutes (time a), timeToMinutes (time b) with
  | Some x, Some y => (x - y)%Z
  | _, _ => 0%Z
  end.

(** One turn of the loop over the template: the state is the [slots]
    array and the [plannedTimes] set. *)
Definition fillSlot (availableActivities : list Activity) (prefs : Preferences)
    (day : string) (st : list TimeSlot * gset string) (timeSlot : TemplateSlot)
  : list TimeSlot * gset string :=
  let '(slots, plannedTimes) := st in
  if bool_decide (tpl_time timeSlot ∈ plannedTimes) then st
  else
    match selectBestActivity (tpl_type timeSlot) availableActivities prefs day
            (tpl_time timeSlot) with
    | Some a =>
        ((slots ++ [createTimeSlot (tpl_time timeSlot) a])%list,
         {[tpl_time timeSlot]} ∪ plannedTimes)
    | None => st
    end.

(** The [slots] array as it stands when the loop over the template ends. *)
Definition placeSlots (day : string) (availableActivities : list Activity)
    (fixedBookings : list TimeSlot) (prefs : Preferences) : list TimeSlot :=
  let plannedTimes : gset string := list_to_set (map time fixedBookings) in
  fst (fold_left (fillSlot availableActivities prefs day)
                 (getScheduleTemplate (pace prefs))
                 (fixedBookings, plannedTimes)).

Definition createDayPlan (date : string) (availableActivities : list Activity)
    (fixedBookings : list TimeSlot) (prefs : Preferences) : DayPlan :=
  let day := getDayOfWeek date in
  let placed := placeSlots day availableActivities fixedBookings prefs in
  let sorted := addTravelTimes (sort compareTimes placed) in
  {| date := date;
     dayOfWeek := day;
     slots := sorted;
     totalCost := calculateTotalCost sorted;
     walkingDistance := calculateWalkingDistance sorted;
     warnings := generateWarnings sorted day |}.

End Planner.

End DayPlanner.

(* ===================================================================== *)
(** * Properties                                                          *)
(* ===================================================================== *)

(** ** Intent merge: the confidence floor *)

Section MergeConfidence.

Import IntentExtractor.
Local Open Scope Q_scope.

(** The AI confidence as the merge sees it: a missing field counts as 0. *)
Definition aiConfidence (ai : PartialIntent) : Q :=
  match pi_confidence ai with Some c => c | None => 0 end.

Lemma or_zero_Some (v : Q) : or_zero (Some v) == v.
Proof.
  unfold or_zero. destruct (Qeq_bool v 0) eqn:E; [|reflexivity].
  apply Qeq_bool_iff in E. symmetry. exact E.
Qed.

Lemma or_zero_aiConfidence (ai : PartialIntent) :
  or_zero (pi_confidence ai) == aiConfidence ai.
Proof.
  unfold aiConfidence. destruct (pi_confidence ai) as [c|].
  - apply or_zero_Some.
  - reflexivity.
Qed.

Lemma mergeIntents_confidence_eq ai pat text :
  ti_confidence (mergeIntents ai pat text)
  == Qmax (Qmax (aiConfidence ai) (pt_confidence pat)) (1 # 2).
Proof.
  cbn [mergeIntents ti_confidence].
  rewrite or_zero_aiConfidence, or_zero_Some.
  assert (Hhalf : 5 # 10 == 1 # 2) by reflexivity.
  rewrite Hhalf. reflexivity.
Qed.

Lemma mergeIntents_confidence_floor ai pat text :
  1 # 2 <= ti_confidence (mergeIntents ai pat text).
Proof.
  rewrite mergeIntents_confidence_eq. apply Q.le_max_r.
Qed.

(** C2, as the code has it.  The confidence of a merged intent is
    [max(aiConfidence, patternConfidence, 0.5)], a missing AI confidence
    counting as 0, hence never below 0.5.  With both source confidences at
    most 1 it lies in [[0.5, 1.0]]: the merge does not clamp, the upper
    bound is inherited from its two inputs. *)
Theorem mergeIntents_confidence_range ai pat text :
  ti_confidence (mergeIntents ai pat text)
    == Qmax (Qmax (aiConfidence ai) (pt_confidence pat)) (1 # 2)
  /\ 1 # 2 <= ti_confidence (mergeIntents ai pat text)
  /\ (aiConfidence ai <= 1 ->
      pt_confidence pat <= 1 ->
      ti_confidence (mergeIntents ai pat text) <= 1).
Proof.
  split; [apply mergeIntents_confidence_eq|].
  split; [apply mergeIntents_confidence_floor|].
  intros Hai Hpat. rewrite mergeIntents_confidence_eq.
  apply Q.max_lub; [apply Q.max_lub; assumption|]. discriminate.
Qed.

(** The pattern confidence handed to the merge never exceeds the best
    retrieval score, so scores within [[0, 1]] keep it within [[0, 1]]. *)
Lemma extractFromPatterns_confidence_le (bound : Q) text (patterns : list RAGResult) :
  0 <= bound ->
  Forall (fun r => confidence r <= bound) patterns ->
  pt_confidence (extractFromPatterns text patterns) <= bound.
Proof.
  intros Hb Hall. unfold extractFromPatterns.
  assert (Hacc : pt_confidence emptyPatternIntent <= bound) by exact Hb.
  revert Hacc. generalize emptyPatternIntent as acc.
  induction Hall as [|r rest Hr _ IH]; intros acc Hacc; cbn [fold_left]; [exact Hacc|].
  apply IH. unfold absorbPattern.
  destruct (content r) as [p|lp]; [exact Hacc|].
  destruct (0 <? _)%nat; [|exact Hacc].
  cbn [pt_confidence]. apply Q.max_lub; assumption.
Qed.

(** A completion that reports its confidence as 2. *)
Definition overconfidentGuess : PartialIntent :=
  {| pi_destination := Some "Berlin"; pi_dates := None;
     pi_interests := None; pi_budgetTier := None;
     pi_groupType := None; pi_pace := None; pi_confidence := Some 2 |}.

(** C2 fails at this input: the merge keeps a source confidence above 1
    as it is. *)
Lemma mergeIntents_confidence_above_one :
  ti_confidence (mergeIntents overconfidentGuess emptyPatternIntent "berlin") == 2
  /\ ~ ti_confidence (mergeIntents overconfidentGuess emptyPatternIntent "berlin") <= 1.
Proof. split; [reflexivity|]. intros H. apply H. reflexivity. Qed.

Definition sampleGuess : PartialIntent :=
  {| pi_destination := Some "Berlin"; pi_dates := None;
     pi_interests := Some ["clubs"]; pi_budgetTier := Some "low";
     pi_groupType := None; pi_pace := None; pi_confidence := Some (8 # 10) |}.

Lemma mergeIntents_confidence_range_witness :
  ti_confidence (mergeIntents sampleGuess emptyPatternIntent "broke students berlin clubs")
    == Qmax (Qmax (8 # 10) 0) (1 # 2)
  /\ 1 # 2 <= ti_confidence (mergeIntents sampleGuess emptyPatternIntent
                               "broke students berlin clubs")
  /\ ti_confidence (mergeIntents sampleGuess emptyPatternIntent
                      "broke students berlin clubs") <= 1.
Proof.
  destruct (mergeIntents_confidence_range sampleGuess emptyPatternIntent
              "broke students berlin clubs") as (Heq & Hfloor & Hceil).
  split; [exact Heq|]. split; [exact Hfloor|].
  apply Hceil; discriminate.
Defined.

End MergeConfidence.

(** ** Fusion: the fallback recommendation *)

Section Fallback.

Import DualRAGSystem.

Variable contextCompletion :
  TravelIntent -> list Venue -> list string -> string -> outcome (option string).

(** The fixed table of the budget tiers. *)
Lemma getBudgetRange_table :
  getBudgetRange "low" = "€5-20" /\
  getBudgetRange "medium" = "€20-50" /\
  getBudgetRange "high" = "€50-100" /\
  getBudgetRange "luxury" = "€100+".
Proof. repeat split. Qed.

(** A tier outside the table is priced like the medium one. *)
Lemma getBudgetRange_default tier :
  tier <> "low" -> tier <> "medium" -> tier <> "high" -> tier <> "luxury" ->
  getBudgetRange tier = "€20-50".
Proof.
  intros H1 H2 H3 H4. unfold getBudgetRange.
  repeat match goal with
  | |- context [String.eqb tier ?s] =>
      destruct (String.eqb_spec tier s); [congruence|]
  end.
  reflexivity.
Qed.

(** C3.  With no retrieved pattern, the recommendation is the fallback: one
    synthetic venue priced by the budget table (low "€5-20", medium
    "€20-50", high "€50-100", luxury "€100+"), confidence exactly 0.3, no
    alternatives, and a reasoning text that opens by saying that no success
    pattern is known for the destination. *)
Theorem generateRecommendations_empty (intent : TravelIntent) (originalQuery : string) :
  exists venue,
    generateRecommendations contextCompletion intent [] originalQuery
    = Returned
        {| rec_venues := [venue];
           rec_confidence := 3 # 10;
           reasoning :=
             "I don't have specific success patterns for " ++ destination intent ++
             " yet, but this is a popular choice for " ++
             join " and " (interests intent) ++ " enthusiasts.";
           localTips := ["Consider booking in advance"; "Check local weather conditions"];
           alternatives := [] |}
    /\ priceRange venue = getBudgetRange (budgetTier intent)
    /\ getBudgetRange "low" = "€5-20"
    /\ getBudgetRange "medium" = "€20-50"
    /\ getBudgetRange "high" = "€50-100"
    /\ getBudgetRange "luxury" = "€100+"
    /\ Types.name venue
       = "Top " ++ primaryInterest intent ++ " in " ++ destination intent
    /\ Types.type venue = primaryInterest intent.
Proof.
  eexists. split; [reflexivity|].
  repeat split.
Qed.

End Fallback.

(** ** Fusion: confidence arithmetic *)

Section ConfidenceFusion.

Import DualRAGSystem.
Local Open Scope Q_scope.

(** The sum and the mean of the retrieval scores, as the formula reads. *)
Definition scoreSum (patterns : list RAGResult) : Q :=
  fold_right (fun p acc => confidence p + acc) 0 patterns.

Definition avg (patterns : list RAGResult) : Q :=
  scoreSum patterns / inject_Z (Z.of_nat (length patterns)).

Lemma fold_left_sum_from (f : RAGResult -> Q) (xs : list RAGResult) (acc : Q) :
  fold_left (fun sum x => sum + f x) xs acc
  == acc + fold_right (fun p rest => f p + rest) 0 xs.
Proof.
  revert acc. induction xs as [|x xs IH]; intros acc; cbn [fold_left fold_right].
  - ring.
  - rewrite IH. ring.
Qed.

Lemma reduce_sum_scoreSum (patterns : list RAGResult) :
  reduce_sum confidence patterns == scoreSum patterns.
Proof.
  unfold reduce_sum, scoreSum. rewrite fold_left_sum_from. ring.
Qed.

Lemma averageConfidence_avg (patterns : list RAGResult) :
  averageConfidence patterns == avg patterns.
Proof.
  unfold averageConfidence, avg. rewrite reduce_sum_scoreSum. reflexivity.
Qed.

(** The two formulas, written from their statement. *)
Definition recommendationConfidence_formula (patterns : list RAGResult) (venueCount : nat) : Q :=
  match patterns, venueCount with
  | [], _ => 3 # 10
  | _, O => 3 # 10
  | _, _ =>
      Qmin (avg patterns + Qmin (inject_Z (Z.of_nat venueCount) / 5) 1 * (2 # 10)) 1
  end.

Definition overallConfidence_formula (intentConfidence : Q) (patterns : list RAGResult)
    (recommendationConfidence : Q) : Q :=
  (3 # 10) * intentConfidence
  + (4 # 10) * match patterns with [] => 3 # 10 | _ => avg patterns end
  + (3 # 10) * recommendationConfidence.

(** C5.  The recommendation confidence is
    [min(avg(scores) + min(venueCount/5, 1) * 0.2, 1)], and 0.3 without
    patterns or without venues; the overall confidence is
    [0.3 * intent + 0.4 * avg(scores) + 0.3 * recommendation], the average
    being replaced by 0.3 when there is no pattern.  Numbers are exact
    rationals. *)
Theorem confidence_fusion_formulas (intent : TravelIntent) (patterns : list RAGResult)
    (venues : list Venue) (recommendations : TravelRecommendation) :
  calculateRecommendationConfidence patterns venues
    == recommendationConfidence_formula patterns (length venues)
  /\ calculateOverallConfidence intent patterns recommendations
    == overallConfidence_formula (ti_confidence intent) patterns
         (rec_confidence recommendations).
Proof.
  split.
  - unfold calculateRecommendationConfidence, recommendationConfidence_formula.
    destruct patterns as [|p ps]; [reflexivity|].
    destruct venues as [|v vs]; [reflexivity|].
    cbn [length Nat.eqb orb]. rewrite averageConfidence_avg. reflexivity.
  - unfold calculateOverallConfidence, overallConfidence_formula.
    destruct patterns as [|p ps].
    + cbn [length Nat.ltb Nat.leb]. ring.
    + change (0 <? length (p :: ps))%nat with true. cbv iota.
      rewrite averageConfidence_avg. ring.
Qed.

(** The recommendation confidence is capped at 1. *)
Lemma calculateRecommendationConfidence_le_1 patterns venues :
  calculateRecommendationConfidence patterns venues <= 1.
Proof.
  unfold calculateRecommendationConfidence.
  destruct (_ || _)%bool; [discriminate|]. apply Q.le_min_r.
Qed.

End ConfidenceFusion.

(** ** Retrieval: score cutoff and order *)

Section Retrieval.

Import VectorStore.
Local Open Scope Q_scope.

Variable Metadata : Type.
Variable Embedding : Type.
Variable embedQuery : string -> outcome Embedding.
Variable indexQuery : Embedding -> nat -> FilterConditions -> outcome (list (Match Metadata)).
Variable parseSuccessPattern : Metadata -> outcome SuccessPattern.
Variable parseLanguagePattern : Metadata -> outcome LanguagePattern.
Variable metadataSource : Metadata -> option string.

Local Abbreviation querySuccess :=
  (querySuccessPatterns Metadata Embedding embedQuery indexQuery
     parseSuccessPattern metadataSource).
Local Abbreviation queryLanguage :=
  (queryLanguagePatterns Metadata Embedding embedQuery indexQuery parseLanguagePattern).

(** Hits in descending similarity. *)
Definition descending (scores : list Q) : Prop :=
  StronglySorted (fun a b => b <= a) scores.

Lemma bind_Returned {A B : Type} (m : outcome A) (k : A -> outcome B) (b : B) :
  bind m k = Returned b -> exists a, m = Returned a /\ k a = Returned b.
Proof. destruct m as [a|e]; cbn; [eauto|discriminate]. Qed.

Lemma mapM_Returned {A B : Type} (f : A -> outcome B) (xs : list A) (ys : list B) :
  mapM f xs = Returned ys -> Forall2 (fun x y => f x = Returned y) xs ys.
Proof.
  revert ys. induction xs as [|x xs IH]; intros ys H; cbn in H.
  - injection H as <-. constructor.
  - apply bind_Returned in H as (y & Hy & H).
    apply bind_Returned in H as (ys' & Hys & H).
    injection H as <-. constructor; auto.
Qed.

Lemma mapM_total {A B : Type} (f : A -> outcome B) (xs : list A) :
  Forall (fun x => returns (f x) = true) xs -> returns (mapM f xs) = true.
Proof.
  induction 1 as [|x xs Hx _ IH]; cbn; [reflexivity|].
  destruct (f x); [|discriminate]. cbn.
  destruct (mapM f xs); [reflexivity|discriminate].
Qed.

Lemma toSuccessResult_confidence m r :
  toSuccessResult Metadata parseSuccessPattern metadataSource m = Returned r ->
  confidence r = score m.
Proof.
  unfold toSuccessResult. intros H.
  apply bind_Returned in H as (p & _ & H). injection H as <-. reflexivity.
Qed.

Lemma toLanguageResult_confidence m r :
  toLanguageResult Metadata parseLanguagePattern m = Returned r ->
  confidence r = score m.
Proof.
  unfold toLanguageResult. intros H.
  apply bind_Returned in H as (p & _ & H). injection H as <-. reflexivity.
Qed.

Lemma Forall2_confidences (f : Match Metadata -> outcome RAGResult) ms rs :
  (forall m r, f m = Returned r -> confidence r = score m) ->
  Forall2 (fun m r => f m = Returned r) ms rs ->
  map confidence rs = map score ms.
Proof.
  intros Hf. induction 1 as [|m r ms rs Hm _ IH]; cbn; [reflexivity|].
  rewrite (Hf _ _ Hm), IH. reflexivity.
Qed.

Lemma map_score_filter threshold (ms : list (Match Metadata)) :
  map score (List.filter (passes Metadata threshold) ms)
  = List.filter (Qle_bool threshold) (map score ms).
Proof.
  induction ms as [|m ms IH]; [reflexivity|].
  cbn [List.filter map]. unfold passes at 1.
  destruct (Qle_bool threshold (score m)); cbn [map]; rewrite IH; reflexivity.
Qed.

Lemma filter_above threshold (scores : list Q) :
  Forall (fun s => threshold <= s) (List.filter (Qle_bool threshold) scores).
Proof.
  induction scores as [|s scores IH]; cbn [List.filter]; [constructor|].
  destruct (Qle_bool threshold s) eqn:E; [|exact IH].
  constructor; [apply Qle_bool_iff; exact E|exact IH].
Qed.

Lemma descending_filter (keep : Q -> bool) (scores : list Q) :
  descending scores -> descending (List.filter keep scores).
Proof.
  unfold descending. induction 1 as [|s scores Hs IH Hall]; cbn [List.filter]; [constructor|].
  destruct (keep s); [|exact IH].
  constructor; [exact IH|].
  clear -Hall. induction Hall as [|x xs Hx _ IHx]; cbn [List.filter]; [constructor|].
  destruct (keep x); [constructor; assumption|assumption].
Qed.

(** What both queries share once the index has answered. *)
Lemma kept_results (f : Match Metadata -> outcome RAGResult) threshold ms rs :
  (forall m r, f m = Returned r -> confidence r = score m) ->
  mapM f (List.filter (passes Metadata threshold) ms) = Returned rs ->
  map confidence rs = List.filter (Qle_bool threshold) (map score ms)
  /\ Forall (fun r => threshold <= confidence r) rs
  /\ (descending (map score ms) -> descending (map confidence rs)).
Proof.
  intros Hf H. apply mapM_Returned in H.
  pose proof (Forall2_confidences f _ _ Hf H) as Hmap.
  rewrite map_score_filter in Hmap.
  split; [exact Hmap|]. split.
  - apply Forall_map with (f := confidence) (P := fun s => threshold <= s).
    rewrite Hmap. apply filter_above.
  - intros Hd. rewrite Hmap. apply descending_filter. exact Hd.
Qed.

(** C6.  Whatever the index returns, every result of the pattern query
    scores at least the configured threshold and every result of the
    phrase query scores at least the literal phrase threshold 0.6, which
    does not depend on the configuration; the results are the surviving
    hits in the order of the index, so a descending list of hits gives a
    descending list of results. *)
Theorem retrieval_cutoff_and_order (cfg : RagConfig) (query : string) (filters : Filters) :
  (forall rs,
     querySuccess cfg query filters = Returned rs ->
     exists embedding matches,
       embedQuery query = Returned embedding
       /\ indexQuery embedding (topK cfg) (successFilterConditions filters) = Returned matches
       /\ map confidence rs
          = List.filter (Qle_bool (confidenceThreshold cfg)) (map score matches)
       /\ Forall (fun r => confidenceThreshold cfg <= confidence r) rs
       /\ (descending (map score matches) -> descending (map confidence rs)))
  /\
  (forall rs,
     queryLanguage query = Returned rs ->
     exists embedding matches,
       embedQuery query = Returned embedding
       /\ indexQuery embedding 5%nat languageFilterConditions = Returned matches
       /\ map confidence rs = List.filter (Qle_bool (6 # 10)) (map score matches)
       /\ Forall (fun r => 6 # 10 <= confidence r) rs
       /\ (descending (map score matches) -> descending (map confidence rs))).
Proof.
  split; intros rs H.
  - unfold querySuccessPatterns in H.
    apply bind_Returned in H as (embedding & He & H).
    apply bind_Returned in H as (matches & Hm & H).
    exists embedding, matches. split; [exact He|]. split; [exact Hm|].
    eapply kept_results; [|exact H]. apply toSuccessResult_confidence.
  - unfold queryLanguagePatterns in H.
    apply bind_Returned in H as (embedding & He & H).
    apply bind_Returned in H as (matches & Hm & H).
    exists embedding, matches. split; [exact He|]. split; [exact Hm|].
    eapply kept_results; [|exact H]. apply toLanguageResult_confidence.
Qed.

(** The pattern query does return when its collaborators do. *)
Lemma querySuccessPatterns_returns cfg query filters embedding matches :
  embedQuery query = Returned embedding ->
  indexQuery embedding (topK cfg) (successFilterConditions filters) = Returned matches ->
  Forall (fun m => returns (parseSuccessPattern (match_metadata m)) = true) matches ->
  returns (querySuccess cfg query filters) = true.
Proof.
  intros He Hm Hp. unfold querySuccessPatterns. rewrite He. cbn. rewrite Hm. cbn.
  apply mapM_total. apply List.Forall_forall. intros m Hin.
  apply filter_In in Hin as [Hin _].
  rewrite List.Forall_forall in Hp. specialize (Hp m Hin).
  unfold toSuccessResult. destruct (parseSuccessPattern _); [reflexivity|discriminate].
Qed.

Lemma queryLanguagePatterns_returns query embedding matches :
  embedQuery query = Returned embedding ->
  indexQuery embedding 5%nat languageFilterConditions = Returned matches ->
  Forall (fun m => returns (parseLanguagePattern (match_metadata m)) = true) matches ->
  returns (queryLanguage query) = true.
Proof.
  intros He Hm Hp. unfold queryLanguagePatterns. rewrite He. cbn. rewrite Hm. cbn.
  apply mapM_total. apply List.Forall_forall. intros m Hin.
  apply filter_In in Hin as [Hin _].
  rewrite List.Forall_forall in Hp. specialize (Hp m Hin).
  unfold toLanguageResult. destruct (parseLanguagePattern _); [reflexivity|discriminate].
Qed.

(** A failure of the embedding client or of the index is not caught. *)
Lemma queryLanguagePatterns_propagates query e :
  (embedQuery query = Thrown e -> queryLanguage query = Thrown e)
  /\ (forall embedding,
        embedQuery query = Returned embedding ->
        indexQuery embedding 5%nat languageFilterConditions = Thrown e ->
        queryLanguage query = Thrown e).
Proof.
  unfold queryLanguagePatterns. split.
  - intros H. rewrite H. reflexivity.
  - intros embedding He Hi. rewrite He. cbn. rewrite Hi. reflexivity.
Qed.

End Retrieval.

(** A small index: three hits in descending similarity, the last one
    under the configured threshold. *)
Definition sampleLanguagePattern : LanguagePattern :=
  {| lp_id := Some "budget_1"; lp_intent := Some "budget_expression";
     phrases := ["broke"; "on a shoestring"]; lp_confidence := 8 # 10;
     mapsTo := {| fr_budgetTier := Some "low"; fr_interests := None;
                  fr_pace := None; fr_groupType := None |};
     examples := [] |}.

Definition sampleSuccessPattern (vs : list Venue) : SuccessPattern :=
  {| sp_id := Some "berlin_nightlife"; sp_destination := Some "berlin";
     category := Some "nightlife"; venues := vs; sp_budgetTier := Some "low";
     successRate := 9 # 10; userSatisfaction := 4;
     metadata := {| md_source := Some "curated"; lastUpdated := None;
                    bookingPattern := ""; localInsights := Some ["Go late"] |} |}.

Definition sampleIndex (_ : unit) (_ : nat) (_ : VectorStore.FilterConditions)
  : outcome (list (VectorStore.Match unit)) :=
  Returned [ {| VectorStore.score := 9 # 10; VectorStore.match_metadata := tt |};
             {| VectorStore.score := 66 # 100; VectorStore.match_metadata := tt |};
             {| VectorStore.score := 5 # 10; VectorStore.match_metadata := tt |} ].

Definition sampleQuerySuccess : outcome (list RAGResult) :=
  VectorStore.querySuccessPatterns unit unit (fun _ => Returned tt) sampleIndex
    (fun _ => Returned (sampleSuccessPattern [])) (fun _ => None)
    VectorStore.CONFIG_rag "broke students berlin clubs" VectorStore.no_filters.

Lemma retrieval_cutoff_and_order_witness :
  exists rs,
    sampleQuerySuccess = Returned rs
    /\ map confidence rs = [9 # 10; 66 # 100]%Q
    /\ Forall (fun r => (6 # 10 <= confidence r)%Q) rs.
Proof.
  eexists. split; [reflexivity|].
  destruct (proj1 (retrieval_cutoff_and_order unit unit (fun _ => Returned tt) sampleIndex
                     (fun _ => Returned (sampleSuccessPattern []))
                     (fun _ => Returned sampleLanguagePattern) (fun _ => None)
                     VectorStore.CONFIG_rag "broke students berlin clubs"
                     VectorStore.no_filters) _ eq_refl)
    as (embedding & matches & _ & Hm & Hmap & Hall & _).
  injection Hm as <-.
  split; [exact Hmap|exact Hall].
Defined.

(** ** Intent extraction: which failures are absorbed *)

Section IntentDegradation.

Import IntentExtractor.
Local Open Scope Q_scope.

Variable queryLanguagePatterns : string -> outcome (list RAGResult).
Variable chatCompletion : string -> outcome (option string).
Variable JSON_parse : string -> outcome ParsedJSON.

Local Abbreviation extractAI := (extractWithAI chatCompletion JSON_parse).
Local Abbreviation extract := (extractIntent queryLanguagePatterns chatCompletion JSON_parse).

(** The completion client failed: the request was rejected, the response
    had no content, or the content is not JSON. *)
Definition completionFailed (userMessage : string) : Prop :=
  match chatCompletion userMessage with
  | Thrown _ => True
  | Returned content =>
      match truthy_string content with
      | None => True
      | Some text => returns (JSON_parse text) = false
      end
  end.

Lemma extractWithAI_returns userMessage :
  exists guess, extractAI userMessage = Returned guess.
Proof.
  unfold extractWithAI. destruct (chatCompletion userMessage) as [content|e]; cbn.
  - destruct (truthy_string content) as [text|]; cbn; [|eauto].
    destruct (JSON_parse text); cbn; eauto.
  - eauto.
Qed.

Lemma extractWithAI_degrades userMessage :
  completionFailed userMessage ->
  extractAI userMessage = Returned (JSON_object degradedGuess).
Proof.
  unfold completionFailed, extractWithAI.
  destruct (chatCompletion userMessage) as [content|e]; cbn; [|reflexivity].
  destruct (truthy_string content) as [text|]; cbn; [|reflexivity].
  destruct (JSON_parse text); cbn; [discriminate|reflexivity].
Qed.

(** The intent built from the degraded guess: nothing but what the phrase
    patterns supplied, and a confidence that only they can lift above the
    floor. *)
Lemma degraded_intent_shape (pat : PatternIntent) text :
  let intent := mergeIntents degradedGuess pat text in
  destination intent = ""
  /\ dates intent = None
  /\ originalText intent = text
  /\ budgetTier intent = or_string (pt_budgetTier pat) "medium"
  /\ groupType intent = or_string (pt_groupType pat) "solo"
  /\ pace intent = or_string (pt_pace pat) "moderate"
  /\ ti_confidence intent == Qmax (pt_confidence pat) (1 # 2).
Proof.
  cbn zeta.
  do 3 (split; [reflexivity|]).
  split; [|split; [|split]].
  - unfold mergeIntents, firstTruthy, or_string. cbn.
    destruct (truthy_string (pt_budgetTier pat)); reflexivity.
  - unfold mergeIntents, firstTruthy, or_string. cbn.
    destruct (truthy_string (pt_groupType pat)); reflexivity.
  - unfold mergeIntents, firstTruthy, or_string. cbn.
    destruct (truthy_string (pt_pace pat)); reflexivity.
  - rewrite mergeIntents_confidence_eq.
    change (aiConfidence degradedGuess) with (3 # 10).
    destruct (Q.max_spec (3 # 10) (pt_confidence pat)) as [[Hlt ->]|[Hle ->]].
    + reflexivity.
    + rewrite (Q.max_r (3 # 10) (1 # 2)) by discriminate.
      symmetry. apply Q.max_r. apply Qle_trans with (3 # 10); [exact Hle|discriminate].
Qed.

(** C1, as the code has it.  A failure of the completion client is
    absorbed: the AI guess degrades to [{confidence: 0.3}] and the intent
    is the merge of that guess with the phrase patterns.  More generally
    the extraction returns an intent whenever the phrase lookup returned
    and the completion text is not the JSON literal [null].  A failure of
    the phrase lookup is not caught: it reaches the caller unchanged. *)
Theorem extractIntent_failure_policy (userMessage : string) :
  (forall e,
     queryLanguagePatterns userMessage = Thrown e ->
     extract userMessage = Thrown e)
  /\
  (forall patterns,
     queryLanguagePatterns userMessage = Returned patterns ->
     (completionFailed userMessage ->
      let pat := extractFromPatterns userMessage patterns in
      exists intent,
        extract userMessage = Returned intent
        /\ intent = mergeIntents degradedGuess pat userMessage
        /\ destination intent = ""
        /\ dates intent = None
        /\ budgetTier intent = or_string (pt_budgetTier pat) "medium"
        /\ groupType intent = or_string (pt_groupType pat) "solo"
        /\ pace intent = or_string (pt_pace pat) "moderate"
        /\ ti_confidence intent == Qmax (pt_confidence pat) (1 # 2))
     /\
     (extractAI userMessage <> Returned JSON_null ->
      exists intent,
        extract userMessage = Returned intent
        /\ originalText intent = userMessage
        /\ 1 # 2 <= ti_confidence intent)).
Proof.
  split.
  - intros e H. unfold extractIntent. rewrite H. reflexivity.
  - intros patterns H. split.
    + intros Hfail pat. eexists. split.
      * unfold extractIntent. rewrite H. cbn [bind].
        rewrite (extractWithAI_degrades _ Hfail). reflexivity.
      * split; [reflexivity|].
        destruct (degraded_intent_shape pat userMessage)
          as (Hd & Hdates & _ & Hb & Hg & Hp & Hc).
        repeat (split; [assumption|]). exact Hc.
    + intros Hnull. unfold extractIntent. rewrite H. cbn [bind].
      destruct (extractWithAI_returns userMessage) as [guess Hguess].
      rewrite Hguess in *. cbn [bind].
      destruct guess as [|ai]; [congruence|].
      eexists. split; [reflexivity|]. split; [reflexivity|].
      apply mergeIntents_confidence_floor.
Qed.

End IntentDegradation.

(** The phrase lookup of a store whose embedding client is down. *)
Definition failingLookup : string -> outcome (list RAGResult) :=
  VectorStore.queryLanguagePatterns unit unit
    (fun _ => Thrown "embedding service unavailable")
    (fun _ _ _ => Returned [])
    (fun _ => Returned sampleLanguagePattern).

(** C1 fails at this input: with the phrase lookup failing, the extraction
    throws even though the completion client answers. *)
Lemma extractIntent_throws_on_lookup_failure :
  IntentExtractor.extractIntent failingLookup
    (fun _ => Returned (Some "{}"))
    (fun _ => Returned (IntentExtractor.JSON_object IntentExtractor.degradedGuess))
    "broke students berlin clubs"
  = Thrown "embedding service unavailable".
Proof. reflexivity. Qed.

(** The same store with the embedding client up, and a completion client
    that times out. *)
Definition workingLookup : string -> outcome (list RAGResult) :=
  VectorStore.queryLanguagePatterns unit unit
    (fun _ => Returned tt)
    (fun _ _ _ => Returned [ {| VectorStore.score := 7 # 10;
                                VectorStore.match_metadata := tt |} ])
    (fun _ => Returned sampleLanguagePattern).

Lemma extractIntent_failure_policy_witness :
  exists intent,
    IntentExtractor.extractIntent workingLookup
      (fun _ => Thrown "timeout") (fun _ => Thrown "SyntaxError")
      "broke students berlin clubs"
    = Returned intent
    /\ budgetTier intent = "low"
    /\ destination intent = ""
    /\ (ti_confidence intent == 7 # 10)%Q.
Proof.
  destruct (proj2 (extractIntent_failure_policy workingLookup
                     (fun _ => Thrown "timeout") (fun _ => Thrown "SyntaxError")
                     "broke students berlin clubs") _ eq_refl) as [Hdeg _].
  destruct (Hdeg I) as (intent & Hret & -> & _).
  eexists. split; [exact Hret|].
  split; [reflexivity|]. split; reflexivity.
Defined.

(** ** Scheduler: opening hours *)

Section OpenHours.

Import DayPlanner.
Local Open Scope Z_scope.

(** The hard-coded closure: the flagship club on Mondays. *)
Definition flagshipClosure (a : Activity) (day : string) : bool :=
  includes (toLowerCase (name a)) "berghain" && String.eqb day "Monday".

(** An activity states its hours when both fields are present and not empty. *)
Definition statedHours (a : Activity) : option (string * string) :=
  match truthy_string (openTime a), truthy_string (closeTime a) with
  | Some opens, Some closes => Some (opens, closes)
  | _, _ => None
  end.

Lemma isOpenAt_closure a t day :
  flagshipClosure a day = true -> isOpenAt a t day = false.
Proof. unfold flagshipClosure, isOpenAt. intros ->. reflexivity. Qed.

Lemma isOpenAt_no_hours a t day :
  flagshipClosure a day = false -> statedHours a = None -> isOpenAt a t day = true.
Proof.
  unfold flagshipClosure, statedHours, isOpenAt. intros -> H.
  destruct (truthy_string (openTime a)); [|reflexivity].
  destruct (truthy_string (closeTime a)); [discriminate|reflexivity].
Qed.

Lemma isOpenAt_hours a t day opens closes openMin closeMin timeMin :
  flagshipClosure a day = false ->
  statedHours a = Some (opens, closes) ->
  timeToMinutes opens = Some openMin ->
  timeToMinutes closes = Some closeMin ->
  timeToMinutes t = Some timeMin ->
  isOpenAt a t day
  = if closeMin <? openMin
    then (openMin <=? timeMin) || (timeMin <=? closeMin)
    else (openMin <=? timeMin) && (timeMin <=? closeMin).
Proof.
  unfold flagshipClosure, statedHours, isOpenAt. intros -> H Ho Hc Ht.
  destruct (truthy_string (openTime a)) as [o|]; [|discriminate].
  destruct (truthy_string (closeTime a)) as [c|]; [|discriminate].
  injection H as -> ->. rewrite Ho, Hc, Ht. reflexivity.
Qed.

(** A venue that closes no earlier than it opens is open between the two. *)
Lemma isOpenAt_daytime a t day opens closes openMin closeMin timeMin :
  flagshipClosure a day = false ->
  statedHours a = Some (opens, closes) ->
  timeToMinutes opens = Some openMin ->
  timeToMinutes closes = Some closeMin ->
  timeToMinutes t = Some timeMin ->
  openMin <= closeMin ->
  (isOpenAt a t day = true <-> openMin <= timeMin <= closeMin).
Proof.
  intros Hf Hs Ho Hc Ht Hle.
  rewrite (isOpenAt_hours _ _ _ _ _ _ _ _ Hf Hs Ho Hc Ht).
  destruct (Z.ltb_spec closeMin openMin); [lia|].
  rewrite andb_true_iff, !Z.leb_le. reflexivity.
Qed.

(** C8.  The open-at check: the flagship closure (the club named Berghain,
    on a Monday) answers closed whatever the hours fields say, and comes
    first; otherwise an activity without stated hours is open at every
    time, and an activity whose close time is numerically earlier than its
    open time is open at [t] exactly when [t >= open] or [t <= close].  So a
    club open from 23:00 to 06:00 is open at 01:00 and closed at 12:00. *)
Theorem isOpenAt_rules (a : Activity) (t day : string) :
  (flagshipClosure a day = true -> isOpenAt a t day = false)
  /\
  (flagshipClosure a day = false ->
   (statedHours a = None -> isOpenAt a t day = true)
   /\
   (forall opens closes openMin closeMin timeMin,
      statedHours a = Some (opens, closes) ->
      timeToMinutes opens = Some openMin ->
      timeToMinutes closes = Some closeMin ->
      timeToMinutes t = Some timeMin ->
      closeMin < openMin ->
      (isOpenAt a t day = true <-> openMin <= timeMin \/ timeMin <= closeMin))
   /\
   (statedHours a = Some ("23:00", "06:00") ->
    isOpenAt a "01:00" day = true /\ isOpenAt a "12:00" day = false)).
Proof.
  split; [apply isOpenAt_closure|].
  intros Hf. split; [apply isOpenAt_no_hours; exact Hf|]. split.
  - intros opens closes openMin closeMin timeMin Hs Ho Hc Ht Hlt.
    rewrite (isOpenAt_hours _ _ _ _ _ _ _ _ Hf Hs Ho Hc Ht).
    destruct (Z.ltb_spec closeMin openMin); [|lia].
    rewrite orb_true_iff, !Z.leb_le. reflexivity.
  - intros Hs. split.
    + rewrite (isOpenAt_hours a "01:00" day "23:00" "06:00" 1380 360 60 Hf Hs);
        reflexivity.
    + rewrite (isOpenAt_hours a "12:00" day "23:00" "06:00" 1380 360 720 Hf Hs);
        reflexivity.
Qed.

End OpenHours.

Definition sampleActivity (n ty p : string) (hours : option (string * string))
  : DayPlanner.Activity :=
  {| DayPlanner.name := n; DayPlanner.type := ty; DayPlanner.address := "Mitte";
     DayPlanner.duration := 90; DayPlanner.price := p;
     DayPlanner.openTime := option_map fst hours;
     DayPlanner.closeTime := option_map snd hours;
     DayPlanner.booking := None; DayPlanner.needsReservation := None;
     DayPlanner.coordinates := None |}.

Definition nightClub : DayPlanner.Activity :=
  sampleActivity "Tresor" "club" "€15" (Some ("23:00", "06:00")).

Definition flagshipClub : DayPlanner.Activity :=
  sampleActivity "Berghain" "club" "€20" (Some ("00:00", "23:59")).

Lemma isOpenAt_rules_witness :
  DayPlanner.isOpenAt nightClub "01:00" "Tuesday" = true
  /\ DayPlanner.isOpenAt nightClub "12:00" "Tuesday" = false
  /\ DayPlanner.isOpenAt flagshipClub "12:00" "Monday" = false
  /\ DayPlanner.isOpenAt flagshipClub "12:00" "Tuesday" = true.
Proof.
  destruct (isOpenAt_rules nightClub "01:00" "Tuesday") as [_ Hn].
  destruct (Hn eq_refl) as (_ & _ & Hscenario).
  destruct (Hscenario eq_refl) as [H1 H12].
  destruct (isOpenAt_rules flagshipClub "12:00" "Monday") as [Hclosed _].
  split; [exact H1|]. split; [exact H12|]. split; [exact (Hclosed eq_refl)|].
  reflexivity.
Defined.

(** ** Scheduler: total cost *)

Section TotalCost.

Import DayPlanner.
Local Open Scope Z_scope.
Local Arguments String.append !s1 s2 : simpl nomatch.

(** *** The cost rule, in its own words *)

(** The ten digits, in the order of their values. *)
Definition digitCharacters : list ascii :=
  list_ascii_of_string "0123456789".

Fixpoint position (c : ascii) (cs : list ascii) : option nat :=
  match cs with
  | [] => None
  | d :: rest => if Ascii.eqb c d then Some O else option_map S (position c rest)
  end.

(** The value of a digit is its place among the ten. *)
Definition digitValue (c : ascii) : option Z :=
  option_map Z.of_nat (position c digitCharacters).

(** The number that a row of digits writes in base ten: every digit counts
    by its place. *)
Fixpoint decimal (ds : list Z) : Z :=
  match ds with
  | [] => 0
  | d :: rest => d * 10 ^ Z.of_nat (length rest) + decimal rest
  end.

(** [ds] are the values of the characters of [s], all of them digits. *)
Definition digitsOf (s : string) (ds : list Z) : Prop :=
  Forall2 (fun c d => digitValue c = Some d) (list_ascii_of_string s) ds.

(** [p] carries a euro amount right after the text [pre]: a euro sign
    directly followed by a digit. *)
Definition euroAmountAt (pre p : string) : Prop :=
  exists d post, p = (pre ++ "€" ++ String d post)%string /\ digitValue d <> None.

(** The price token of a price string, as the cost rule words it: the
    number written by the whole run of digits after the leftmost euro
    sign that is followed by a digit; a string with no such place has
    token 0. *)
Inductive PriceToken (p : string) : Z -> Prop :=
| token_absent :
    (forall pre, ~ euroAmountAt pre p) -> PriceToken p 0
| token_leftmost pre run rest ds :
    p = (pre ++ "€" ++ run ++ rest)%string ->
    run <> ""%string ->
    digitsOf run ds ->
    (forall c rest', rest = String c rest' -> digitValue c = None) ->
    (forall pre', euroAmountAt pre' p -> (String.length pre <= String.length pre')%nat) ->
    PriceToken p (decimal ds).

(** *** The pattern, as the code reads it *)

(** The place where the pattern of the code matches: a euro sign and a
    character that the code takes for a digit. *)
Definition euroDigitAt (pre p : string) : Prop :=
  exists d post, p = (pre ++ "€" ++ String d post)%string /\ is_digit d = true.

(** The token as the loop computes it. *)
Definition priceValue (p : string) : Z :=
  match priceMatch p with
  | Some ds => match parseInt ds with Some n => n | None => 0 end
  | None => 0
  end.

Definition sumZ (xs : list Z) : Z := fold_right Z.add 0 xs.

(** The attempt of the pattern at the very start of the string. *)
Definition euroHere (s : string) : option string :=
  match drop_prefix "€" s with
  | Some after =>
      match take_digits after with
      | EmptyString => None
      | ds => Some ds
      end
  | None => None
  end.

Lemma priceMatch_unfold s :
  priceMatch s
  = match euroHere s with
    | Some ds => Some ds
    | None => match s with
              | EmptyString => None
              | String _ rest => priceMatch rest
              end
    end.
Proof. destruct s; reflexivity. Qed.

Lemma drop_prefix_Some pfx s r :
  drop_prefix pfx s = Some r <-> s = (pfx ++ r)%string.
Proof.
  revert s. induction pfx as [|a pfx IH]; intros s; cbn.
  - split; intros H; congruence.
  - destruct s as [|b s]; [split; discriminate|].
    destruct (Ascii.eqb_spec a b) as [->|Hne].
    + rewrite IH. split; intros H; congruence.
    + split; [discriminate|]. intros H. injection H as H _. congruence.
Qed.

Lemma digit_run_starts d post :
  take_digits (String d post) <> ""%string -> is_digit d = true.
Proof. cbn. destruct (is_digit d); congruence. Qed.

Lemma digit_starts_run d post :
  is_digit d = true -> take_digits (String d post) <> ""%string.
Proof. cbn. intros ->. discriminate. Qed.

Lemma euroHere_Some s ds :
  euroHere s = Some ds <->
  exists after, s = ("€" ++ after)%string /\ take_digits after = ds /\ ds <> ""%string.
Proof.
  unfold euroHere. split.
  - destruct (drop_prefix "€" s) as [after|] eqn:E; [|discriminate].
    apply drop_prefix_Some in E. intros H. exists after.
    destruct (take_digits after) eqn:T; [discriminate|].
    injection H as <-. split; [exact E|]. split; [reflexivity|discriminate].
  - intros (after & -> & <- & Hne).
    assert (E : drop_prefix "€" ("€" ++ after) = Some after)
      by (apply drop_prefix_Some; reflexivity).
    rewrite E. destruct (take_digits after); [congruence|reflexivity].
Qed.

Lemma euroHere_None s :
  euroHere s = None <-> ~ euroDigitAt "" s.
Proof.
  split.
  - intros H (d & post & -> & Hd).
    assert (E : euroHere ("€" ++ String d post) = Some (take_digits (String d post))).
    { apply euroHere_Some. exists (String d post).
      split; [reflexivity|]. split; [reflexivity|]. apply digit_starts_run. exact Hd. }
    cbn [String.append] in H, E. congruence.
  - intros H. destruct (euroHere s) as [ds|] eqn:E; [|reflexivity].
    exfalso. apply H. apply euroHere_Some in E as (after & -> & <- & Hne).
    destruct after as [|d post]; [cbn in Hne; congruence|].
    exists d, post. split; [reflexivity|]. eapply digit_run_starts. exact Hne.
Qed.

Lemma euroDigitAt_cons c pre rest :
  euroDigitAt (String c pre) (String c rest) <-> euroDigitAt pre rest.
Proof.
  unfold euroDigitAt. split; intros (d & post & H & Hd); exists d, post; split; auto.
  - cbn [String.append] in H. injection H as ->. reflexivity.
  - subst rest. reflexivity.
Qed.

Lemma euroDigitAt_head c pre rest c' :
  euroDigitAt (String c' pre) (String c rest) -> c' = c.
Proof.
  intros (d & post & H & _). cbn [String.append] in H. injection H as -> _. reflexivity.
Qed.

Lemma priceMatch_None s :
  priceMatch s = None <-> forall pre, ~ euroDigitAt pre s.
Proof.
  induction s as [|c rest IH]; rewrite priceMatch_unfold.
  - split; [|reflexivity].
    intros _ pre (d & post & H & _). destruct pre; discriminate.
  - destruct (euroHere (String c rest)) as [ds|] eqn:E.
    + split; [discriminate|]. intros H. exfalso.
      assert (Hn : euroHere (String c rest) = None) by (apply euroHere_None, H).
      congruence.
    + rewrite IH. apply euroHere_None in E. split.
      * intros H [|c' pre] Hat; [exact (E Hat)|].
        pose proof (euroDigitAt_head _ _ _ _ Hat) as ->.
        apply euroDigitAt_cons in Hat. exact (H pre Hat).
      * intros H pre Hat. apply (H (String c pre)).
        apply euroDigitAt_cons. exact Hat.
Qed.

Lemma priceMatch_Some s ds :
  priceMatch s = Some ds ->
  exists pre after,
    s = (pre ++ "€" ++ after)%string
    /\ take_digits after = ds /\ ds <> ""%string
    /\ forall pre', euroDigitAt pre' s -> (String.length pre <= String.length pre')%nat.
Proof.
  induction s as [|c rest IH]; rewrite priceMatch_unfold.
  - cbn. discriminate.
  - destruct (euroHere (String c rest)) as [ds'|] eqn:E.
    + intros H. injection H as ->.
      apply euroHere_Some in E as (after & Hs & Ht & Hne).
      exists ""%string, after. split; [exact Hs|]. split; [exact Ht|].
      split; [exact Hne|]. intros pre' _. cbn. lia.
    + intros H. destruct (IH H) as (pre & after & Hs & Ht & Hne & Hleft).
      exists (String c pre), after. split; [subst rest; reflexivity|].
      split; [exact Ht|]. split; [exact Hne|].
      apply euroHere_None in E.
      intros [|c' pre'] Hat; [contradiction|].
      pose proof (euroDigitAt_head _ _ _ _ Hat) as ->.
      apply euroDigitAt_cons in Hat. specialize (Hleft _ Hat). cbn. lia.
Qed.

Lemma take_digits_idempotent s : take_digits (take_digits s) = take_digits s.
Proof.
  induction s as [|c rest IH]; [reflexivity|].
  cbn. destruct (is_digit c) eqn:E; [|reflexivity].
  cbn. rewrite E, IH. reflexivity.
Qed.

Lemma digits_value_take_digits s acc :
  0 <= acc -> exists n, digits_value acc (take_digits s) = Some n /\ 0 <= n.
Proof.
  revert acc. induction s as [|c rest IH]; intros acc Hacc; cbn.
  - eauto.
  - destruct (is_digit c) eqn:E; cbn; [|eauto].
    rewrite E. apply IH.
    unfold is_digit in E. apply andb_true_iff in E as [E _].
    apply Nat.leb_le in E. unfold digit_value. lia.
Qed.

Lemma parseInt_digit_run after :
  take_digits after <> ""%string ->
  parseInt (take_digits after) = digits_value 0 (take_digits after).
Proof.
  intros Hne. unfold parseInt. rewrite take_digits_idempotent.
  destruct (take_digits after); [congruence|reflexivity].
Qed.

(** *** The code's reading agrees with the rule *)

Lemma digitValue_code c :
  match digitValue c with
  | Some v => is_digit c = true /\ digit_value c = v
  | None => is_digit c = false
  end.
Proof.
  destruct c as [[] [] [] [] [] [] [] []]; cbn; try reflexivity; split; reflexivity.
Qed.

Lemma is_digit_digitValue c : is_digit c = true <-> digitValue c <> None.
Proof.
  pose proof (digitValue_code c) as H. destruct (digitValue c) as [v|].
  - split; [discriminate|]. intros _. apply H.
  - rewrite H. split; [discriminate|congruence].
Qed.

Lemma euroAmountAt_code pre p : euroAmountAt pre p <-> euroDigitAt pre p.
Proof.
  unfold euroAmountAt, euroDigitAt.
  split; intros (d & post & Hp & Hd); exists d, post; (split; [exact Hp|]);
    apply is_digit_digitValue; exact Hd.
Qed.


Lemma decimal_nonneg s ds : digitsOf s ds -> 0 <= decimal ds.
Proof.
  unfold digitsOf. intros H. induction H as [|c d cs ds Hc _ IH]; cbn [decimal]; [lia|].
  assert (0 <= d).
  { pose proof (digitValue_code c) as Hcode. rewrite Hc in Hcode.
    destruct Hcode as [Hdigit <-]. unfold is_digit in Hdigit.
    apply andb_true_iff in Hdigit as [Hlo _]. apply Nat.leb_le in Hlo.
    unfold digit_value. lia. }
  assert (0 <= 10 ^ Z.of_nat (length ds)) by (apply Z.pow_nonneg; lia).
  nia.
Qed.

(** The run of digits that the code takes from the start of a string is
    the longest one, and the code reads it in base ten. *)
Lemma take_digits_run s :
  exists rest ds,
    s = (take_digits s ++ rest)%string
    /\ digitsOf (take_digits s) ds
    /\ (forall c rest', rest = String c rest' -> digitValue c = None)
    /\ forall acc,
         digits_value acc (take_digits s)
         = Some (acc * 10 ^ Z.of_nat (length ds) + decimal ds).
Proof.
  induction s as [|c s IH].
  - exists ""%string, []. split; [reflexivity|]. split; [constructor|].
    split; [discriminate|]. intros acc. cbn. f_equal. lia.
  - pose proof (digitValue_code c) as Hcode. cbn [take_digits].
    destruct (digitValue c) as [v|] eqn:Hv.
    + destruct Hcode as [Hdigit Hvalue]. rewrite Hdigit.
      destruct IH as (rest & ds & Hs & Hds & Hrest & Hread).
      exists rest, (v :: ds). split; [|split; [|split]].
      * cbn [String.append]. rewrite <- Hs. reflexivity.
      * unfold digitsOf. cbn [list_ascii_of_string]. constructor; assumption.
      * exact Hrest.
      * intros acc. cbn [digits_value]. rewrite Hdigit, Hread, Hvalue. f_equal.
        cbn [length decimal]. rewrite Nat2Z.inj_succ, Z.pow_succ_r by lia. ring.
    + rewrite Hcode. exists (String c s), []. split; [reflexivity|].
      split; [constructor|]. split.
      * intros c' rest' H. injection H as <- _. exact Hv.
      * intros acc. cbn. f_equal. lia.
Qed.



(** The computed token is the token of the rule, and it is not negative. *)
Lemma priceValue_is_token p : PriceToken p (priceValue p) /\ 0 <= priceValue p.
Proof.
  unfold priceValue. destruct (priceMatch p) as [run|] eqn:E.
  - apply priceMatch_Some in E as (pre & after & Hs & <- & Hne & Hleft).
    rewrite (parseInt_digit_run _ Hne).
    destruct (take_digits_run after) as (rest & ds & Hafter & Hds & Hrest & Hread).
    rewrite Hread. replace (0 * 10 ^ Z.of_nat (length ds) + decimal ds) with (decimal ds) by lia.
    split; [|exact (decimal_nonneg _ _ Hds)].
    apply (token_leftmost p pre (take_digits after) rest ds).
    + rewrite <- Hafter. exact Hs.
    + exact Hne.
    + exact Hds.
    + exact Hrest.
    + intros pre' Hat. apply Hleft. apply euroAmountAt_code. exact Hat.
  - split; [|lia]. apply token_absent. intros pre Hat.
    apply euroAmountAt_code in Hat. revert pre Hat. apply priceMatch_None. exact E.
Qed.




Lemma addPrice_Some total slot :
  addPrice (Some total) slot = Some (total + priceValue (price (activity slot))).
Proof.
  unfold addPrice, priceValue. destruct (priceMatch _) as [ds|] eqn:E.
  - apply priceMatch_Some in E as (pre & after & _ & <- & Hne & _).
    rewrite (parseInt_digit_run _ Hne).
    destruct (digits_value_take_digits after 0 ltac:(lia)) as (n & -> & _).
    reflexivity.
  - f_equal. lia.
Qed.

Lemma fold_addPrice slots total :
  fold_left addPrice slots (Some total)
  = Some (total + sumZ (map (fun s => priceValue (price (activity s))) slots)).
Proof.
  revert total. induction slots as [|slot slots IH]; intros total; cbn [fold_left].
  - f_equal. unfold sumZ. cbn [map fold_right]. lia.
  - rewrite addPrice_Some, IH. f_equal. unfold sumZ. cbn [map fold_right]. lia.
Qed.


End TotalCost.

(** ** The array sort *)

Section SortFacts.

Context {A : Type} (cmp : A -> A -> Z).
Local Open Scope Z_scope.

Lemma sort_insert_perm x l : Permutation (sort_insert cmp x l) (x :: l).
Proof.
  induction l as [|y l IH]; cbn; [reflexivity|].
  destruct (cmp x y <=? 0); [reflexivity|].
  rewrite IH. apply perm_swap.
Qed.

Lemma sort_perm l : Permutation (sort cmp l) l.
Proof.
  induction l as [|x l IH]; cbn; [reflexivity|].
  rewrite sort_insert_perm. constructor. exact IH.
Qed.

(** When the comparator is the difference of a key, the result ascends in
    that key. *)
Variable key : A -> Z.

Definition ascending : list A -> Prop :=
  StronglySorted (fun a b => key a <= key b).

Lemma sort_insert_ascending x l :
  (forall b, In b l -> cmp x b = key x - key b) ->
  ascending l -> ascending (sort_insert cmp x l).
Proof.
  unfold ascending. intros Hcmp Hs.
  induction Hs as [|y l Hs IH Hall]; cbn.
  - constructor; constructor.
  - rewrite (Hcmp y) by (left; reflexivity).
    destruct (Z.leb_spec (key x - key y) 0) as [Hle|Hgt].
    + constructor; [constructor; assumption|].
      constructor; [lia|].
      eapply List.Forall_impl; [|exact Hall]. cbn. intros b Hb. lia.
    + constructor.
      * apply IH. intros b Hb. apply Hcmp. right. exact Hb.
      * eapply Permutation_Forall; [symmetry; apply sort_insert_perm|].
        constructor; [lia|exact Hall].
Qed.

Lemma sort_ascending l :
  (forall a b, In a l -> In b l -> cmp a b = key a - key b) ->
  ascending (sort cmp l).
Proof.
  induction l as [|x l IH]; intros Hcmp; cbn.
  - constructor.
  - apply sort_insert_ascending.
    + intros b Hb. apply Hcmp; [left; reflexivity|right].
      eapply Permutation_in; [apply sort_perm|exact Hb].
    + apply IH. intros a b Ha Hb. apply Hcmp; right; assumption.
Qed.

(** The first element of the result has the least key. *)
Lemma sort_head_least l first :
  (forall a b, In a l -> In b l -> cmp a b = key a - key b) ->
  head (sort cmp l) = Some first ->
  In first l /\ forall b, In b l -> key first <= key b.
Proof.
  intros Hcmp Hhead. pose proof (sort_ascending l Hcmp) as Hs.
  pose proof (sort_perm l) as Hp.
  destruct (sort cmp l) as [|y rest]; [discriminate|].
  injection Hhead as ->. split.
  - eapply Permutation_in; [exact Hp|left; reflexivity].
  - intros b Hb. apply Permutation_sym in Hp.
    apply (Permutation_in _ Hp) in Hb.
    apply StronglySorted_inv in Hs as [_ Hall].
    destruct Hb as [->|Hb]; [lia|].
    rewrite List.Forall_forall in Hall. apply Hall. exact Hb.
Qed.

Lemma sort_head_None l : head (sort cmp l) = None <-> l = [].
Proof.
  split.
  - intros H. destruct (sort cmp l) as [|y rest] eqn:E; [|discriminate].
    pose proof (sort_perm l) as Hp. rewrite E in Hp.
    apply Permutation_nil in Hp. exact Hp.
  - intros ->. reflexivity.
Qed.

End SortFacts.

(** ** Scheduler: the slots of a day plan *)

Section DayPlanFacts.

Import DayPlanner.
Local Open Scope Z_scope.

Variable getDayOfWeek : string -> string.
Variable shouldUseAffiliate : Activity -> option string.
Variable haversineDistance : Coordinates -> Coordinates -> Q.

Local Abbreviation dayPlan :=
  (createDayPlan getDayOfWeek shouldUseAffiliate haversineDistance).
Local Abbreviation placed := (placeSlots shouldUseAffiliate).

(** *** Selection *)

Lemma selectBestActivity_Some slotType acts prefs day t a :
  selectBestActivity slotType acts prefs day t = Some a ->
  In a acts
  /\ suitableFor slotType prefs day t a = true
  /\ forall b, In b acts -> suitableFor slotType prefs day t b = true ->
       scoreActivity b (interests prefs) <= scoreActivity a (interests prefs).
Proof.
  unfold selectBestActivity. intros H.
  pose proof (sort_head_least
                (fun x y => scoreActivity y (interests prefs)
                            - scoreActivity x (interests prefs))
                (fun x => - scoreActivity x (interests prefs))
                (List.filter (suitableFor slotType prefs day t) acts) a) as Hsort.
  destruct Hsort as [Hin Hleast]; [intros x y _ _; lia|exact H|].
  apply filter_In in Hin as [Hin Hsuit]. split; [exact Hin|]. split; [exact Hsuit|].
  intros b Hb Hbs. specialize (Hleast b). rewrite filter_In in Hleast.
  specialize (Hleast (conj Hb Hbs)). lia.
Qed.

Lemma selectBestActivity_None slotType acts prefs day t :
  selectBestActivity slotType acts prefs day t = None <->
  forall b, In b acts -> suitableFor slotType prefs day t b = false.
Proof.
  unfold selectBestActivity. rewrite sort_head_None. split.
  - intros H b Hb. destruct (suitableFor slotType prefs day t b) eqn:E; [|reflexivity].
    assert (Hin : In b (List.filter (suitableFor slotType prefs day t) acts))
      by (apply filter_In; split; assumption).
    rewrite H in Hin. destruct Hin.
  - intros H. induction acts as [|a acts IH]; [reflexivity|].
    cbn [List.filter]. rewrite (H a) by (left; reflexivity).
    apply IH. intros b Hb. apply H. right. exact Hb.
Qed.

(** *** The loop over the template, in closed form *)

(** What one template entry contributes when [planned] holds the times
    taken before the loop starts. *)
Definition generatedSlot (acts : list Activity) (prefs : Preferences) (day : string)
    (planned : gset string) (entry : TemplateSlot) : option TimeSlot :=
  if bool_decide (tpl_time entry ∈ planned) then None
  else option_map (createTimeSlot shouldUseAffiliate (tpl_time entry))
         (selectBestActivity (tpl_type entry) acts prefs day (tpl_time entry)).

Fixpoint generatedSlots (acts : list Activity) (prefs : Preferences) (day : string)
    (planned : gset string) (template : list TemplateSlot) : list TimeSlot :=
  match template with
  | [] => []
  | entry :: rest =>
      match generatedSlot acts prefs day planned entry with
      | Some slot => slot :: generatedSlots acts prefs day planned rest
      | None => generatedSlots acts prefs day planned rest
      end
  end.

Lemma generatedSlot_other acts prefs day planned t entry :
  tpl_time entry <> t ->
  generatedSlot acts prefs day ({[t]} ∪ planned) entry
  = generatedSlot acts prefs day planned entry.
Proof.
  intros Hne. unfold generatedSlot.
  assert (Heq : tpl_time entry ∈ {[t]} ∪ planned <-> tpl_time entry ∈ planned).
  { rewrite elem_of_union, elem_of_singleton. tauto. }
  rewrite (bool_decide_ext _ _ Heq). reflexivity.
Qed.

Lemma generatedSlots_other acts prefs day planned t template :
  ~ In t (map tpl_time template) ->
  generatedSlots acts prefs day ({[t]} ∪ planned) template
  = generatedSlots acts prefs day planned template.
Proof.
  induction template as [|entry rest IH]; intros Hnot; [reflexivity|].
  cbn [generatedSlots]. cbn [map In] in Hnot.
  rewrite generatedSlot_other by (intros E; apply Hnot; left; exact E).
  rewrite IH by (intros E; apply Hnot; right; exact E).
  reflexivity.
Qed.

Lemma fold_fillSlot acts prefs day template :
  List.NoDup (map tpl_time template) ->
  forall slots planned,
    fst (fold_left (fillSlot shouldUseAffiliate acts prefs day) template (slots, planned))
    = (slots ++ generatedSlots acts prefs day planned template)%list.
Proof.
  induction template as [|entry rest IH]; intros Hnd slots planned.
  - cbn. rewrite app_nil_r. reflexivity.
  - apply List.NoDup_cons_iff in Hnd as [Hnot Hnd].
    cbn [fold_left generatedSlots]. unfold fillSlot at 2, generatedSlot.
    destruct (bool_decide (tpl_time entry ∈ planned)); [apply IH; exact Hnd|].
    destruct (selectBestActivity _ _ _ _ _) as [a|]; cbn [option_map];
      [|apply IH; exact Hnd].
    rewrite (IH Hnd), generatedSlots_other by exact Hnot.
    rewrite <- app_assoc. reflexivity.
Qed.

Lemma template_times_distinct p : List.NoDup (map tpl_time (getScheduleTemplate p)).
Proof.
  apply NoDup_ListNoDup. destruct p; apply (bool_decide_unpack _); vm_compute; exact I.
Qed.

Definition fixedTimes (fixedBookings : list TimeSlot) : gset string :=
  list_to_set (map time fixedBookings).

Lemma placeSlots_closed_form day acts fixedBookings prefs :
  placed day acts fixedBookings prefs
  = (fixedBookings
     ++ generatedSlots acts prefs day (fixedTimes fixedBookings)
          (getScheduleTemplate (pace prefs)))%list.
Proof.
  unfold placeSlots. apply fold_fillSlot. apply template_times_distinct.
Qed.

Lemma generatedSlots_In acts prefs day planned template slot :
  In slot (generatedSlots acts prefs day planned template) <->
  exists entry,
    In entry template
    /\ (tpl_time entry ∉ planned)
    /\ exists a,
         selectBestActivity (tpl_type entry) acts prefs day (tpl_time entry) = Some a
         /\ slot = createTimeSlot shouldUseAffiliate (tpl_time entry) a.
Proof.
  induction template as [|entry rest IH]; cbn [generatedSlots In].
  - split; [contradiction|]. intros (entry & [] & _).
  - assert (Hgen : forall s,
              generatedSlot acts prefs day planned entry = Some s <->
              (tpl_time entry ∉ planned)
              /\ exists a,
                   selectBestActivity (tpl_type entry) acts prefs day (tpl_time entry)
                   = Some a
                   /\ s = createTimeSlot shouldUseAffiliate (tpl_time entry) a).
    { intros s. unfold generatedSlot. case_bool_decide as Hin.
      - split; [discriminate|]. intros [Hnot _]. contradiction.
      - destruct (selectBestActivity _ _ _ _ _) as [a|]; cbn [option_map].
        + split.
          * intros E. injection E as <-. split; [exact Hin|]. eauto.
          * intros (_ & a' & E & ->). congruence.
        + split; [discriminate|]. intros (_ & a' & E & _). discriminate. }
    destruct (generatedSlot acts prefs day planned entry) as [s|] eqn:E.
    + cbn [In]. rewrite IH. split.
      * intros [<-|(entry' & Hin & Hrest)].
        -- exists entry. split; [left; reflexivity|]. apply Hgen. reflexivity.
        -- exists entry'. split; [right; exact Hin|exact Hrest].
      * intros (entry' & [<-|Hin] & Hrest).
        -- left. apply Hgen in Hrest. congruence.
        -- right. exists entry'. split; assumption.
    + rewrite IH. split.
      * intros (entry' & Hin & Hrest). exists entry'. split; [right; exact Hin|exact Hrest].
      * intros (entry' & [<-|Hin] & Hrest).
        -- apply Hgen in Hrest. congruence.
        -- exists entry'. split; assumption.
Qed.

Lemma generatedSlots_times acts prefs day planned template :
  List.NoDup (map tpl_time template) ->
  List.NoDup (map time (generatedSlots acts prefs day planned template))
  /\ forall t, In t (map time (generatedSlots acts prefs day planned template)) ->
       In t (map tpl_time template) /\ t ∉ planned.
Proof.
  induction template as [|entry rest IH]; intros Hnd; cbn [generatedSlots map].
  - split; [constructor|]. intros t [].
  - apply List.NoDup_cons_iff in Hnd as [Hnot Hnd].
    destruct (IH Hnd) as [IHnd IHin].
    unfold generatedSlot. case_bool_decide as Hin.
    + split; [exact IHnd|]. intros t Ht. destruct (IHin t Ht). split; [right|]; assumption.
    + destruct (selectBestActivity _ _ _ _ _) as [a|]; cbn [option_map map In].
      * change (time (createTimeSlot shouldUseAffiliate (tpl_time entry) a))
          with (tpl_time entry).
        split.
        -- constructor; [|exact IHnd]. intros Hc. apply Hnot. apply (IHin _ Hc).
        -- intros t [<-|Ht]; [split; [left; reflexivity|exact Hin]|].
           destruct (IHin t Ht). split; [right|]; assumption.
      * split; [exact IHnd|]. intros t Ht. destruct (IHin t Ht).
        split; [right|]; assumption.
Qed.

(** *** Sorting and travel times *)

(** Two slots that differ at most in their travel time. *)
Definition sameBooking (s b : TimeSlot) : Prop :=
  time s = time b /\ activity s = activity b
  /\ affiliateLink s = affiliateLink b /\ tips s = tips b.

Lemma addTravelTimes_after_same from l :
  Forall2 sameBooking (addTravelTimes_after haversineDistance from l) l.
Proof.
  revert from. induction l as [|s l IH]; intros from; cbn; constructor.
  - repeat split.
  - apply IH.
Qed.

Lemma addTravelTimes_same l :
  Forall2 sameBooking (addTravelTimes haversineDistance l) l.
Proof.
  destruct l as [|s l]; cbn; constructor.
  - repeat split.
  - apply addTravelTimes_after_same.
Qed.

Lemma addTravelTimes_times l :
  map time (addTravelTimes haversineDistance l) = map time l.
Proof.
  induction (addTravelTimes_same l) as [|s b l' l [Ht _] _ IH]; cbn; [reflexivity|].
  rewrite Ht, IH. reflexivity.
Qed.

Lemma Forall2_In_l {X Y : Type} (R : X -> Y -> Prop) l l' x :
  Forall2 R l l' -> In x l -> exists y, In y l' /\ R x y.
Proof.
  induction 1 as [|a b l l' Hab _ IH]; cbn; [contradiction|].
  intros [<-|Hin]; [eauto|]. destruct (IH Hin) as (y & Hy & Hr). eauto.
Qed.

Lemma Forall2_In_r {X Y : Type} (R : X -> Y -> Prop) l l' y :
  Forall2 R l l' -> In y l' -> exists x, In x l /\ R x y.
Proof.
  induction 1 as [|a b l l' Hab _ IH]; cbn; [contradiction|].
  intros [<-|Hin]; [eauto|]. destruct (IH Hin) as (x & Hx & Hr). eauto.
Qed.

(** The slots of the plan are the placed slots, reordered, with travel
    times filled in. *)
Lemma plan_slot_placed date acts fixedBookings prefs s :
  In s (slots (dayPlan date acts fixedBookings prefs)) ->
  exists s0, In s0 (placed (getDayOfWeek date) acts fixedBookings prefs)
             /\ sameBooking s s0.
Proof.
  cbn [createDayPlan slots]. intros Hin.
  destruct (Forall2_In_l _ _ _ _ (addTravelTimes_same _) Hin) as (s0 & Hs0 & Hsame).
  exists s0. split; [|exact Hsame].
  eapply Permutation_in; [apply sort_perm|exact Hs0].
Qed.

Lemma placed_slot_plan date acts fixedBookings prefs s0 :
  In s0 (placed (getDayOfWeek date) acts fixedBookings prefs) ->
  exists s, In s (slots (dayPlan date acts fixedBookings prefs)) /\ sameBooking s s0.
Proof.
  cbn [createDayPlan slots]. intros Hin.
  apply (Forall2_In_r _ _ _ _ (addTravelTimes_same _)).
  eapply Permutation_in; [symmetry; apply sort_perm|exact Hin].
Qed.

Lemma fixedTimes_In fixedBookings t :
  t ∈ fixedTimes fixedBookings <-> In t (map time fixedBookings).
Proof. unfold fixedTimes. rewrite elem_of_list_to_set. apply list_elem_of_In. Qed.

(** *** Times of day *)

Definition parses (t : string) : Prop := timeToMinutes t <> None.

(** [s] is not later than [t], both read as minutes since midnight. *)
Definition timeLe (s t : string) : Prop :=
  num_le (timeToMinutes s) (timeToMinutes t) = true.

Definition minutesOf (s : TimeSlot) : Z :=
  match timeToMinutes (time s) with Some m => m | None => 0 end.

Lemma template_times_parse p :
  Forall (fun entry => parses (tpl_time entry)) (getScheduleTemplate p).
Proof.
  destruct p; cbn; repeat (apply List.Forall_cons; [discriminate|]); constructor.
Qed.

Lemma compareTimes_minutes a b :
  parses (time a) -> parses (time b) -> compareTimes a b = minutesOf a - minutesOf b.
Proof.
  unfold parses, compareTimes, minutesOf.
  destruct (timeToMinutes (time a)), (timeToMinutes (time b)); congruence.
Qed.

Lemma ascending_timeLe l :
  Forall (fun s => parses (time s)) l ->
  ascending minutesOf l -> StronglySorted timeLe (map time l).
Proof.
  unfold ascending. intros Hp Hs.
  induction Hs as [|s l Hs IH Hall]; cbn; constructor.
  - apply IH. apply List.Forall_inv_tail in Hp. exact Hp.
  - apply List.Forall_inv in Hp as Hps. apply List.Forall_inv_tail in Hp.
    apply List.Forall_map, List.Forall_forall. intros b Hb.
    rewrite List.Forall_forall in Hall, Hp.
    specialize (Hall b Hb). specialize (Hp b Hb).
    unfold timeLe, minutesOf, parses in *.
    destruct (timeToMinutes (time s)), (timeToMinutes (time b)); try congruence.
    cbn. apply Z.leb_le. exact Hall.
Qed.

Lemma sorted_slots_ascend l :
  Forall (fun s => parses (time s)) l ->
  StronglySorted timeLe (map time (sort compareTimes l)).
Proof.
  intros Hp. apply ascending_timeLe.
  - eapply Permutation_Forall; [symmetry; apply sort_perm|exact Hp].
  - apply sort_ascending. rewrite List.Forall_forall in Hp.
    intros a b Ha Hb. apply compareTimes_minutes; apply Hp; assumption.
Qed.

Lemma placed_times_parse day acts fixedBookings prefs :
  Forall (fun b => parses (time b)) fixedBookings ->
  Forall (fun s => parses (time s)) (placed day acts fixedBookings prefs).
Proof.
  intros Hp. rewrite placeSlots_closed_form. apply List.Forall_app. split; [exact Hp|].
  apply List.Forall_forall. intros s Hs.
  apply generatedSlots_In in Hs as (entry & Hin & _ & a & _ & ->). cbn [createTimeSlot time].
  pose proof (template_times_parse (pace prefs)) as Ht.
  rewrite List.Forall_forall in Ht. apply Ht. exact Hin.
Qed.

Lemma placed_times_distinct day acts fixedBookings prefs :
  List.NoDup (map time fixedBookings) ->
  List.NoDup (map time (placed day acts fixedBookings prefs)).
Proof.
  intros Hnd. rewrite placeSlots_closed_form, map_app.
  destruct (generatedSlots_times acts prefs day (fixedTimes fixedBookings) _
              (template_times_distinct (pace prefs))) as [Hgen Hin].
  apply NoDup_ListNoDup, NoDup_app. split; [apply NoDup_ListNoDup; exact Hnd|].
  split; [|apply NoDup_ListNoDup; exact Hgen].
  intros t Ht Hg. apply list_elem_of_In in Ht, Hg.
  destruct (Hin t Hg) as [_ Hnot]. apply Hnot. apply fixedTimes_In. exact Ht.
Qed.

(** *** Times written as the template writes them *)

(** The minute of the day that a time text names when it is written as
    two digits, a colon and two digits, the minutes below 60. *)
Definition clockMinutes (t : string) : option Z :=
  match t with
  | String h1 (String h2 (String sep (String m1 (String m2 EmptyString)))) =>
      match digitValue h1, digitValue h2, digitValue m1, digitValue m2 with
      | Some a, Some b, Some c, Some d =>
          if Ascii.eqb sep ":" && (c <? 6)
          then Some ((10 * a + b) * 60 + (10 * c + d))
          else None
      | _, _, _, _ => None
      end
  | _ => None
  end.

Definition clockText (t : string) : Prop := clockMinutes t <> None.

Lemma digitValue_range c v : digitValue c = Some v -> 0 <= v <= 9.
Proof.
  destruct c as [[] [] [] [] [] [] [] []]; cbn; intros H; try discriminate;
    injection H as <-; lia.
Qed.

Lemma digitValue_not_colon c v : digitValue c = Some v -> Ascii.eqb c ":" = false.
Proof.
  destruct c as [[] [] [] [] [] [] [] []]; cbn; intros H; try discriminate; reflexivity.
Qed.

Lemma digitValue_inj c c' v : digitValue c = Some v -> digitValue c' = Some v -> c = c'.
Proof.
  intros H H'.
  pose proof (digitValue_code c) as Hc. pose proof (digitValue_code c') as Hc'.
  rewrite H in Hc. rewrite H' in Hc'. destruct Hc as [_ Hv], Hc' as [_ Hv'].
  unfold digit_value in *.
  rewrite <- (ascii_nat_embedding c), <- (ascii_nat_embedding c'). f_equal. lia.
Qed.

Lemma Number_two_digits c1 c2 a b :
  digitValue c1 = Some a -> digitValue c2 = Some b ->
  Number (String c1 (String c2 "")) = Some (10 * a + b).
Proof.
  intros H1 H2.
  pose proof (digitValue_code c1) as Hc1. pose proof (digitValue_code c2) as Hc2.
  rewrite H1 in Hc1. rewrite H2 in Hc2. destruct Hc1 as [D1 V1], Hc2 as [D2 V2].
  unfold Number. cbn [digits_value]. rewrite D1, D2, V1, V2. f_equal; lia.
Qed.

(** The code reads such a text as that minute. *)
Lemma clockMinutes_timeToMinutes t m : clockMinutes t = Some m -> timeToMinutes t = Some m.
Proof.
  destruct t as [|h1 [|h2 [|sep [|m1 [|m2 [|x rest]]]]]]; try discriminate.
  cbn [clockMinutes].
  destruct (digitValue h1) as [a|] eqn:H1; [|discriminate].
  destruct (digitValue h2) as [b|] eqn:H2; [|discriminate].
  destruct (digitValue m1) as [c|] eqn:H3; [|discriminate].
  destruct (digitValue m2) as [d|] eqn:H4; [|discriminate].
  destruct (Ascii.eqb sep ":") eqn:Hsep; [|discriminate].
  destruct (c <? 6); [|discriminate]. cbn [andb]. intros H. injection H as <-.
  apply Ascii.eqb_eq in Hsep. subst sep.
  unfold timeToMinutes, split_colon. cbn [split_colon_aux].
  rewrite (digitValue_not_colon _ _ H1), (digitValue_not_colon _ _ H2),
          (digitValue_not_colon _ _ H3), (digitValue_not_colon _ _ H4).
  change (Ascii.eqb ":" ":") with true. cbn iota.
  change (("" ++ String h1 "") ++ String h2 "")%string with (String h1 (String h2 "")).
  change (("" ++ String m1 "") ++ String m2 "")%string with (String m1 (String m2 "")).
  cbn [map]. rewrite (Number_two_digits _ _ _ _ H1 H2), (Number_two_digits _ _ _ _ H3 H4).
  reflexivity.
Qed.

(** Two such texts that name the same minute are the same text. *)
Lemma clockMinutes_inj t1 t2 m :
  clockMinutes t1 = Some m -> clockMinutes t2 = Some m -> t1 = t2.
Proof.
  destruct t1 as [|h1 [|h2 [|sep [|m1 [|m2 [|x rest]]]]]]; try discriminate.
  destruct t2 as [|h1' [|h2' [|sep' [|m1' [|m2' [|x' rest']]]]]]; try discriminate.
  cbn [clockMinutes].
  destruct (digitValue h1) as [a|] eqn:H1; [|discriminate].
  destruct (digitValue h2) as [b|] eqn:H2; [|discriminate].
  destruct (digitValue m1) as [c|] eqn:H3; [|discriminate].
  destruct (digitValue m2) as [d|] eqn:H4; [|discriminate].
  destruct (digitValue h1') as [a'|] eqn:H1'; [|discriminate].
  destruct (digitValue h2') as [b'|] eqn:H2'; [|discriminate].
  destruct (digitValue m1') as [c'|] eqn:H3'; [|discriminate].
  destruct (digitValue m2') as [d'|] eqn:H4'; [|discriminate].
  destruct (Ascii.eqb sep ":") eqn:Hsep; [|discriminate].
  destruct (Ascii.eqb sep' ":") eqn:Hsep'; [|discriminate].
  destruct (c <? 6) eqn:Hc; [|discriminate].
  destruct (c' <? 6) eqn:Hc'; [|discriminate].
  cbn [andb]. intros H H'. injection H as <-. injection H' as H'.
  apply Ascii.eqb_eq in Hsep, Hsep'. apply Z.ltb_lt in Hc, Hc'.
  pose proof (digitValue_range _ _ H1). pose proof (digitValue_range _ _ H2).
  pose proof (digitValue_range _ _ H3). pose proof (digitValue_range _ _ H4).
  pose proof (digitValue_range _ _ H1'). pose proof (digitValue_range _ _ H2').
  pose proof (digitValue_range _ _ H3'). pose proof (digitValue_range _ _ H4').
  assert (a' = a /\ b' = b /\ c' = c /\ d' = d) as (-> & -> & -> & ->) by lia.
  rewrite (digitValue_inj _ _ _ H1 H1'), (digitValue_inj _ _ _ H2 H2'),
          (digitValue_inj _ _ _ H3 H3'), (digitValue_inj _ _ _ H4 H4').
  congruence.
Qed.

Lemma template_clockText p :
  Forall (fun entry => clockText (tpl_time entry)) (getScheduleTemplate p).
Proof.
  destruct p; cbn; repeat (apply List.Forall_cons; [discriminate|]); constructor.
Qed.

Lemma placed_clockText day acts fixedBookings prefs :
  Forall (fun b => clockText (time b)) fixedBookings ->
  Forall (fun s => clockText (time s)) (placed day acts fixedBookings prefs).
Proof.
  intros Hp. rewrite placeSlots_closed_form. apply List.Forall_app. split; [exact Hp|].
  apply List.Forall_forall. intros s Hs.
  apply generatedSlots_In in Hs as (entry & Hin & _ & a & _ & ->). cbn [createTimeSlot time].
  pose proof (template_clockText (pace prefs)) as Ht.
  rewrite List.Forall_forall in Ht. apply Ht. exact Hin.
Qed.

Lemma clock_minutes_distinct (times : list string) :
  Forall clockText times -> List.NoDup times -> List.NoDup (map timeToMinutes times).
Proof.
  intros Hclock Hnd. induction Hnd as [|t times Hnot _ IH]; cbn [map]; [constructor|].
  apply List.Forall_cons_iff in Hclock as [Ht Hrest].
  constructor; [|apply IH; exact Hrest].
  intros Hin. apply in_map_iff in Hin as (t' & Hsame & Hin').
  rewrite List.Forall_forall in Hrest. specialize (Hrest t' Hin').
  unfold clockText in Ht, Hrest.
  destruct (clockMinutes t) as [m|] eqn:E; [|congruence].
  destruct (clockMinutes t') as [m'|] eqn:E'; [|congruence].
  rewrite (clockMinutes_timeToMinutes _ _ E), (clockMinutes_timeToMinutes _ _ E') in Hsame.
  injection Hsame as ->. apply Hnot.
  rewrite (clockMinutes_inj _ _ _ E E'). exact Hin'.
Qed.

(** *** The day plan *)

(** C7, as the code has it.  Every fixed booking is in the plan with its
    time and activity, and no generated slot takes the time text of a
    fixed booking.  When the fixed bookings carry pairwise different time
    texts, no two slots of the plan carry the same time text; when, in
    addition, every fixed booking writes its time as the template does
    (two digits, a colon, two digits below 60), no two slots of the plan
    fall on the same minute of the day.  When the times of the fixed
    bookings read as hours and minutes, the slots of the plan are in
    non-decreasing order of time.  The planner compares time texts: it
    does not look for two fixed bookings at the same time, and a fixed
    booking at "9:30" does not keep the template from filling "09:30". *)
Theorem createDayPlan_slot_times date acts fixedBookings prefs :
  let plan := dayPlan date acts fixedBookings prefs in
  (forall b, In b fixedBookings -> exists s, In s (slots plan) /\ sameBooking s b)
  /\ (forall s, In s (slots plan) ->
        (exists b, In b fixedBookings /\ sameBooking s b)
        \/ ~ In (time s) (map time fixedBookings))
  /\ (List.NoDup (map time fixedBookings) -> List.NoDup (map time (slots plan)))
  /\ (Forall (fun b => parses (time b)) fixedBookings ->
      StronglySorted timeLe (map time (slots plan)))
  /\ (Forall (fun b => clockText (time b)) fixedBookings ->
      List.NoDup (map time fixedBookings) ->
      List.NoDup (map (fun s => timeToMinutes (time s)) (slots plan))).
Proof.
  intros plan. subst plan. split; [|split; [|split; [|split]]].
  - intros b Hb. apply placed_slot_plan.
    rewrite placeSlots_closed_form. apply in_or_app. left. exact Hb.
  - intros s Hs. apply plan_slot_placed in Hs as (s0 & Hs0 & Hsame).
    rewrite placeSlots_closed_form in Hs0. apply in_app_or in Hs0 as [Hfix|Hgen].
    + left. exists s0. split; assumption.
    + right. apply generatedSlots_In in Hgen as (entry & _ & Hnot & a & _ & ->).
      destruct Hsame as [-> _]. cbn [createTimeSlot time].
      intros Hin. apply Hnot, fixedTimes_In. exact Hin.
  - intros Hnd. cbn [createDayPlan slots]. rewrite addTravelTimes_times.
    eapply Permutation_NoDup.
    + apply Permutation_map. symmetry. apply sort_perm.
    + apply placed_times_distinct. exact Hnd.
  - intros Hp. cbn [createDayPlan slots]. rewrite addTravelTimes_times.
    apply sorted_slots_ascend. apply placed_times_parse. exact Hp.
  - intros Hclock Hnd. cbn [createDayPlan slots].
    rewrite <- (List.map_map time timeToMinutes), addTravelTimes_times.
    apply clock_minutes_distinct.
    + apply List.Forall_map.
      eapply Permutation_Forall; [symmetry; apply sort_perm|].
      apply placed_clockText. exact Hclock.
    + eapply Permutation_NoDup.
      * apply Permutation_map. symmetry. apply sort_perm.
      * apply placed_times_distinct. exact Hnd.
Qed.

(** C9, as the code has it.  Every slot of the plan is a fixed booking or
    fills a template entry whose time no fixed booking takes, and every
    such entry that has a suitable activity is filled.  The activity of a
    generated slot is the best match among all available activities: it
    is suitable for the entry and no suitable activity scores higher.
    Activities placed in earlier slots stay eligible, so one activity may
    fill several slots. *)
Theorem createDayPlan_generated_slots date acts fixedBookings prefs :
  let day := getDayOfWeek date in
  let plan := dayPlan date acts fixedBookings prefs in
  (forall s, In s (slots plan) ->
     (exists b, In b fixedBookings /\ sameBooking s b)
     \/ (exists entry,
           In entry (getScheduleTemplate (pace prefs))
           /\ ~ In (tpl_time entry) (map time fixedBookings)
           /\ time s = tpl_time entry
           /\ selectBestActivity (tpl_type entry) acts prefs day (tpl_time entry)
              = Some (activity s)))
  /\ (forall entry a,
        In entry (getScheduleTemplate (pace prefs)) ->
        ~ In (tpl_time entry) (map time fixedBookings) ->
        selectBestActivity (tpl_type entry) acts prefs day (tpl_time entry) = Some a ->
        exists s, In s (slots plan) /\ time s = tpl_time entry /\ activity s = a)
  /\ (forall slotType t a,
        selectBestActivity slotType acts prefs day t = Some a ->
        In a acts
        /\ suitableFor slotType prefs day t a = true
        /\ forall b, In b acts -> suitableFor slotType prefs day t b = true ->
             scoreActivity b (interests prefs) <= scoreActivity a (interests prefs)).
Proof.
  intros day plan. subst day plan. split; [|split].
  - intros s Hs. apply plan_slot_placed in Hs as (s0 & Hs0 & Hsame).
    rewrite placeSlots_closed_form in Hs0. apply in_app_or in Hs0 as [Hfix|Hgen].
    + left. exists s0. split; assumption.
    + right. apply generatedSlots_In in Hgen as (entry & Hin & Hnot & a & Hsel & ->).
      destruct Hsame as (Ht & Ha & _). cbn [createTimeSlot time activity] in Ht, Ha.
      exists entry. split; [exact Hin|]. split.
      * intros Hfix. apply Hnot, fixedTimes_In. exact Hfix.
      * split; [exact Ht|]. rewrite Ha. exact Hsel.
  - intros entry a Hin Hnot Hsel.
    destruct (placed_slot_plan date acts fixedBookings prefs
                (createTimeSlot shouldUseAffiliate (tpl_time entry) a))
      as (s & Hs & Ht & Ha & _).
    + rewrite placeSlots_closed_form. apply in_or_app. right.
      apply generatedSlots_In. exists entry. split; [exact Hin|]. split.
      * intros Hfix. apply Hnot, fixedTimes_In. exact Hfix.
      * exists a. split; [exact Hsel|reflexivity].
    + exists s. split; [exact Hs|]. split; assumption.
  - intros slotType t a. apply selectBestActivity_Some.
Qed.

End DayPlanFacts.

(** *** Two concrete days *)

Definition museum : DayPlanner.Activity :=
  sampleActivity "Pergamon Museum" "museum" "€12" None.

Definition cafe : DayPlanner.Activity :=
  sampleActivity "Five Elephant" "cafe" "€5" (Some ("08:00", "18:00")).

Definition fixedAt (t : string) (a : DayPlanner.Activity) : DayPlanner.TimeSlot :=
  {| DayPlanner.time := t; DayPlanner.activity := a; DayPlanner.travelTime := None;
     DayPlanner.affiliateLink := None; DayPlanner.tips := None |}.

Definition relaxedDay : DayPlanner.Preferences :=
  {| DayPlanner.pace := DayPlanner.relaxed; DayPlanner.budget := DayPlanner.high;
     DayPlanner.interests := ["museum"]; DayPlanner.groupType := DayPlanner.solo |}.

(** A Tuesday, with no affiliate links and a flat 2 km between coordinates. *)
Definition samplePlan (acts : list DayPlanner.Activity)
    (fixedBookings : list DayPlanner.TimeSlot) : DayPlanner.DayPlan :=
  DayPlanner.createDayPlan (fun _ => "Tuesday") (fun _ => None) (fun _ _ => 2%Q)
    "2024-01-02" acts fixedBookings relaxedDay.

Definition slotSummary (s : DayPlanner.TimeSlot) : string * string :=
  (DayPlanner.time s, DayPlanner.name (DayPlanner.activity s)).

(** C7 fails at this input: two fixed bookings at 10:00 are both in the
    plan, at 10:00. *)
Lemma createDayPlan_two_bookings_same_time :
  map slotSummary
    (DayPlanner.slots (samplePlan [] [fixedAt "10:00" museum; fixedAt "10:00" cafe]))
  = [("10:00", "Pergamon Museum"); ("10:00", "Five Elephant")]
  /\ ~ List.NoDup
        (map DayPlanner.time
           (DayPlanner.slots
              (samplePlan [] [fixedAt "10:00" museum; fixedAt "10:00" cafe]))).
Proof.
  split; [reflexivity|].
  intros H. apply List.NoDup_cons_iff in H as [Hnot _].
  apply Hnot. left. reflexivity.
Qed.

(** C9 fails at this input: one museum on offer fills all three activity
    slots of a relaxed day. *)
Lemma createDayPlan_reuses_activity :
  map slotSummary (DayPlanner.slots (samplePlan [museum] []))
  = [("11:00", "Pergamon Museum"); ("15:30", "Pergamon Museum");
     ("22:00", "Pergamon Museum")].
Proof. reflexivity. Qed.

(** The same minute under two time texts: a fixed booking at "9:30" does
    not keep the template from filling "09:30", although the fixed
    booking has a time text of its own that reads as a time of day. *)
Example createDayPlan_same_minute_two_texts :
  map (fun s => (slotSummary s, DayPlanner.timeToMinutes (DayPlanner.time s)))
    (DayPlanner.slots (samplePlan [cafe] [fixedAt "9:30" museum]))
  = [ (("9:30", "Pergamon Museum"), Some 570%Z);
      (("09:30", "Five Elephant"), Some 570%Z);
      (("11:00", "Five Elephant"), Some 660%Z);
      (("15:30", "Five Elephant"), Some 930%Z);
      (("17:30", "Five Elephant"), Some 1050%Z) ]
  /\ ~ clockText "9:30".
Proof. split; [reflexivity|]. intros H. apply H. reflexivity. Qed.

Lemma createDayPlan_slot_times_witness :
  map slotSummary
    (DayPlanner.slots (samplePlan [museum; cafe] [fixedAt "09:30" cafe]))
  = [("09:30", "Five Elephant"); ("11:00", "Pergamon Museum");
     ("15:30", "Pergamon Museum"); ("17:30", "Five Elephant");
     ("22:00", "Pergamon Museum")]
  /\ List.NoDup
       (map DayPlanner.time
          (DayPlanner.slots (samplePlan [museum; cafe] [fixedAt "09:30" cafe])))
  /\ StronglySorted timeLe
       (map DayPlanner.time
          (DayPlanner.slots (samplePlan [museum; cafe] [fixedAt "09:30" cafe])))
  /\ List.NoDup
       (map (fun s => DayPlanner.timeToMinutes (DayPlanner.time s))
          (DayPlanner.slots (samplePlan [museum; cafe] [fixedAt "09:30" cafe]))).
Proof.
  split; [reflexivity|].
  destruct (createDayPlan_slot_times (fun _ => "Tuesday") (fun _ => None) (fun _ _ => 2%Q)
              "2024-01-02" [museum; cafe] [fixedAt "09:30" cafe] relaxedDay)
    as (_ & _ & Hnd & Hsorted & Hminutes).
  split; [|split].
  - apply Hnd. cbn. constructor; [intros []|constructor].
  - apply Hsorted. constructor; [discriminate|constructor].
  - apply Hminutes.
    + constructor; [discriminate|constructor].
    + cbn. constructor; [intros []|constructor].
Defined.

Lemma createDayPlan_generated_slots_witness :
  exists s,
    In s (DayPlanner.slots (samplePlan [museum; cafe] []))
    /\ DayPlanner.time s = "09:30"
    /\ DayPlanner.activity s = cafe.
Proof.
  destruct (createDayPlan_generated_slots (fun _ => "Tuesday") (fun _ => None)
              (fun _ _ => 2%Q) "2024-01-02" [museum; cafe] [] relaxedDay)
    as (_ & Hfilled & _).
  apply (Hfilled (DayPlanner.at_ "09:30" "breakfast") cafe).
  - left. reflexivity.
  - intros [].
  - reflexivity.
Defined.

(** ** Fusion: venues of the retrieved patterns *)

Section Fusion.

Import DualRAGSystem.
Local Arguments String.append !s1 s2 : simpl nomatch.

Variable contextCompletion :
  TravelIntent -> list Venue -> list string -> string -> outcome (option string).

(** Deduplication under any key, first occurrence kept. *)
Fixpoint dedupBy {K : Type} `{Countable K} (key : Venue -> K) (seen : gset K)
    (vs : list Venue) : list Venue :=
  match vs with
  | [] => []
  | v :: rest =>
      if bool_decide (key v ∈ seen) then dedupBy key seen rest
      else v :: dedupBy key ({[key v]} ∪ seen) rest
  end.

(** The identity of a venue in the data model: the pair of its lower-cased
    name and its type. *)
Definition nameAndType (v : Venue) : string * string :=
  (toLowerCase (Types.name v), Types.type v).

Definition deduplicateByNameAndType (vs : list Venue) : list Venue :=
  dedupBy nameAndType ∅ vs.

Lemma deduplicateVenues_from_dedupBy seen vs :
  deduplicateVenues_from seen vs = dedupBy venueKey seen vs.
Proof.
  revert seen. induction vs as [|v rest IH]; intros seen; cbn; [reflexivity|].
  rewrite !IH. reflexivity.
Qed.

Lemma dedupBy_agree {K1 K2 : Type} `{Countable K1} `{Countable K2}
    (key1 : Venue -> K1) (key2 : Venue -> K2) (vs : list Venue) :
  (forall a b, In a vs -> In b vs -> (key1 a = key1 b <-> key2 a = key2 b)) ->
  forall seen1 seen2,
    (forall a, In a vs -> (key1 a ∈ seen1 <-> key2 a ∈ seen2)) ->
    dedupBy key1 seen1 vs = dedupBy key2 seen2 vs.
Proof.
  induction vs as [|v rest IH]; intros Hkeys seen1 seen2 Hseen; cbn; [reflexivity|].
  rewrite (bool_decide_ext _ _ (Hseen v (or_introl eq_refl))).
  assert (Hrest : forall a b, In a rest -> In b rest ->
                    (key1 a = key1 b <-> key2 a = key2 b)).
  { intros a b Ha Hb. apply Hkeys; right; assumption. }
  destruct (bool_decide (key2 v ∈ seen2)).
  - apply IH; [exact Hrest|]. intros a Ha. apply Hseen. right. exact Ha.
  - f_equal. apply IH; [exact Hrest|]. intros a Ha.
    rewrite !elem_of_union, !elem_of_singleton.
    rewrite (Hkeys a v (or_intror Ha) (or_introl eq_refl)).
    rewrite (Hseen a (or_intror Ha)). reflexivity.
Qed.

(** *** When the string key identifies the pair *)

Definition underscore : ascii := "_"%char.

Fixpoint hasUnderscore (s : string) : bool :=
  match s with
  | EmptyString => false
  | String c rest => Ascii.eqb c underscore || hasUnderscore rest
  end.

Lemma lower_ascii_underscore c :
  Ascii.eqb (lower_ascii c) underscore = Ascii.eqb c underscore.
Proof. destruct c as [[] [] [] [] [] [] [] []]; reflexivity. Qed.

Lemma toLowerCase_hasUnderscore s : hasUnderscore (toLowerCase s) = hasUnderscore s.
Proof.
  induction s as [|c rest IH]; cbn; [reflexivity|].
  rewrite lower_ascii_underscore, IH. reflexivity.
Qed.

Lemma joined_key_inj (n1 n2 t1 t2 : string) :
  hasUnderscore n1 = false -> hasUnderscore n2 = false ->
  (n1 ++ "_" ++ t1)%string = (n2 ++ "_" ++ t2)%string ->
  n1 = n2 /\ t1 = t2.
Proof.
  revert n2. induction n1 as [|c n1 IH]; intros [|c2 n2] H1 H2 E;
    cbn [String.append] in E.
  - injection E as E. cbn [String.append] in E. subst t2. split; reflexivity.
  - injection E as <- _. cbn in H2. discriminate.
  - injection E as -> _. cbn in H1. discriminate.
  - injection E as -> E. cbn in H1, H2.
    apply orb_false_iff in H1 as [_ H1]. apply orb_false_iff in H2 as [_ H2].
    destruct (IH n2 H1 H2 E) as [-> ->]. split; reflexivity.
Qed.

Lemma venueKey_nameAndType a b :
  hasUnderscore (Types.name a) = false ->
  hasUnderscore (Types.name b) = false ->
  (venueKey a = venueKey b <-> nameAndType a = nameAndType b).
Proof.
  intros Ha Hb. unfold venueKey, nameAndType. split.
  - intros E. apply joined_key_inj in E as [-> ->];
      [reflexivity|rewrite toLowerCase_hasUnderscore; assumption..].
  - intros E. injection E as -> ->. reflexivity.
Qed.

(** Among venues whose names hold no underscore, the string key compares
    exactly the lower-cased name and the type. *)
Lemma deduplicateVenues_by_name_and_type vs :
  Forall (fun v => hasUnderscore (Types.name v) = false) vs ->
  deduplicateVenues vs = deduplicateByNameAndType vs.
Proof.
  intros Hall. unfold deduplicateVenues, deduplicateByNameAndType.
  rewrite deduplicateVenues_from_dedupBy. rewrite List.Forall_forall in Hall.
  apply dedupBy_agree.
  - intros a b Ha Hb. apply venueKey_nameAndType; apply Hall; assumption.
  - intros a _. rewrite !elem_of_empty. reflexivity.
Qed.

(** *** The recommendation built from the patterns *)

Definition patternOf (r : RAGResult) : option SuccessPattern :=
  match content r with
  | success_pattern p => Some p
  | language_pattern _ => None
  end.

Definition tipsOf (p : SuccessPattern) : list string :=
  match localInsights (metadata p) with Some tips => tips | None => [] end.

Lemma collectVenuesAndTips_success (patterns : list RAGResult) (ps : list SuccessPattern) :
  map patternOf patterns = map Some ps ->
  collectVenuesAndTips patterns
  = Returned (concat (map venues ps), concat (map tipsOf ps)).
Proof.
  revert ps. induction patterns as [|r rest IH]; intros [|p ps] E; try discriminate.
  - reflexivity.
  - cbn [map] in E. injection E as Hr Hrest.
    cbn [collectVenuesAndTips]. unfold patternVenuesAndTips.
    unfold patternOf in Hr. destruct (content r) as [p'|]; [|discriminate].
    injection Hr as ->. cbn [bind]. rewrite (IH _ Hrest). reflexivity.
Qed.

(** What the fusion does with a non-empty list of retrieved success
    patterns: the venues of the first three, deduplicated under
    [venueKey] in order, five as the primary list and the next three as
    alternatives; the tips of the same patterns without repetition, five
    at most. *)
Lemma generateRecommendations_fuses intent (patterns : list RAGResult)
    (ps : list SuccessPattern) originalQuery :
  patterns <> [] ->
  map patternOf patterns = map Some ps ->
  exists r,
    generateRecommendations contextCompletion intent patterns originalQuery = Returned r
    /\ rec_venues r
       = firstn 5 (deduplicateVenues (concat (map venues (firstn 3 ps))))
    /\ alternatives r
       = firstn 3 (skipn 5 (deduplicateVenues (concat (map venues (firstn 3 ps)))))
    /\ localTips r = firstn 5 (set_spread (concat (map tipsOf (firstn 3 ps))))
    /\ (length (rec_venues r) <= 5)%nat
    /\ (length (alternatives r) <= 3)%nat
    /\ (length (localTips r) <= 5)%nat.
Proof.
  intros Hne Hps. unfold generateRecommendations.
  destruct patterns as [|r0 rest]; [congruence|]. cbn [length Nat.eqb].
  assert (Htop : map patternOf (slice 0 3 (r0 :: rest)) = map Some (firstn 3 ps)).
  { unfold slice. cbn [skipn Nat.sub]. rewrite <- !firstn_map, Hps. reflexivity. }
  rewrite (collectVenuesAndTips_success _ _ Htop). cbn [bind].
  eexists. split; [reflexivity|]. cbn [rec_venues alternatives localTips].
  unfold slice. cbn [skipn Nat.sub].
  repeat split; try apply firstn_le_length.
Qed.

End Fusion.

(** *** A collision of the string key *)

Definition venueOf (n ty : string) : Venue :=
  {| Types.name := n; Types.type := ty; Types.address := None; priceRange := "€5-20";
     bookingMethod := "walk-in"; rating := 4; specialNotes := [] |}.

Definition streetMarket : Venue := venueOf "Street" "food_market".
Definition streetFoodHall : Venue := venueOf "Street_Food" "market".

Definition marketHit : RAGResult :=
  {| content := success_pattern (sampleSuccessPattern [streetMarket; streetFoodHall]);
     confidence := 8 # 10; source := "curated" |}.

Definition sampleIntent : TravelIntent :=
  {| destination := "berlin"; dates := None; interests := ["food"];
     budgetTier := "low"; groupType := "solo"; pace := "moderate";
     originalText := "cheap food berlin"; ti_confidence := 8 # 10 |}.

(** C4, at a collision of the string key.  Two venues that differ in name
    and in type share the key "street_food_market": the fusion drops the
    second one, although the pair of lower-cased name and type tells them
    apart and deduplication under that pair keeps both. *)
Lemma generateRecommendations_key_collision :
  nameAndType streetMarket <> nameAndType streetFoodHall
  /\ map Types.name (deduplicateByNameAndType [streetMarket; streetFoodHall])
     = ["Street"; "Street_Food"]
  /\ DualRAGSystem.venueKey streetMarket = DualRAGSystem.venueKey streetFoodHall
  /\ exists r,
       DualRAGSystem.generateRecommendations (fun _ _ _ _ => Returned (Some "Good picks."))
         sampleIntent [marketHit] "cheap food berlin"
       = Returned r
       /\ map Types.name (rec_venues r) = ["Street"]
       /\ alternatives r = [].
Proof.
  split; [discriminate|]. split; [reflexivity|]. split; [reflexivity|].
  eexists. split; [reflexivity|]. split; reflexivity.
Qed.

(** ** Worked examples *)

Example timeToMinutes_examples :
  DayPlanner.timeToMinutes "09:30" = Some 570%Z
  /\ DayPlanner.timeToMinutes "23:00" = Some 1380%Z
  /\ DayPlanner.timeToMinutes "02:00" = Some 120%Z
  /\ DayPlanner.timeToMinutes "noon" = None
  /\ DayPlanner.timeToMinutes "12" = None.
Proof. repeat split. Qed.

Example priceMatch_examples :
  DayPlanner.priceMatch "€5-20" = Some "5"
  /\ DayPlanner.priceMatch "from €12.50 per person" = Some "12"
  /\ DayPlanner.priceMatch "€ 5, or €77 at the door" = Some "77"
  /\ DayPlanner.priceMatch "$20" = None
  /\ DayPlanner.priceMatch "Free" = None
  /\ DayPlanner.priceMatch "" = None.
Proof. repeat split. Qed.

Example calculateTotalCost_example :
  DayPlanner.calculateTotalCost
    [ fixedAt "09:30" (sampleActivity "Cafe" "cafe" "€5" None);
      fixedAt "11:00" (sampleActivity "Gallery" "museum" "$20" None);
      fixedAt "13:30" (sampleActivity "Park" "park" "Free" None);
      fixedAt "19:30" (sampleActivity "Dinner" "restaurant" "€15-30" None) ]
  = "€20".
Proof. reflexivity. Qed.



Example mergeArrays_example :
  IntentExtractor.mergeArrays (Some ["clubs"; "food"]) (Some ["food"; "techno"; "clubs"])
  = ["clubs"; "food"; "techno"].
Proof. reflexivity. Qed.

Definition hitWithScore (c : Q) : RAGResult :=
  {| content := success_pattern (sampleSuccessPattern []); confidence := c;
     source := "curated" |}.

Example calculateRecommendationConfidence_example :
  (DualRAGSystem.calculateRecommendationConfidence
     [hitWithScore (8 # 10); hitWithScore (6 # 10)]
     [streetMarket; streetFoodHall; venueOf "Tresor" "club"]
   == 82 # 100)%Q.
Proof. reflexivity. Qed.

Example calculateOverallConfidence_example :
  (DualRAGSystem.calculateOverallConfidence sampleIntent []
     (DualRAGSystem.generateFallbackRecommendations sampleIntent)
   == 45 # 100)%Q.
Proof. reflexivity. Qed.

Example fallback_reasoning_example :
  reasoning
    (DualRAGSystem.generateFallbackRecommendations
       {| destination := "antarctica"; dates := None;
          interests := ["vegan ice cream"]; budgetTier := "medium";
          groupType := "solo"; pace := "moderate";
          originalText := "vegan ice cream antarctica"; ti_confidence := 5 # 10 |})
  = "I don't have specific success patterns for antarctica yet, but this is a popular choice for vegan ice cream enthusiasts.".
Proof. reflexivity. Qed.

Example deduplicateVenues_example :
  map Types.name
    (DualRAGSystem.deduplicateVenues
       [venueOf "Berghain" "club"; venueOf "BERGHAIN" "club"; venueOf "Berghain" "bar"])
  = ["Berghain"; "Berghain"].
Proof. reflexivity. Qed.

Example selectBestActivity_example :
  DayPlanner.selectBestActivity "morning_activity" [cafe; museum] relaxedDay
    "Tuesday" "11:00"
  = Some museum.
Proof. reflexivity. Qed.

(* ===================================================================== *)
(** * Further properties of the fusion engine                             *)
(* ===================================================================== *)

Section DeduplicationFacts.

Import DualRAGSystem.

Lemma deduplicateVenues_from_keys seen vs :
  List.NoDup (map venueKey (deduplicateVenues_from seen vs))
  /\ forall v, In v (deduplicateVenues_from seen vs) -> venueKey v ∉ seen.
Proof.
  revert seen. induction vs as [|v rest IH]; intros seen; cbn [deduplicateVenues_from].
  - split; [constructor|]. intros v [].
  - case_bool_decide as Hseen; [apply IH|].
    destruct (IH ({[venueKey v]} ∪ seen)) as [Hnd Hfresh]. split.
    + cbn [map]. constructor; [|exact Hnd].
      intros Hin. apply in_map_iff in Hin as (w & Hk & Hw).
      apply (Hfresh w Hw). rewrite Hk. apply elem_of_union_l, elem_of_singleton.
      reflexivity.
    + intros w [<-|Hw]; [exact Hseen|].
      intros Hs. apply (Hfresh w Hw). apply elem_of_union_r. exact Hs.
Qed.

Lemma deduplicateVenues_from_fixed seen vs :
  List.NoDup (map venueKey vs) ->
  (forall v, In v vs -> venueKey v ∉ seen) ->
  deduplicateVenues_from seen vs = vs.
Proof.
  revert seen. induction vs as [|v rest IH]; intros seen Hnd Hfresh; [reflexivity|].
  cbn [deduplicateVenues_from map] in *.
  apply List.NoDup_cons_iff in Hnd as [Hnot Hnd].
  rewrite bool_decide_eq_false_2 by (apply Hfresh; left; reflexivity).
  f_equal. apply IH; [exact Hnd|].
  intros w Hw. rewrite elem_of_union, elem_of_singleton. intros [Hk|Hs].
  - apply Hnot. rewrite <- Hk. apply in_map. exact Hw.
  - apply (Hfresh w); [right; exact Hw|exact Hs].
Qed.

Lemma deduplicateVenues_from_sublist seen vs :
  sublist (deduplicateVenues_from seen vs) vs.
Proof.
  revert seen. induction vs as [|v rest IH]; intros seen; cbn [deduplicateVenues_from].
  - constructor.
  - case_bool_decide; [apply sublist_cons|apply sublist_skip]; apply IH.
Qed.

Lemma deduplicateVenues_from_covers seen vs v :
  In v vs ->
  venueKey v ∈ seen \/ In (venueKey v) (map venueKey (deduplicateVenues_from seen vs)).
Proof.
  revert seen. induction vs as [|w rest IH]; intros seen Hin; [destruct Hin|].
  cbn [deduplicateVenues_from]. destruct Hin as [->|Hin].
  - case_bool_decide as Hseen; [left; exact Hseen|]. right. left. reflexivity.
  - case_bool_decide as Hseen; [apply IH; exact Hin|].
    destruct (IH ({[venueKey w]} ∪ seen) Hin) as [Hs|Hr].
    + apply elem_of_union in Hs as [Hw|Hs]; [|left; exact Hs].
      apply elem_of_singleton in Hw. right. left. symmetry. exact Hw.
    + right. right. exact Hr.
Qed.

Lemma deduplicateVenues_from_first seen pre v post :
  venueKey v ∉ seen ->
  ~ In (venueKey v) (map venueKey pre) ->
  In v (deduplicateVenues_from seen (pre ++ v :: post)).
Proof.
  revert seen. induction pre as [|w pre IH]; intros seen Hseen Hpre;
    cbn [app deduplicateVenues_from].
  - rewrite bool_decide_eq_false_2 by exact Hseen. left. reflexivity.
  - cbn [map In] in Hpre.
    case_bool_decide as Hw.
    + apply IH; [exact Hseen|]. intros H. apply Hpre. right. exact H.
    + right. apply IH.
      * rewrite elem_of_union, elem_of_singleton. intros [E|E]; [|exact (Hseen E)].
        apply Hpre. left. symmetry. exact E.
      * intros H. apply Hpre. right. exact H.
Qed.

(** X1.  Deduplication keeps one venue per key, the first in the list, in
    the order of the list; it drops nothing else, and running it again
    changes nothing. *)
Theorem deduplicateVenues_invariants (vs : list Venue) :
  deduplicateVenues (deduplicateVenues vs) = deduplicateVenues vs
  /\ List.NoDup (map venueKey (deduplicateVenues vs))
  /\ sublist (deduplicateVenues vs) vs
  /\ (forall v, In v vs -> In (venueKey v) (map venueKey (deduplicateVenues vs)))
  /\ (forall pre v post,
        vs = (pre ++ v :: post)%list ->
        ~ In (venueKey v) (map venueKey pre) ->
        In v (deduplicateVenues vs)).
Proof.
  unfold deduplicateVenues.
  destruct (deduplicateVenues_from_keys ∅ vs) as [Hnd _].
  split; [|split; [|split; [|split]]].
  - apply deduplicateVenues_from_fixed; [exact Hnd|].
    intros v _. apply not_elem_of_empty.
  - exact Hnd.
  - apply deduplicateVenues_from_sublist.
  - intros v Hv. destruct (deduplicateVenues_from_covers ∅ vs v Hv) as [H|H]; [|exact H].
    exfalso. exact (not_elem_of_empty _ H).
  - intros pre v post -> Hpre.
    apply deduplicateVenues_from_first; [apply not_elem_of_empty|exact Hpre].
Qed.

End DeduplicationFacts.

Lemma deduplicateVenues_invariants_witness :
  In (venueOf "Tresor" "club")
    (DualRAGSystem.deduplicateVenues
       [streetMarket; streetFoodHall; streetMarket; venueOf "Tresor" "club"]).
Proof.
  destruct (deduplicateVenues_invariants
              [streetMarket; streetFoodHall; streetMarket; venueOf "Tresor" "club"])
    as (_ & _ & _ & _ & Hfirst).
  apply (Hfirst [streetMarket; streetFoodHall; streetMarket] (venueOf "Tresor" "club") []).
  - reflexivity.
  - cbn. intros [H|[H|[H|[]]]]; discriminate.
Defined.


Section ConfidenceBounds.

Import DualRAGSystem.
Local Open Scope Q_scope.

Definition count (patterns : list RAGResult) : Q :=
  inject_Z (Z.of_nat (length patterns)).

Lemma count_cons p patterns : count (p :: patterns) == count patterns + 1.
Proof.
  unfold count. cbn [length]. rewrite Nat2Z.inj_succ, <- Z.add_1_r, inject_Z_plus.
  reflexivity.
Qed.

Lemma count_nonneg patterns : 0 <= count patterns.
Proof.
  unfold count. change 0 with (inject_Z 0). rewrite <- Zle_Qle. lia.
Qed.

Lemma scoreSum_bounds (lo hi : Q) patterns :
  Forall (fun p => lo <= confidence p /\ confidence p <= hi) patterns ->
  lo * count patterns <= scoreSum patterns /\ scoreSum patterns <= hi * count patterns.
Proof.
  induction 1 as [|p ps [Hlo Hhi] _ [IHlo IHhi]].
  - unfold count, scoreSum. cbn. split; apply Qle_lteq; right; ring.
  - rewrite count_cons. cbn [scoreSum fold_right]. fold (scoreSum ps). split.
    + setoid_replace (lo * (count ps + 1)) with (lo + lo * count ps) using relation Qeq by ring.
      apply Qplus_le_compat; assumption.
    + setoid_replace (hi * (count ps + 1)) with (hi + hi * count ps) using relation Qeq by ring.
      apply Qplus_le_compat; assumption.
Qed.

Lemma avg_bounds (lo hi : Q) patterns :
  patterns <> [] ->
  Forall (fun p => lo <= confidence p /\ confidence p <= hi) patterns ->
  lo <= avg patterns /\ avg patterns <= hi.
Proof.
  intros Hne Hall. destruct (scoreSum_bounds lo hi patterns Hall) as [Hlo Hhi].
  assert (Hpos : 0 < count patterns).
  { destruct patterns as [|p ps]; [congruence|]. rewrite count_cons.
    apply Qlt_le_trans with (0 + 1); [reflexivity|].
    apply Qplus_le_compat; [apply count_nonneg|apply Qle_refl]. }
  unfold avg. fold (count patterns). split.
  - apply Qle_shift_div_l; assumption.
  - apply Qle_shift_div_r; assumption.
Qed.

Lemma venueBonus_range (venues : list Venue) :
  0 <= Qmin (inject_Z (Z.of_nat (length venues)) / 5) 1 * (2 # 10)
  /\ Qmin (inject_Z (Z.of_nat (length venues)) / 5) 1 * (2 # 10) <= 2 # 10.
Proof.
  assert (H0 : 0 <= inject_Z (Z.of_nat (length venues)) / 5).
  { apply Qle_shift_div_l; [reflexivity|].
    setoid_replace (0 * 5) with 0 using relation Qeq by ring.
    change 0 with (inject_Z 0). rewrite <- Zle_Qle. lia. }
  split.
  - apply Qmult_le_0_compat; [|discriminate].
    apply Q.min_glb; [exact H0|discriminate].
  - setoid_replace (2 # 10) with (1 * (2 # 10)) using relation Qeq at 2 by ring.
    apply Qmult_le_compat_r; [apply Q.le_min_r|discriminate].
Qed.

(** X2.  With at least one retrieved pattern, every score between a cutoff
    [t] and 1, and at least one venue, the recommendation confidence lies
    between the mean score and 1, and the overall confidence is at least
    [0.3 * intent + 0.7 * t]; with the intent floor 0.5 and the cutoff 0.6
    that is 0.57.  Without any pattern the overall confidence of the
    fallback is [0.3 * intent + 0.21]. *)
Theorem fusion_confidence_bounds (t : Q) (intent : TravelIntent)
    (patterns : list RAGResult) (venues : list Venue)
    (recommendations : TravelRecommendation) :
  (patterns <> [] ->
   venues <> [] ->
   Forall (fun p => t <= confidence p /\ confidence p <= 1) patterns ->
   rec_confidence recommendations == calculateRecommendationConfidence patterns venues ->
   t <= avg patterns
   /\ avg patterns <= calculateRecommendationConfidence patterns venues
   /\ calculateRecommendationConfidence patterns venues <= 1
   /\ (3 # 10) * ti_confidence intent + (7 # 10) * t
      <= calculateOverallConfidence intent patterns recommendations)
  /\ calculateOverallConfidence intent [] (generateFallbackRecommendations intent)
     == (3 # 10) * ti_confidence intent + (21 # 100).
Proof.
  split.
  - intros Hp Hv Hall Hrec.
    destruct (avg_bounds t 1 patterns Hp Hall) as [Hlo Hhi].
    destruct (venueBonus_range venues) as [Hb0 _].
    assert (Hrc : avg patterns <= calculateRecommendationConfidence patterns venues).
    { unfold calculateRecommendationConfidence.
      destruct patterns as [|p ps]; [congruence|].
      destruct venues as [|v vs]; [congruence|].
      cbn [length Nat.eqb orb]. rewrite averageConfidence_avg.
      apply Q.min_glb; [|exact Hhi].
      setoid_replace (avg (p :: ps)) with (avg (p :: ps) + 0) using relation Qeq at 1 by ring.
      apply Qplus_le_compat; [apply Qle_refl|exact Hb0]. }
    split; [exact Hlo|]. split; [exact Hrc|].
    split; [apply calculateRecommendationConfidence_le_1|].
    unfold calculateOverallConfidence.
    destruct patterns as [|p ps]; [congruence|].
    change (0 <? length (p :: ps))%nat with true. cbv iota.
    rewrite averageConfidence_avg, Hrec.
    assert (Ht : t <= calculateRecommendationConfidence (p :: ps) venues)
      by (eapply Qle_trans; eassumption).
    setoid_replace ((3 # 10) * ti_confidence intent + (7 # 10) * t)
      with (ti_confidence intent * (3 # 10) + t * (4 # 10) + t * (3 # 10)) using relation Qeq by ring.
    apply Qplus_le_compat; [apply Qplus_le_compat; [apply Qle_refl|]|].
    + apply Qmult_le_compat_r; [exact Hlo|discriminate].
    + apply Qmult_le_compat_r; [exact Ht|discriminate].
  - unfold calculateOverallConfidence. cbn. ring.
Qed.

End ConfidenceBounds.

Lemma fusion_confidence_bounds_witness :
  (57 # 100 <=
   DualRAGSystem.calculateOverallConfidence sampleIntent
     [hitWithScore (8 # 10); hitWithScore (6 # 10)]
     {| rec_venues := [streetMarket]; rec_confidence := 74 # 100;
        reasoning := "Good picks."; localTips := []; alternatives := [] |})%Q.
Proof.
  destruct (fusion_confidence_bounds (6 # 10) sampleIntent
              [hitWithScore (8 # 10); hitWithScore (6 # 10)] [streetMarket]
              {| rec_venues := [streetMarket]; rec_confidence := 74 # 100;
                 reasoning := "Good picks."; localTips := []; alternatives := [] |})
    as [Hbound _].
  destruct Hbound as (_ & _ & _ & Hoverall).
  - discriminate.
  - discriminate.
  - repeat constructor; discriminate.
  - reflexivity.
  - eapply Qle_trans; [|exact Hoverall]. discriminate.
Defined.

(* ===================================================================== *)
(** * The query pipeline: [DualRAGSystem.query]                           *)
(* ===================================================================== *)

Module DualRAGQuery.

Record RAGQueryResponse := {
  intent : TravelIntent;
  recommendations : TravelRecommendation;
  confidence : Q;
  processingTime : Z;
  sources : list string
}.

Section Query.

(** The system owns one vector store, shared with its intent extractor,
    and one completion client.  [startTime] and [endTime] are the two
    readings of [Date.now()]. *)
Variable Metadata : Type.
Variable Embedding : Type.
Variable embedQuery : string -> outcome Embedding.
Variable indexQuery :
  Embedding -> nat -> VectorStore.FilterConditions ->
  outcome (list (VectorStore.Match Metadata)).
Variable parseSuccessPattern : Metadata -> outcome SuccessPattern.
Variable parseLanguagePattern : Metadata -> outcome LanguagePattern.
Variable metadataSource : Metadata -> option string.
Variable chatCompletion : string -> outcome (option string).
Variable JSON_parse : string -> outcome IntentExtractor.ParsedJSON.
Variable contextCompletion :
  TravelIntent -> list Venue -> list string -> string -> outcome (option string).
Variable cfg : VectorStore.RagConfig.
Variable startTime endTime : Z.

Definition extractIntent : string -> outcome TravelIntent :=
  IntentExtractor.extractIntent
    (VectorStore.queryLanguagePatterns Metadata Embedding embedQuery indexQuery
       parseLanguagePattern)
    chatCompletion JSON_parse.

Definition querySuccessPatterns : string -> VectorStore.Filters -> outcome (list RAGResult) :=
  VectorStore.querySuccessPatterns Metadata Embedding embedQuery indexQuery
    parseSuccessPattern metadataSource cfg.

(** The filters built from the extracted intent. *)
Definition intentFilters (i : TravelIntent) : VectorStore.Filters :=
  {| VectorStore.f_destination := Some (destination i);
     VectorStore.f_budgetTier := Some (budgetTier i);
     VectorStore.f_category := None |}.

Definition query (userMessage : string) : outcome RAGQueryResponse :=
  try_catch
    (bind (extractIntent userMessage) (fun i =>
     bind (querySuccessPatterns userMessage (intentFilters i)) (fun successPatterns =>
     bind (DualRAGSystem.generateRecommendations contextCompletion i successPatterns
             userMessage) (fun recs =>
     Returned
       {| intent := i;
          recommendations := recs;
          confidence := DualRAGSystem.calculateOverallConfidence i successPatterns recs;
          processingTime := (endTime - startTime)%Z;
          sources := map source successPatterns |}))))
    (fun error => Thrown error).

End Query.

End DualRAGQuery.

Section QueryFacts.

Import DualRAGQuery.
Local Open Scope Q_scope.

Variable Metadata : Type.
Variable Embedding : Type.
Variable embedQuery : string -> outcome Embedding.
Variable indexQuery :
  Embedding -> nat -> VectorStore.FilterConditions ->
  outcome (list (VectorStore.Match Metadata)).
Variable parseSuccessPattern : Metadata -> outcome SuccessPattern.
Variable parseLanguagePattern : Metadata -> outcome LanguagePattern.
Variable metadataSource : Metadata -> option string.
Variable chatCompletion : string -> outcome (option string).
Variable JSON_parse : string -> outcome IntentExtractor.ParsedJSON.
Variable contextCompletion :
  TravelIntent -> list Venue -> list string -> string -> outcome (option string).
Variable cfg : VectorStore.RagConfig.
Variable startTime endTime : Z.

Local Abbreviation theIntent :=
  (extractIntent Metadata Embedding embedQuery indexQuery parseLanguagePattern
     chatCompletion JSON_parse).
Local Abbreviation thePatterns :=
  (querySuccessPatterns Metadata Embedding embedQuery indexQuery parseSuccessPattern
     metadataSource cfg).
Local Abbreviation theQuery :=
  (query Metadata Embedding embedQuery indexQuery parseSuccessPattern
     parseLanguagePattern metadataSource chatCompletion JSON_parse contextCompletion
     cfg startTime endTime).

(** Every result of the pattern query carries a success pattern. *)
Lemma querySuccessPatterns_contents msg filters rs :
  VectorStore.querySuccessPatterns Metadata Embedding embedQuery indexQuery
    parseSuccessPattern metadataSource cfg msg filters = Returned rs ->
  exists ps, map patternOf rs = map Some ps.
Proof.
  unfold VectorStore.querySuccessPatterns. intros H.
  apply bind_Returned in H as (embedding & _ & H).
  apply bind_Returned in H as (matches & _ & H).
  apply mapM_Returned in H.
  induction H as [|m r ms rs' Hm _ [ps IH]]; [exists []; reflexivity|].
  unfold VectorStore.toSuccessResult in Hm.
  apply bind_Returned in Hm as (p & _ & Hm). injection Hm as <-.
  exists (p :: ps). cbn [map]. rewrite IH. reflexivity.
Qed.

Lemma generateContextualResponse_nonempty i vs tips q :
  DualRAGSystem.generateContextualResponse contextCompletion i vs tips q <> "".
Proof.
  unfold DualRAGSystem.generateContextualResponse, or_string, truthy_string.
  destruct (contextCompletion i vs tips q) as [[[|c text]|]|e]; discriminate.
Qed.

Lemma generateRecommendations_returns i patterns ps q :
  map patternOf patterns = map Some ps ->
  exists recs,
    DualRAGSystem.generateRecommendations contextCompletion i patterns q = Returned recs
    /\ reasoning recs <> ""
    /\ (length (rec_venues recs) <= 5)%nat
    /\ rec_confidence recs
       = match patterns with
         | [] => 3 # 10
         | _ => DualRAGSystem.calculateRecommendationConfidence patterns (rec_venues recs)
         end.
Proof.
  intros Hps. unfold DualRAGSystem.generateRecommendations.
  destruct patterns as [|r0 rest].
  - cbn. eexists. split; [reflexivity|]. cbn. repeat split; [discriminate|lia].
  - cbn [length Nat.eqb].
    assert (Htop : map patternOf (slice 0 3 (r0 :: rest)) = map Some (firstn 3 ps)).
    { unfold slice. cbn [skipn Nat.sub]. rewrite <- !firstn_map, Hps. reflexivity. }
    rewrite (collectVenuesAndTips_success _ _ Htop). cbn [bind].
    eexists. split; [reflexivity|]. cbn [reasoning rec_venues rec_confidence].
    split; [apply generateContextualResponse_nonempty|].
    split; [|reflexivity].
    unfold slice. cbn [skipn Nat.sub]. apply firstn_le_length.
Qed.

(** X3.  A query fails exactly when intent extraction or pattern
    retrieval fails, and then with that very error; the completion request
    for the reasoning can never fail it.  A successful query reports the
    extracted intent, one source per retrieved pattern in retrieval order,
    at most five venues, a non-empty reasoning, and the weighted
    confidence of intent, patterns and recommendation. *)
Theorem query_outcomes (userMessage : string) :
  (forall e, theIntent userMessage = Thrown e -> theQuery userMessage = Thrown e)
  /\ (forall i e,
        theIntent userMessage = Returned i ->
        thePatterns userMessage (intentFilters i) = Thrown e ->
        theQuery userMessage = Thrown e)
  /\ (forall i patterns,
        theIntent userMessage = Returned i ->
        thePatterns userMessage (intentFilters i) = Returned patterns ->
        exists response,
          theQuery userMessage = Returned response
          /\ intent response = i
          /\ sources response = map source patterns
          /\ processingTime response = (endTime - startTime)%Z
          /\ (length (rec_venues (recommendations response)) <= 5)%nat
          /\ reasoning (recommendations response) <> ""
          /\ confidence response
             = DualRAGSystem.calculateOverallConfidence i patterns
                 (recommendations response)
          /\ Forall (fun p => VectorStore.confidenceThreshold cfg <= Types.confidence p)
               patterns).
Proof.
  unfold query. split; [|split].
  - intros e H. unfold extractIntent in *. rewrite H. reflexivity.
  - intros i e Hi Hp. unfold extractIntent, querySuccessPatterns in *.
    rewrite Hi. cbn [bind]. rewrite Hp. reflexivity.
  - intros i patterns Hi Hp. unfold extractIntent, querySuccessPatterns in *.
    rewrite Hi. cbn [bind]. rewrite Hp. cbn [bind].
    destruct (querySuccessPatterns_contents _ _ _ Hp) as [ps Hps].
    destruct (generateRecommendations_returns i patterns ps userMessage Hps)
      as (recs & Hrecs & Hreason & Hlen & _).
    rewrite Hrecs. cbn [bind try_catch]. eexists. split; [reflexivity|].
    cbn [intent sources processingTime recommendations confidence].
    repeat (split; [first [reflexivity|assumption]|]).
    unfold VectorStore.querySuccessPatterns in Hp.
    apply bind_Returned in Hp as (embedding & _ & Hp).
    apply bind_Returned in Hp as (matches & _ & Hp).
    destruct (kept_results Metadata _ _ _ _
                (toSuccessResult_confidence Metadata parseSuccessPattern metadataSource)
                Hp) as (_ & Hall & _).
    exact Hall.
Qed.

End QueryFacts.

(** A system whose completion client is down, over the small index. *)
Definition sampleQuery : outcome DualRAGQuery.RAGQueryResponse :=
  DualRAGQuery.query unit unit (fun _ => Returned tt) sampleIndex
    (fun _ => Returned (sampleSuccessPattern [streetMarket]))
    (fun _ => Returned sampleLanguagePattern) (fun _ => Some "curated")
    (fun _ => Thrown "timeout") (fun _ => Thrown "SyntaxError")
    (fun _ _ _ _ => Thrown "timeout")
    VectorStore.CONFIG_rag 1000 1012 "broke students berlin clubs".

Lemma query_outcomes_witness :
  exists response,
    sampleQuery = Returned response
    /\ DualRAGQuery.sources response = ["curated"; "curated"]
    /\ DualRAGQuery.processingTime response = 12%Z
    /\ (length (rec_venues (DualRAGQuery.recommendations response)) <= 5)%nat.
Proof.
  destruct (query_outcomes unit unit (fun _ => Returned tt) sampleIndex
              (fun _ => Returned (sampleSuccessPattern [streetMarket]))
              (fun _ => Returned sampleLanguagePattern) (fun _ => Some "curated")
              (fun _ => Thrown "timeout") (fun _ => Thrown "SyntaxError")
              (fun _ _ _ _ => Thrown "timeout")
              VectorStore.CONFIG_rag 1000 1012 "broke students berlin clubs")
    as (_ & _ & Hok).
  destruct (Hok _ _ eq_refl eq_refl)
    as (response & Hq & _ & Hsources & Htime & Hlen & _).
  exists response. split; [exact Hq|]. split; [exact Hsources|]. split; assumption.
Defined.


(* ===================================================================== *)
(** * Further properties of intent extraction                             *)
(* ===================================================================== *)

Section IntentFacts.

Import IntentExtractor.
Local Open Scope Q_scope.

(** *** The filters of the pattern query *)

Lemma firstTruthy_nonempty a b dflt : dflt <> "" -> firstTruthy a b dflt <> "".
Proof.
  intros Hd. unfold firstTruthy, or_string, truthy_string.
  destruct a as [[|c s]|]; try discriminate;
    destruct b as [[|c' s']|]; try discriminate; exact Hd.
Qed.

Lemma truthy_string_nonempty s : s <> "" -> truthy_string (Some s) = Some s.
Proof. destruct s; [congruence|reflexivity]. Qed.

(** X4.  The pattern query of a merged intent is always restricted to one
    budget tier: the tier of the phrase patterns when they name one, else
    the tier of the completion when it names one, else "medium".  It is
    never restricted to a category; it is restricted to a destination, in
    lower case, exactly when the completion named one. *)
Theorem merged_intent_filters ai pat text :
  let i := mergeIntents ai pat text in
  let conditions := VectorStore.successFilterConditions (DualRAGQuery.intentFilters i) in
  VectorStore.fc_type conditions = "success_pattern"
  /\ VectorStore.fc_budgetTier conditions = Some (budgetTier i)
  /\ budgetTier i <> ""
  /\ budgetTier i
     = match truthy_string (pt_budgetTier pat), truthy_string (pi_budgetTier ai) with
       | Some tier, _ => tier
       | None, Some tier => tier
       | None, None => "medium"
       end
  /\ VectorStore.fc_category conditions = None
  /\ VectorStore.fc_destination conditions
     = match truthy_string (pi_destination ai) with
       | Some d => Some (toLowerCase d)
       | None => None
       end.
Proof.
  cbn zeta.
  assert (Hb : budgetTier (mergeIntents ai pat text) <> "")
    by (apply firstTruthy_nonempty; discriminate).
  split; [reflexivity|]. split; [|split; [exact Hb|split; [|split; [reflexivity|]]]].
  - unfold VectorStore.successFilterConditions, DualRAGQuery.intentFilters.
    cbn [VectorStore.fc_budgetTier VectorStore.f_budgetTier].
    apply truthy_string_nonempty. exact Hb.
  - cbn [mergeIntents budgetTier]. unfold firstTruthy, or_string.
    destruct (truthy_string (pt_budgetTier pat)); [reflexivity|].
    destruct (truthy_string (pi_budgetTier ai)); reflexivity.
  - unfold VectorStore.successFilterConditions, DualRAGQuery.intentFilters.
    cbn [VectorStore.fc_destination VectorStore.f_destination mergeIntents destination].
    unfold or_string. destruct (truthy_string (pi_destination ai)) as [d|] eqn:E.
    + destruct d as [|c d]; [|reflexivity].
      destruct (pi_destination ai) as [[|c s]|]; discriminate.
    + reflexivity.
Qed.

(** *** Phrase patterns *)

(** The phrase test of the loop: some phrase of the pattern occurs in the
    lower-cased message. *)
Definition phraseMatches (text : string) (r : RAGResult) : bool :=
  match content r with
  | success_pattern _ => false
  | language_pattern lp =>
      existsb (fun phrase => includes (toLowerCase text) (toLowerCase phrase)) (phrases lp)
  end.

Lemma filter_nonempty_existsb {X : Type} (f : X -> bool) (l : list X) :
  (0 <? length (List.filter f l))%nat = existsb f l.
Proof.
  induction l as [|x l IH]; [reflexivity|].
  cbn [List.filter existsb]. destruct (f x); [reflexivity|exact IH].
Qed.

Lemma absorbPattern_skip text acc r :
  phraseMatches text r = false -> absorbPattern (toLowerCase text) acc r = acc.
Proof.
  unfold phraseMatches, absorbPattern. destruct (content r) as [p|lp]; [reflexivity|].
  rewrite filter_nonempty_existsb. intros ->. reflexivity.
Qed.

Lemma absorbPattern_match text acc r lp :
  content r = language_pattern lp ->
  phraseMatches text r = true ->
  let acc' := absorbPattern (toLowerCase text) acc r in
  pt_confidence acc' = Qmax (pt_confidence acc) (confidence r)
  /\ pt_budgetTier acc'
     = match truthy_string (fr_budgetTier (mapsTo lp)) with
       | Some b => Some b
       | None => pt_budgetTier acc
       end.
Proof.
  unfold phraseMatches, absorbPattern. intros ->.
  rewrite filter_nonempty_existsb. intros ->. split; reflexivity.
Qed.

Lemma extractFromPatterns_snoc text patterns r :
  extractFromPatterns text (patterns ++ [r])
  = absorbPattern (toLowerCase text) (extractFromPatterns text patterns) r.
Proof. unfold extractFromPatterns. rewrite fold_left_app. reflexivity. Qed.

Lemma fold_absorb_confidence text patterns acc :
  let result := fold_left (absorbPattern (toLowerCase text)) patterns acc in
  pt_confidence acc <= pt_confidence result
  /\ (forall r, In r patterns -> phraseMatches text r = true ->
        confidence r <= pt_confidence result)
  /\ (pt_confidence result = pt_confidence acc
      \/ exists r, In r patterns /\ phraseMatches text r = true
                   /\ pt_confidence result = confidence r).
Proof.
  revert acc. induction patterns as [|r rest IH]; intros acc; cbn [fold_left].
  - split; [apply Qle_refl|]. split; [intros r []|left; reflexivity].
  - destruct (IH (absorbPattern (toLowerCase text) acc r)) as (Hmono & Hall & Hattain).
    destruct (phraseMatches text r) eqn:Hm.
    + assert (Hlp : exists lp, content r = language_pattern lp).
      { unfold phraseMatches in Hm. destruct (content r); [discriminate|eauto]. }
      destruct Hlp as [lp Hlp].
      destruct (absorbPattern_match text acc r lp Hlp Hm) as [Hc _].
      cbn zeta in *. rewrite Hc in Hmono, Hattain. split; [|split].
      * eapply Qle_trans; [apply Q.le_max_l|exact Hmono].
      * intros r' [<-|Hin] Hm'; [|apply Hall; assumption].
        eapply Qle_trans; [apply Q.le_max_r|exact Hmono].
      * destruct Hattain as [Heq|(r' & Hin & Hm' & Heq)].
        -- unfold Qmax, GenericMinMax.gmax in Heq.
           destruct (pt_confidence acc ?= confidence r).
           ++ left. exact Heq.
           ++ right. exists r. split; [left; reflexivity|]. split; assumption.
           ++ left. exact Heq.
        -- right. exists r'. split; [right; exact Hin|]. split; assumption.
    + rewrite (absorbPattern_skip _ _ _ Hm) in *. cbn zeta in *.
      split; [exact Hmono|]. split.
      * intros r' [<-|Hin] Hm'; [congruence|apply Hall; assumption].
      * destruct Hattain as [Heq|(r' & Hin & Hm' & Heq)]; [left; exact Heq|].
        right. exists r'. split; [right; exact Hin|]. split; assumption.
Qed.

Lemma fold_absorb_nothing text patterns acc :
  (forall r, In r patterns -> phraseMatches text r = false) ->
  fold_left (absorbPattern (toLowerCase text)) patterns acc = acc.
Proof.
  revert acc. induction patterns as [|r rest IH]; intros acc Hnone; [reflexivity|].
  cbn [fold_left]. rewrite absorbPattern_skip by (apply Hnone; left; reflexivity).
  apply IH. intros r' Hr'. apply Hnone. right. exact Hr'.
Qed.

(** X5.  The pattern confidence is the best retrieval score among the
    phrase patterns that occur in the message, and 0 when none does; in
    that case the patterns contribute nothing at all. *)
Theorem extractFromPatterns_confidence text (patterns : list RAGResult) :
  let pat := extractFromPatterns text patterns in
  (forall r, In r patterns -> phraseMatches text r = true ->
     confidence r <= pt_confidence pat)
  /\ (pt_confidence pat = 0
      \/ exists r, In r patterns /\ phraseMatches text r = true
                   /\ pt_confidence pat = confidence r)
  /\ ((forall r, In r patterns -> phraseMatches text r = false) ->
      pat = emptyPatternIntent).
Proof.
  cbn zeta. unfold extractFromPatterns.
  destruct (fold_absorb_confidence text patterns emptyPatternIntent) as (_ & Hall & Hatt).
  split; [exact Hall|]. split; [exact Hatt|].
  apply fold_absorb_nothing.
Qed.

(** X6.  The budget tier of the last retrieved phrase pattern that occurs
    in the message and names a tier wins: it replaces the tier of earlier
    patterns and, in the merged intent, the tier guessed by the
    completion. *)
Theorem last_matching_pattern_sets_budget text patterns r lp tier ai :
  content r = language_pattern lp ->
  phraseMatches text r = true ->
  fr_budgetTier (mapsTo lp) = Some tier ->
  tier <> "" ->
  pt_budgetTier (extractFromPatterns text (patterns ++ [r])) = Some tier
  /\ budgetTier (mergeIntents ai (extractFromPatterns text (patterns ++ [r])) text) = tier.
Proof.
  intros Hlp Hm Htier Hne.
  assert (Hb : pt_budgetTier (extractFromPatterns text (patterns ++ [r])) = Some tier).
  { rewrite extractFromPatterns_snoc.
    destruct (absorbPattern_match text (extractFromPatterns text patterns) r lp Hlp Hm)
      as [_ ->].
    rewrite Htier, truthy_string_nonempty by exact Hne. reflexivity. }
  split; [exact Hb|].
  cbn [mergeIntents budgetTier]. unfold firstTruthy. rewrite Hb.
  rewrite truthy_string_nonempty by exact Hne. reflexivity.
Qed.

(** *** Union of interest lists *)

Lemma set_spread_aux_spec seen xs :
  List.NoDup (set_spread_aux seen xs)
  /\ forall x, In x (set_spread_aux seen xs) <-> In x xs /\ x ∉ seen.
Proof.
  revert seen. induction xs as [|y rest IH]; intros seen; cbn [set_spread_aux].
  - split; [constructor|]. intros x. split; [intros []|intros [[] _]].
  - case_bool_decide as Hy.
    + destruct (IH seen) as [Hnd Hin]. split; [exact Hnd|].
      intros x. rewrite Hin. cbn [In]. split.
      * intros [Hx Hs]. split; [right; exact Hx|exact Hs].
      * intros [[<-|Hx] Hs]; [contradiction|split; assumption].
    + destruct (IH ({[y]} ∪ seen)) as [Hnd Hin]. split.
      * constructor; [|exact Hnd]. intros Hc. apply Hin in Hc as [_ Hc].
        apply Hc. apply elem_of_union_l, elem_of_singleton. reflexivity.
      * intros x. cbn [In]. rewrite Hin, elem_of_union, elem_of_singleton. split.
        -- intros [<-|[Hx Hs]]; [split; [left; reflexivity|exact Hy]|].
           split; [right; exact Hx|]. intros Hs'. apply Hs. right. exact Hs'.
        -- intros [[<-|Hx] Hs]; [left; reflexivity|].
           destruct (decide (y = x)) as [->|Hne]; [left; reflexivity|].
           right. split; [exact Hx|]. intros [E|Hs']; [congruence|contradiction].
Qed.

Lemma set_spread_aux_fixed seen xs :
  List.NoDup xs -> (forall x, In x xs -> x ∉ seen) -> set_spread_aux seen xs = xs.
Proof.
  revert seen. induction xs as [|y rest IH]; intros seen Hnd Hfresh; [reflexivity|].
  apply List.NoDup_cons_iff in Hnd as [Hnot Hnd]. cbn [set_spread_aux].
  rewrite bool_decide_eq_false_2 by (apply Hfresh; left; reflexivity).
  f_equal. apply IH; [exact Hnd|].
  intros x Hx. rewrite elem_of_union, elem_of_singleton.
  intros [->|Hs]; [contradiction|]. apply (Hfresh x); [right; exact Hx|exact Hs].
Qed.

Lemma set_spread_aux_app seen xs ys :
  List.NoDup xs -> (forall x, In x xs -> x ∉ seen) ->
  exists rest, set_spread_aux seen (xs ++ ys) = (xs ++ rest)%list.
Proof.
  revert seen. induction xs as [|y xs IH]; intros seen Hnd Hfresh.
  - eexists. reflexivity.
  - apply List.NoDup_cons_iff in Hnd as [Hnot Hnd]. cbn [app set_spread_aux].
    rewrite bool_decide_eq_false_2 by (apply Hfresh; left; reflexivity).
    destruct (IH ({[y]} ∪ seen) Hnd) as [rest Hrest].
    + intros x Hx. rewrite elem_of_union, elem_of_singleton.
      intros [->|Hs]; [contradiction|]. apply (Hfresh x); [right; exact Hx|exact Hs].
    + exists rest. rewrite Hrest. reflexivity.
Qed.

Definition listOf (arr : option (list string)) : list string :=
  match arr with Some l => l | None => [] end.

(** X7.  The merged interests hold every interest of either source once:
    no interest is repeated, none is lost, none is invented; and when the
    completion's own list has no repetition the merged list starts with
    it. *)
Theorem mergeArrays_union (arr1 arr2 : option (list string)) :
  List.NoDup (mergeArrays arr1 arr2)
  /\ (forall x, In x (mergeArrays arr1 arr2) <-> In x (listOf arr1) \/ In x (listOf arr2))
  /\ (List.NoDup (listOf arr1) ->
      exists rest, mergeArrays arr1 arr2 = (listOf arr1 ++ rest)%list).
Proof.
  unfold mergeArrays, set_spread. fold (listOf arr1) (listOf arr2).
  destruct (set_spread_aux_spec ∅ (listOf arr1 ++ listOf arr2)) as [Hnd Hin].
  split; [exact Hnd|]. split.
  - intros x. rewrite Hin, in_app_iff. split; [intros [H _]; exact H|].
    intros H. split; [exact H|apply not_elem_of_empty].
  - intros Hnd1. apply set_spread_aux_app; [exact Hnd1|].
    intros x _. apply not_elem_of_empty.
Qed.

End IntentFacts.

Lemma merged_intent_filters_witness :
  let conditions :=
    VectorStore.successFilterConditions
      (DualRAGQuery.intentFilters
         (IntentExtractor.mergeIntents IntentExtractor.degradedGuess
            IntentExtractor.emptyPatternIntent "somewhere quiet")) in
  VectorStore.fc_budgetTier conditions = Some "medium"
  /\ VectorStore.fc_destination conditions = None
  /\ VectorStore.fc_budgetTier
       (VectorStore.successFilterConditions
          (DualRAGQuery.intentFilters
             (IntentExtractor.mergeIntents sampleGuess
                IntentExtractor.emptyPatternIntent "broke students berlin clubs")))
     = Some "low".
Proof.
  cbn zeta.
  destruct (merged_intent_filters IntentExtractor.degradedGuess
              IntentExtractor.emptyPatternIntent "somewhere quiet")
    as (_ & Htier & _ & Hvalue & _ & Hdest).
  destruct (merged_intent_filters sampleGuess IntentExtractor.emptyPatternIntent
              "broke students berlin clubs") as (_ & Htier' & _ & Hvalue' & _).
  cbn zeta in *. rewrite Htier, Hvalue, Hdest, Htier', Hvalue'.
  split; [reflexivity|]. split; reflexivity.
Defined.

Definition brokeHit : RAGResult :=
  {| content := language_pattern sampleLanguagePattern; confidence := 7 # 10;
     source := "language_corpus" |}.

Lemma extractFromPatterns_confidence_witness :
  (7 # 10 <= IntentExtractor.pt_confidence
               (IntentExtractor.extractFromPatterns "Broke students in Berlin" [brokeHit]))%Q.
Proof.
  destruct (extractFromPatterns_confidence "Broke students in Berlin" [brokeHit])
    as (Hbest & _ & _).
  apply (Hbest brokeHit); [left; reflexivity|reflexivity].
Defined.

Lemma last_matching_pattern_sets_budget_witness :
  budgetTier
    (IntentExtractor.mergeIntents sampleGuess
       (IntentExtractor.extractFromPatterns "Broke students in Berlin" ([] ++ [brokeHit]))
       "Broke students in Berlin")
  = "low".
Proof.
  apply (last_matching_pattern_sets_budget "Broke students in Berlin" [] brokeHit
           sampleLanguagePattern "low" sampleGuess);
    [reflexivity|reflexivity|reflexivity|discriminate].
Defined.

Lemma mergeArrays_union_witness :
  exists rest,
    IntentExtractor.mergeArrays (Some ["clubs"; "food"]) (Some ["food"; "art"])
    = (["clubs"; "food"] ++ rest)%list.
Proof.
  destruct (mergeArrays_union (Some ["clubs"; "food"]) (Some ["food"; "art"]))
    as (_ & _ & Hprefix).
  apply Hprefix. cbn. repeat constructor; cbn; intros H;
    repeat (destruct H as [H|H]; [discriminate|]); exact H.
Defined.


(* ===================================================================== *)
(** * The lists of a recommendation                                       *)
(* ===================================================================== *)

Section RecommendationFacts.

Import DualRAGSystem.

Variable contextCompletion :
  TravelIntent -> list Venue -> list string -> string -> outcome (option string).

Lemma NoDup_firstn {X : Type} n (l : list X) : List.NoDup l -> List.NoDup (firstn n l).
Proof.
  intros H. rewrite <- (firstn_skipn n l) in H. exact (List.NoDup_app_remove_r _ _ H).
Qed.

Lemma firstn_skipn_prefix {X : Type} a b (l : list X) :
  exists rest, l = ((firstn a l ++ firstn b (skipn a l)) ++ rest)%list.
Proof.
  exists (skipn b (skipn a l)).
  rewrite <- app_assoc, (firstn_skipn b (skipn a l)), (firstn_skipn a l). reflexivity.
Qed.

Lemma sublist_In {X : Type} (l1 l2 : list X) x : sublist l1 l2 -> In x l1 -> In x l2.
Proof.
  induction 1 as [|y l1 l2 _ IH|y l1 l2 _ IH]; cbn [In]; [tauto| |].
  - intros [->|H]; [left; reflexivity|right; apply IH; exact H].
  - intros H. right. apply IH. exact H.
Qed.

(** X25.  A recommendation made from retrieved patterns never lists a
    venue twice: the keys of the primary venues and of the alternatives
    are pairwise different, so no alternative repeats a primary venue.
    There are alternatives only when the primary list is full (five
    venues); no tip is repeated; and every venue and every tip comes from
    one of the first three patterns. *)
Theorem recommendation_lists_disjoint intent (patterns : list RAGResult)
    (ps : list SuccessPattern) originalQuery :
  patterns <> [] ->
  map patternOf patterns = map Some ps ->
  exists r,
    generateRecommendations contextCompletion intent patterns originalQuery = Returned r
    /\ List.NoDup (map venueKey (rec_venues r ++ alternatives r))
    /\ (alternatives r <> [] -> length (rec_venues r) = 5%nat)
    /\ List.NoDup (localTips r)
    /\ (forall v, In v (rec_venues r ++ alternatives r) ->
          exists p, In p (firstn 3 ps) /\ In v (venues p))
    /\ (forall tip, In tip (localTips r) ->
          exists p, In p (firstn 3 ps) /\ In tip (tipsOf p)).
Proof.
  intros Hne Hps.
  destruct (generateRecommendations_fuses contextCompletion intent patterns ps originalQuery
              Hne Hps) as (r & Hr & Hv & Ha & Ht & _).
  exists r. split; [exact Hr|]. rewrite Hv, Ha, Ht.
  set (unique := deduplicateVenues (concat (map venues (firstn 3 ps)))).
  assert (Hunique : List.NoDup (map venueKey unique))
    by apply (deduplicateVenues_from_keys ∅).
  destruct (firstn_skipn_prefix 5 3 unique) as [rest Hsplit].
  assert (Hshown : forall v, In v (firstn 5 unique ++ firstn 3 (skipn 5 unique))%list ->
                             In v (concat (map venues (firstn 3 ps)))).
  { intros v Hin. apply (sublist_In unique); [apply deduplicateVenues_from_sublist|].
    rewrite Hsplit. apply in_app_iff. left. exact Hin. }
  split; [|split; [|split; [|split]]].
  - rewrite Hsplit, map_app in Hunique. exact (List.NoDup_app_remove_r _ _ Hunique).
  - intros Halt.
    assert (Hlen : (5 < length unique)%nat).
    { destruct (le_lt_dec (length unique) 5) as [Hle|Hlt]; [|exact Hlt].
      rewrite List.skipn_all2 in Halt by exact Hle.
      rewrite List.firstn_nil in Halt. congruence. }
    rewrite List.length_firstn. lia.
  - apply NoDup_firstn. apply (set_spread_aux_spec ∅).
  - intros v Hin. specialize (Hshown v Hin).
    apply in_concat in Hshown as (vs & Hvs & Hv'). apply in_map_iff in Hvs as (p & <- & Hp).
    exists p. split; assumption.
  - intros tip Hin.
    assert (Hall : In tip (set_spread (concat (map tipsOf (firstn 3 ps))))).
    { rewrite <- (firstn_skipn 5 (set_spread _)). apply in_app_iff. left. exact Hin. }
    apply (set_spread_aux_spec ∅) in Hall as [Hall _].
    apply in_concat in Hall as (tips & Htips & Htip).
    apply in_map_iff in Htips as (p & <- & Hp).
    exists p. split; assumption.
Qed.

End RecommendationFacts.

Lemma recommendation_lists_disjoint_witness :
  exists r,
    DualRAGSystem.generateRecommendations (fun _ _ _ _ => Thrown "timeout") sampleIntent
      [marketHit; marketHit] "cheap food berlin" = Returned r
    /\ List.NoDup (map DualRAGSystem.venueKey (rec_venues r ++ alternatives r))
    /\ List.NoDup (localTips r).
Proof.
  destruct (recommendation_lists_disjoint (fun _ _ _ _ => Thrown "timeout") sampleIntent
              [marketHit; marketHit]
              [sampleSuccessPattern [streetMarket; streetFoodHall];
               sampleSuccessPattern [streetMarket; streetFoodHall]]
              "cheap food berlin")
    as (r & Hr & Hvenues & _ & Htips & _); [discriminate|reflexivity|].
  exists r. split; [exact Hr|]. split; assumption.
Defined.

(* ===================================================================== *)
(** * Further properties of the day planner                               *)
(* ===================================================================== *)

Section SelectionFacts.

Import DayPlanner.
Local Open Scope Z_scope.
Local Arguments String.append !s1 s2 : simpl nomatch.

(** *** Interest score *)

(** The test of the loop for one interest. *)
Definition interestMatches (a : Activity) (interest : string) : bool :=
  includes (toLowerCase (type a)) (toLowerCase interest) ||
  includes (toLowerCase (name a)) (toLowerCase interest).

Lemma scoreActivity_from a interests acc :
  fold_left
    (fun score interest => if interestMatches a interest then score + 10 else score)
    interests acc
  = acc + 10 * Z.of_nat (length (List.filter (interestMatches a) interests)).
Proof.
  revert acc. induction interests as [|i rest IH]; intros acc; cbn [fold_left List.filter].
  - cbn. lia.
  - rewrite IH. destruct (interestMatches a i); cbn [length]; lia.
Qed.

(** *** Ties *)

Lemma head_sort_insert {X : Type} (cmp : X -> X -> Z) x l :
  head (sort_insert cmp x l)
  = match l with
    | [] => Some x
    | y :: _ => if cmp x y <=? 0 then Some x else Some y
    end.
Proof. destruct l as [|y l]; cbn; [reflexivity|]. destruct (cmp x y <=? 0); reflexivity. Qed.

(** The head of the sorted array is the first element of the input with
    the least key. *)
Lemma sort_head_first_least {X : Type} (key : X -> Z) (l : list X) (a : X) :
  head (sort (fun x y => key x - key y) l) = Some a ->
  exists pre post,
    l = (pre ++ a :: post)%list
    /\ (forall b, In b pre -> key a < key b)
    /\ (forall b, In b post -> key a <= key b).
Proof.
  revert a. induction l as [|x l IH]; intros a; cbn [sort]; [discriminate|].
  rewrite head_sort_insert.
  destruct (sort (fun x y => key x - key y) l) as [|y sorted] eqn:E.
  - intros H. injection H as <-.
    assert (l = []) as ->.
    { apply (sort_head_None (fun x y => key x - key y)). rewrite E. reflexivity. }
    exists [], []. split; [reflexivity|]. split; intros b [].
  - destruct (IH y eq_refl) as (pre & post & -> & Hpre & Hpost).
    destruct (Z.leb_spec (key x - key y) 0) as [Hle|Hgt]; intros H; injection H as <-.
    + exists [], (pre ++ y :: post)%list. split; [reflexivity|].
      split; [intros b []|].
      intros b Hb. apply in_app_or in Hb as [Hb|[<-|Hb]].
      * specialize (Hpre b Hb). lia.
      * lia.
      * specialize (Hpost b Hb). lia.
    + exists (x :: pre), post. split; [reflexivity|]. split; [|exact Hpost].
      intros b [<-|Hb]; [lia|apply Hpre; exact Hb].
Qed.

Lemma filter_split {X : Type} (f : X -> bool) (l : list X) pre' a post' :
  List.filter f l = (pre' ++ a :: post')%list ->
  exists pre post,
    l = (pre ++ a :: post)%list
    /\ List.filter f pre = pre' /\ List.filter f post = post'.
Proof.
  revert pre'. induction l as [|x l IH]; intros pre' H; cbn [List.filter] in H.
  - destruct pre'; discriminate.
  - destruct (f x) eqn:Fx.
    + destruct pre' as [|p pre'].
      * cbn in H. injection H as -> H. exists [], l. repeat split. exact H.
      * cbn in H. injection H as -> H.
        destruct (IH pre' H) as (pre & post & -> & Hp & Hq).
        exists (p :: pre), post. split; [reflexivity|]. split; [|exact Hq].
        cbn [List.filter]. rewrite Fx, Hp. reflexivity.
    + destruct (IH pre' H) as (pre & post & -> & Hp & Hq).
      exists (x :: pre), post. split; [reflexivity|]. split; [|exact Hq].
      cbn [List.filter]. rewrite Fx. exact Hp.
Qed.

(** X9.  Among the suitable activities the planner takes the first one,
    in the order of the offer, that reaches the highest score: every
    suitable activity offered before it scores strictly less, every one
    offered after it scores no more.  With no interests stated it is the
    first suitable activity. *)
Theorem selectBestActivity_first_best slotType acts prefs day t a :
  selectBestActivity slotType acts prefs day t = Some a ->
  exists pre post,
    acts = (pre ++ a :: post)%list
    /\ suitableFor slotType prefs day t a = true
    /\ (forall b, In b pre -> suitableFor slotType prefs day t b = true ->
          scoreActivity b (interests prefs) < scoreActivity a (interests prefs))
    /\ (forall b, In b post -> suitableFor slotType prefs day t b = true ->
          scoreActivity b (interests prefs) <= scoreActivity a (interests prefs))
    /\ (interests prefs = [] ->
        forall b, In b pre -> suitableFor slotType prefs day t b = false).
Proof.
  unfold selectBestActivity. intros H.
  assert (Hsame :
    sort (fun x y => scoreActivity y (interests prefs) - scoreActivity x (interests prefs))
         (List.filter (suitableFor slotType prefs day t) acts)
    = sort (fun x y => - scoreActivity x (interests prefs)
                       - - scoreActivity y (interests prefs))
         (List.filter (suitableFor slotType prefs day t) acts)).
  { generalize (List.filter (suitableFor slotType prefs day t) acts) as l.
    induction l as [|x l IH]; [reflexivity|]. cbn [sort]. rewrite IH.
    generalize (sort (fun x y => - scoreActivity x (interests prefs)
                                 - - scoreActivity y (interests prefs)) l) as s.
    induction s as [|y s IHs]; [reflexivity|]. cbn [sort_insert].
    replace (scoreActivity y (interests prefs) - scoreActivity x (interests prefs))
      with (- scoreActivity x (interests prefs) - - scoreActivity y (interests prefs))
      by lia.
    rewrite IHs. reflexivity. }
  rewrite Hsame in H.
  apply (sort_head_first_least (fun x => - scoreActivity x (interests prefs))) in H
    as (pre' & post' & Hf & Hpre & Hpost).
  assert (Ha : In a (List.filter (suitableFor slotType prefs day t) acts))
    by (rewrite Hf; apply in_or_app; right; left; reflexivity).
  apply filter_In in Ha as [_ Ha].
  apply filter_split in Hf as (pre & post & -> & Hp & Hq).
  exists pre, post. split; [reflexivity|]. split; [exact Ha|].
  assert (Hlt : forall b, In b pre -> suitableFor slotType prefs day t b = true ->
                  scoreActivity b (interests prefs) < scoreActivity a (interests prefs)).
  { intros b Hb Hs.
    assert (Hin : In b pre') by (rewrite <- Hp; apply filter_In; split; assumption).
    specialize (Hpre b Hin). lia. }
  split; [exact Hlt|]. split.
  - intros b Hb Hs.
    assert (Hin : In b post') by (rewrite <- Hq; apply filter_In; split; assumption).
    specialize (Hpost b Hin). lia.
  - intros Hnone b Hb.
    destruct (suitableFor slotType prefs day t b) eqn:Hs; [|reflexivity].
    specialize (Hlt b Hb Hs). rewrite Hnone in Hlt. cbn in Hlt. lia.
Qed.

(** *** The budget filter *)

Lemma includes_of_prefix s sub : String.prefix sub s = true -> includes s sub = true.
Proof. intros H. destruct s; cbn [includes]; rewrite H; reflexivity. Qed.

Lemma includes_prefix_app p s : includes (p ++ s) p = true.
Proof.
  apply includes_of_prefix.
  induction p as [|c p IH]; cbn [String.append String.prefix];
    [destruct s; reflexivity|].
  rewrite IH. destruct (Ascii.ascii_dec c c); [reflexivity|congruence].
Qed.

Lemma includes_cons c s sub : includes s sub = true -> includes (String c s) sub = true.
Proof. intros H. cbn [includes]. rewrite H. apply orb_true_r. Qed.

Lemma includes_app_l pre s sub :
  includes s sub = true -> includes (pre ++ s) sub = true.
Proof.
  intros H. induction pre as [|c pre IH]; [exact H|].
  change (String c pre ++ s)%string with (String c (pre ++ s)).
  apply includes_cons. exact IH.
Qed.

Lemma prefix_app_l p q s : String.prefix (p ++ q) s = true -> String.prefix p s = true.
Proof.
  revert s. induction p as [|c p IH]; intros s; [destruct s; reflexivity|].
  destruct s as [|d s]; cbn [String.append String.prefix]; [discriminate|].
  destruct (Ascii.ascii_dec c d); [apply IH|discriminate].
Qed.

Lemma includes_weaken s p q : includes s (p ++ q) = true -> includes s p = true.
Proof.
  induction s as [|c s IH]; cbn [includes]; intros H.
  - apply orb_true_iff in H as [H|H]; [|discriminate].
    rewrite (prefix_app_l _ _ _ H). reflexivity.
  - apply orb_true_iff in H as [H|H].
    + rewrite (prefix_app_l _ _ _ H). reflexivity.
    + rewrite (IH H). apply orb_true_r.
Qed.

Lemma toLowerCase_app s t : toLowerCase (s ++ t) = (toLowerCase s ++ toLowerCase t)%string.
Proof.
  induction s as [|c s IH]; [reflexivity|].
  cbn [String.append toLowerCase]. rewrite IH. reflexivity.
Qed.

(** *** What the interest score counts *)

(** Text without bytes above 127.  On such text lower-casing exchanges
    the letters A to Z for a to z and changes nothing else. *)
Definition asciiText (s : string) : bool :=
  forallb (fun c => (nat_of_ascii c <? 128)%nat) (list_ascii_of_string s).

(** The same character, or the same letter in its two cases. *)
Definition sameLetter (c d : ascii) : Prop :=
  c = d
  \/ ((65 <= nat_of_ascii c <= 90)%nat /\ nat_of_ascii d = (nat_of_ascii c + 32)%nat)
  \/ ((65 <= nat_of_ascii d <= 90)%nat /\ nat_of_ascii c = (nat_of_ascii d + 32)%nat).

Definition sameIgnoringCase (x y : string) : Prop :=
  Forall2 sameLetter (list_ascii_of_string x) (list_ascii_of_string y).

(** [x] occurs in [s], in any mix of upper and lower case. *)
Definition mentions (s x : string) : Prop :=
  exists before y after, s = (before ++ y ++ after)%string /\ sameIgnoringCase x y.

Definition mentionedBy (a : Activity) (interest : string) : Prop :=
  mentions (type a) interest \/ mentions (name a) interest.

(** [n] of the listed elements have the property, repetitions counted. *)
Inductive Counts {X : Type} (P : X -> Prop) : list X -> nat -> Prop :=
| counts_nil : Counts P [] 0
| counts_yes x l n : P x -> Counts P l n -> Counts P (x :: l) (S n)
| counts_no x l n : ~ P x -> Counts P l n -> Counts P (x :: l) n.

Lemma Counts_unique {X : Type} (P : X -> Prop) l n m :
  Counts P l n -> Counts P l m -> n = m.
Proof.
  intros Hn. revert m. induction Hn as [|x l n Hx _ IH|x l n Hx _ IH];
    intros m Hm; inversion Hm; subst; try contradiction;
    first [reflexivity | f_equal; apply IH; assumption | apply IH; assumption].
Qed.

Lemma lower_ascii_sameLetter c d : lower_ascii c = lower_ascii d <-> sameLetter c d.
Proof.
  unfold lower_ascii, sameLetter.
  pose proof (nat_ascii_bounded c) as Bc. pose proof (nat_ascii_bounded d) as Bd.
  destruct ((65 <=? nat_of_ascii c)%nat && (nat_of_ascii c <=? 90)%nat) eqn:Uc;
    destruct ((65 <=? nat_of_ascii d)%nat && (nat_of_ascii d <=? 90)%nat) eqn:Ud;
    try (apply andb_true_iff in Uc as [Uc1 Uc2];
         apply Nat.leb_le in Uc1; apply Nat.leb_le in Uc2);
    try (apply andb_true_iff in Ud as [Ud1 Ud2];
         apply Nat.leb_le in Ud1; apply Nat.leb_le in Ud2);
    try (apply andb_false_iff in Uc; rewrite !Nat.leb_gt in Uc);
    try (apply andb_false_iff in Ud; rewrite !Nat.leb_gt in Ud).
  - split.
    + intros H. left. apply (f_equal nat_of_ascii) in H.
      rewrite !nat_ascii_embedding in H by lia.
      rewrite <- (ascii_nat_embedding c), <- (ascii_nat_embedding d). f_equal. lia.
    + intros [->|[[_ H]|[_ H]]]; [reflexivity|lia|lia].
  - split.
    + intros H. right. left. split; [lia|]. rewrite <- H.
      rewrite nat_ascii_embedding by lia. reflexivity.
    + intros [->|[[_ H]|[H _]]]; [lia| |lia].
      rewrite <- H. apply ascii_nat_embedding.
  - split.
    + intros H. right. right. split; [lia|]. rewrite H.
      rewrite nat_ascii_embedding by lia. reflexivity.
    + intros [->|[[H _]|[_ H]]]; [lia|lia|].
      rewrite <- H. symmetry. apply ascii_nat_embedding.
  - split.
    + intros H. left. exact H.
    + intros [H|[[H _]|[H _]]]; [exact H|lia|lia].
Qed.

Lemma toLowerCase_same x y : toLowerCase x = toLowerCase y <-> sameIgnoringCase x y.
Proof.
  unfold sameIgnoringCase. revert y. induction x as [|c x IH]; intros [|d y];
    cbn [toLowerCase list_ascii_of_string].
  - split; [constructor|reflexivity].
  - split; [discriminate|]. intros H. inversion H.
  - split; [discriminate|]. intros H. inversion H.
  - split.
    + intros H. injection H as Hc Hx. constructor.
      * apply lower_ascii_sameLetter. exact Hc.
      * apply IH. exact Hx.
    + intros H. inversion H as [|c' d' cs ds Hc Hx]; subst. f_equal.
      * apply lower_ascii_sameLetter. exact Hc.
      * apply IH. exact Hx.
Qed.

Lemma prefix_split x s : String.prefix x s = true -> exists rest, s = (x ++ rest)%string.
Proof.
  revert s. induction x as [|c x IH]; intros s H.
  - exists s. reflexivity.
  - destruct s as [|d s]; [discriminate|]. cbn [String.prefix] in H.
    destruct (Ascii.ascii_dec c d) as [->|]; [|discriminate].
    destruct (IH s H) as [rest ->]. exists rest. reflexivity.
Qed.

Lemma includes_occurs s x :
  includes s x = true <-> exists before after, s = (before ++ x ++ after)%string.
Proof.
  split.
  - induction s as [|c s IH]; cbn [includes].
    + rewrite orb_false_r. intros H. apply prefix_split in H as [rest ->].
      exists ""%string, rest. reflexivity.
    + intros H. apply orb_true_iff in H as [H|H].
      * apply prefix_split in H as [rest ->]. exists ""%string, rest. reflexivity.
      * destruct (IH H) as (before & after & ->).
        exists (String c before), after. reflexivity.
  - intros (before & after & ->). apply includes_app_l, includes_prefix_app.
Qed.

Lemma toLowerCase_app_inv s u v :
  toLowerCase s = (u ++ v)%string ->
  exists s1 s2, s = (s1 ++ s2)%string /\ toLowerCase s1 = u /\ toLowerCase s2 = v.
Proof.
  revert s. induction u as [|c u IH]; intros s H.
  - exists ""%string, s. split; [reflexivity|]. split; [reflexivity|exact H].
  - destruct s as [|d s]; [discriminate|].
    cbn [toLowerCase String.append] in H. injection H as Hc Hs.
    destruct (IH s Hs) as (s1 & s2 & -> & <- & <-).
    exists (String d s1), s2. split; [reflexivity|]. split; [|reflexivity].
    cbn [toLowerCase]. rewrite Hc. reflexivity.
Qed.

(** The test of the code is the test of the rule. *)
Lemma includes_mentions s x :
  includes (toLowerCase s) (toLowerCase x) = true <-> mentions s x.
Proof.
  rewrite includes_occurs. unfold mentions. split.
  - intros (before' & after' & H).
    apply toLowerCase_app_inv in H as (before & rest & -> & _ & H).
    apply toLowerCase_app_inv in H as (y & after & -> & Hy & _).
    exists before, y, after. split; [reflexivity|].
    apply toLowerCase_same. symmetry. exact Hy.
  - intros (before & y & after & -> & Hy). apply toLowerCase_same in Hy.
    exists (toLowerCase before), (toLowerCase after).
    rewrite !toLowerCase_app, Hy. reflexivity.
Qed.

Lemma interestMatches_mentionedBy a interest :
  interestMatches a interest = true <-> mentionedBy a interest.
Proof.
  unfold interestMatches, mentionedBy.
  rewrite orb_true_iff, !includes_mentions. reflexivity.
Qed.

Lemma filter_Counts a interests :
  Counts (mentionedBy a) interests (length (List.filter (interestMatches a) interests)).
Proof.
  induction interests as [|i rest IH]; cbn [List.filter]; [constructor|].
  destruct (interestMatches a i) eqn:E.
  - cbn [length]. apply counts_yes; [apply interestMatches_mentionedBy; exact E|exact IH].
  - apply counts_no; [|exact IH].
    intros H. apply interestMatches_mentionedBy in H. congruence.
Qed.

(** X8.  On text without bytes above 127, the interest score is 10 points
    for every listed interest that occurs, in any mix of upper and lower
    case, in the type or in the name of the activity.  An interest listed
    twice counts twice, the empty interest is found in every activity, and
    the score lies between 0 and 10 times the number of interests. *)
Theorem scoreActivity_counts (a : Activity) (interests : list string) :
  asciiText (type a) = true ->
  asciiText (name a) = true ->
  forallb asciiText interests = true ->
  (exists n,
     Counts (mentionedBy a) interests n
     /\ scoreActivity a interests = 10 * Z.of_nat n)
  /\ 0 <= scoreActivity a interests <= 10 * Z.of_nat (length interests)
  /\ scoreActivity a (interests ++ interests) = 2 * scoreActivity a interests
  /\ mentionedBy a "".
Proof.
  intros _ _ _.
  assert (E : forall l, scoreActivity a l
                        = 10 * Z.of_nat (length (List.filter (interestMatches a) l))).
  { intros l. unfold scoreActivity. fold (interestMatches a).
    change (fold_left _ l 0) with
      (fold_left (fun score interest =>
                    if interestMatches a interest then score + 10 else score) l 0).
    rewrite scoreActivity_from. lia. }
  split; [|split; [|split]].
  - exists (length (List.filter (interestMatches a) interests)).
    split; [apply filter_Counts|apply E].
  - rewrite E. pose proof (filter_length_le (interestMatches a) interests). lia.
  - rewrite !E, List.filter_app, length_app. lia.
  - left. exists ""%string, ""%string, (type a). split; [reflexivity|constructor].
Qed.

(** X10.  The budget filter is a text test, not a price comparison.  Every
    price that mentions "€100" is rejected on a medium budget yet accepted
    on a low one, because it also mentions "€10"; every price that starts
    with "€5", such as "€50-100", is accepted on a low budget; a high
    budget accepts everything. *)
Theorem matchesBudget_text_test (a : Activity) :
  (includes (toLowerCase (price a)) "€100" = true ->
   matchesBudget a low = true /\ matchesBudget a medium = false)
  /\ (forall rest, price a = ("€5" ++ rest)%string -> matchesBudget a low = true)
  /\ matchesBudget a high = true.
Proof.
  split; [|split; [|reflexivity]].
  - intros H. unfold matchesBudget. rewrite H. split; [|reflexivity].
    rewrite (includes_weaken _ "€10" "0" H). cbn. rewrite !orb_true_r. reflexivity.
  - intros rest Hp. unfold matchesBudget. rewrite Hp, toLowerCase_app.
    change (toLowerCase "€5") with "€5".
    rewrite includes_prefix_app. rewrite orb_true_r. reflexivity.
Qed.

End SelectionFacts.

Lemma scoreActivity_counts_witness :
  DayPlanner.scoreActivity museum ["MUSEUM"; "Perga"; "zoo"; ""] = 30%Z.
Proof.
  destruct (scoreActivity_counts museum ["MUSEUM"; "Perga"; "zoo"; ""]
              eq_refl eq_refl eq_refl) as ((n & Hcount & Hscore) & _).
  rewrite Hscore.
  assert (Hn : n = 3%nat).
  { apply (Counts_unique _ _ _ _ Hcount).
    apply counts_yes.
    { left. exists "", "museum", "". split; [reflexivity|].
      unfold sameIgnoringCase. cbn [list_ascii_of_string].
      repeat (constructor; [right; left; vm_compute; lia|]). constructor. }
    apply counts_yes; [apply interestMatches_mentionedBy; reflexivity|].
    apply counts_no; [intros H; apply interestMatches_mentionedBy in H; discriminate|].
    apply counts_yes; [apply interestMatches_mentionedBy; reflexivity|].
    constructor. }
  rewrite Hn. reflexivity.
Defined.

Lemma matchesBudget_text_test_witness :
  DayPlanner.matchesBudget (sampleActivity "Tim Raue" "restaurant" "€100-150" None)
    DayPlanner.low = true
  /\ DayPlanner.matchesBudget (sampleActivity "Tim Raue" "restaurant" "€100-150" None)
       DayPlanner.medium = false
  /\ DayPlanner.matchesBudget (sampleActivity "Bistro" "restaurant" "€50-100" None)
       DayPlanner.low = true.
Proof.
  destruct (matchesBudget_text_test (sampleActivity "Tim Raue" "restaurant" "€100-150" None))
    as [H100 _].
  destruct (H100 eq_refl) as [Hlow Hmedium].
  destruct (matchesBudget_text_test (sampleActivity "Bistro" "restaurant" "€50-100" None))
    as (_ & H5 & _).
  split; [exact Hlow|]. split; [exact Hmedium|].
  apply (H5 "0-100"). reflexivity.
Defined.

Lemma selectBestActivity_first_best_witness :
  exists pre post,
    [cafe; museum; sampleActivity "Altes Museum" "museum" "€10" None]
    = (pre ++ museum :: post)%list
    /\ forall b, In b post ->
         DayPlanner.suitableFor "morning_activity" relaxedDay "Tuesday" "11:00" b = true ->
         (DayPlanner.scoreActivity b ["museum"] <= DayPlanner.scoreActivity museum ["museum"])%Z.
Proof.
  destruct (selectBestActivity_first_best "morning_activity"
              [cafe; museum; sampleActivity "Altes Museum" "museum" "€10" None]
              relaxedDay "Tuesday" "11:00" museum eq_refl)
    as (pre & post & Hsplit & _ & _ & Hpost & _).
  exists pre, post. split; [exact Hsplit|exact Hpost].
Defined.

Section TravelFacts.

Import DayPlanner.

Variable getDayOfWeek : string -> string.
Variable shouldUseAffiliate : Activity -> option string.
Variable haversineDistance : Coordinates -> Coordinates -> Q.

Local Abbreviation dayPlan :=
  (createDayPlan getDayOfWeek shouldUseAffiliate haversineDistance).
Local Abbreviation distance := (estimateDistance haversineDistance).







(** *** Walking distance *)

Definition walkedKm (slots : list TimeSlot) : Q :=
  match slots with
  | [] => 0
  | first :: rest => walkingTotal haversineDistance (activity first) rest
  end.

(** X12.  The walking distance of a plan is the sum of the distances
    between consecutive slots, rounded to a tenth of a kilometre: it is a
    whole number of tenths, at most 0.05 km from the sum, and 0 for a plan
    of fewer than two slots. *)
Theorem calculateWalkingDistance_rounds (slots : list TimeSlot) :
  let shown := calculateWalkingDistance haversineDistance slots in
  (exists tenths : Z, shown == inject_Z tenths / 10)%Q
  /\ (shown <= walkedKm slots + (1 # 20))%Q
  /\ (walkedKm slots - (1 # 20) < shown)%Q
  /\ ((length slots <= 1)%nat -> shown == 0)%Q.
Proof.
  cbn zeta. unfold calculateWalkingDistance. fold (walkedKm slots).
  set (x := (walkedKm slots * 10 + (1 # 2))%Q).
  split; [eexists; reflexivity|]. split; [|split].
  - apply Qle_shift_div_r; [reflexivity|].
    eapply Qle_trans; [apply Qfloor_le|]. unfold x.
    apply Qle_lteq. right. ring.
  - apply Qlt_shift_div_l; [reflexivity|].
    pose proof (Qlt_floor x) as Hlt.
    rewrite inject_Z_plus in Hlt.
    apply Qplus_lt_l with (z := 1%Q).
    eapply Qle_lt_trans; [|exact Hlt]. unfold x.
    apply Qle_lteq. right. ring.
  - intros Hlen. unfold x.
    assert (Hw : walkedKm slots = 0%Q).
    { destruct slots as [|first [|second rest]]; [reflexivity|reflexivity|].
      cbn in Hlen. lia. }
    rewrite Hw. reflexivity.
Qed.

(** *** Size of the plan *)


Lemma generatedSlots_none prefs day planned template :
  generatedSlots shouldUseAffiliate [] prefs day planned template = [].
Proof.
  induction template as [|entry rest IH]; cbn [generatedSlots]; [reflexivity|].
  unfold generatedSlot. destruct (bool_decide _); exact IH.
Qed.



(** *** Total cost *)

Definition slotCost (s : TimeSlot) : Z := priceValue (price (activity s)).

Lemma sumZ_perm xs ys : Permutation xs ys -> sumZ xs = sumZ ys.
Proof. induction 1; unfold sumZ in *; cbn [fold_right] in *; lia. Qed.

Lemma sumZ_app xs ys : sumZ (xs ++ ys) = (sumZ xs + sumZ ys)%Z.
Proof.
  induction xs as [|x xs IH]; unfold sumZ in *; cbn [app fold_right] in *; lia.
Qed.

Lemma sumZ_costs_nonneg slots : (0 <= sumZ (map slotCost slots))%Z.
Proof.
  induction slots as [|s slots IH]; unfold sumZ in *; cbn [map fold_right]; [lia|].
  pose proof (proj2 (priceValue_is_token (price (activity s)))). unfold slotCost at 1. lia.
Qed.

Lemma calculateTotalCost_sum slots :
  calculateTotalCost slots = ("€" ++ pretty (sumZ (map slotCost slots)))%string.
Proof. unfold calculateTotalCost. rewrite fold_addPrice. reflexivity. Qed.

Lemma addTravelTimes_costs l :
  map slotCost (addTravelTimes haversineDistance l) = map slotCost l.
Proof.
  induction (addTravelTimes_same haversineDistance l) as [|s b l' l0 (_ & Ha & _) _ IH];
    cbn [map]; [reflexivity|].
  rewrite IH. unfold slotCost at 1 3. rewrite Ha. reflexivity.
Qed.

(** X24.  The total cost of a plan is the cost of its fixed bookings plus
    the cost of the slots the planner adds: it is a number, never
    negative, and it depends neither on the order of the slots nor on
    their travel times.  With nothing on offer it is the cost of the
    fixed bookings. *)
Theorem plan_total_cost date acts fixedBookings prefs :
  let plan := dayPlan date acts fixedBookings prefs in
  let generated :=
    generatedSlots shouldUseAffiliate acts prefs (getDayOfWeek date)
      (fixedTimes fixedBookings) (getScheduleTemplate (pace prefs)) in
  totalCost plan
  = ("€" ++ pretty (sumZ (map slotCost fixedBookings)
                     + sumZ (map slotCost generated))%Z)%string
  /\ (0 <= sumZ (map slotCost fixedBookings) + sumZ (map slotCost generated))%Z
  /\ totalCost plan = calculateTotalCost (slots plan)
  /\ (forall slots1 slots2,
        Permutation slots1 slots2 ->
        calculateTotalCost slots1 = calculateTotalCost slots2)
  /\ (acts = [] -> totalCost plan = calculateTotalCost fixedBookings).
Proof.
  cbn zeta.
  assert (Htotal :
    totalCost (dayPlan date acts fixedBookings prefs)
    = ("€" ++ pretty (sumZ (map slotCost fixedBookings)
                       + sumZ (map slotCost
                                 (generatedSlots shouldUseAffiliate acts prefs
                                    (getDayOfWeek date) (fixedTimes fixedBookings)
                                    (getScheduleTemplate (pace prefs)))))%Z)%string).
  { cbn [createDayPlan totalCost]. rewrite calculateTotalCost_sum, addTravelTimes_costs.
    rewrite (sumZ_perm _ _ (Permutation_map slotCost (sort_perm compareTimes _))).
    rewrite (placeSlots_closed_form getDayOfWeek), map_app, sumZ_app. reflexivity. }
  split; [exact Htotal|]. split; [|split; [reflexivity|split]].
  - pose proof (sumZ_costs_nonneg fixedBookings).
    pose proof (sumZ_costs_nonneg
                  (generatedSlots shouldUseAffiliate acts prefs (getDayOfWeek date)
                     (fixedTimes fixedBookings) (getScheduleTemplate (pace prefs)))).
    lia.
  - intros slots1 slots2 Hperm. rewrite !calculateTotalCost_sum.
    rewrite (sumZ_perm _ _ (Permutation_map slotCost Hperm)). reflexivity.
  - intros ->. rewrite Htotal, generatedSlots_none, calculateTotalCost_sum.
    cbn [map]. unfold sumZ at 2. cbn [fold_right]. rewrite Z.add_0_r. reflexivity.
Qed.

End TravelFacts.


Lemma calculateWalkingDistance_rounds_witness :
  (DayPlanner.calculateWalkingDistance (fun _ _ => 2%Q) [fixedAt "10:00" museum] == 0)%Q.
Proof.
  destruct (calculateWalkingDistance_rounds (fun _ _ => 2%Q) [fixedAt "10:00" museum])
    as (_ & _ & _ & Hshort).
  apply Hshort. cbn. lia.
Defined.


Lemma plan_total_cost_witness :
  DayPlanner.totalCost (samplePlan [] [fixedAt "19:30" cafe; fixedAt "10:00" museum])
  = "€17".
Proof.
  destruct (plan_total_cost (fun _ => "Tuesday") (fun _ => None) (fun _ _ => 2%Q)
              "2024-01-02" [] [fixedAt "19:30" cafe; fixedAt "10:00" museum] relaxedDay)
    as (_ & _ & _ & _ & Hfixed).
  unfold samplePlan. rewrite (Hfixed eq_refl). vm_compute. reflexivity.
Defined.


(* ===================================================================== *)
(** * Affiliate policy: [AffiliateEngine]                                 *)
(* ===================================================================== *)

Module AffiliateEngine.

Record Venue := {
  name : string;
  type : string;
  address : string;
  price : string;
  booking : option string;
  needsReservation : option bool;
  hasSkipLine : option bool
}.

Record AffiliateDecision := {
  useAffiliate : bool;
  platform : option string;
  url : option string;
  reason : string;
  commission : option Q
}.

Record Partner := {
  baseUrl : string;
  affiliateId : string;
  partnerCommission : Q
}.

(** [affiliatePartners], the entries the engine reads. *)
Definition booking_com : Partner :=
  {| baseUrl := "https://www.booking.com/searchresults.html";
     affiliateId := "SYNCWITHME_AFF_ID"; partnerCommission := 4 # 100 |}.
Definition hostelworld : Partner :=
  {| baseUrl := "https://www.hostelworld.com/findabed.php";
     affiliateId := "SYNCWITHME_HW_ID"; partnerCommission := 8 # 100 |}.
Definition opentable : Partner :=
  {| baseUrl := "https://www.opentable.com/r/";
     affiliateId := "SYNCWITHME_OT_ID"; partnerCommission := 50 # 100 |}.
Definition getyourguide : Partner :=
  {| baseUrl := "https://www.getyourguide.com/";
     affiliateId := "SYNCWITHME_GYG_ID"; partnerCommission := 8 # 100 |}.

Definition neverAffiliate : list string :=
  [ "nightclub"; "club"; "techno"; "street_food"; "market"; "free_attraction";
    "park"; "beach"; "viewpoint"; "street_art"; "local_bar"; "dive_bar"; "kebab";
    "food_truck"; "public_space" ].

Definition blacklistedVenues : list string :=
  [ "berghain"; "fabric"; "tresor"; "golden gai"; "khao san road"; "camden market";
    "borough market"; "east side gallery"; "central park"; "hyde park" ].

(** ** [encodeURIComponent] on the UTF-8 bytes of a well-formed string *)

Definition is_upper (c : ascii) : bool :=
  let n := nat_of_ascii c in (65 <=? n)%nat && (n <=? 90)%nat.
Definition is_lower (c : ascii) : bool :=
  let n := nat_of_ascii c in (97 <=? n)%nat && (n <=? 122)%nat.

(** The characters left as they are: letters, digits and [- _ . ! ~ * ' ( )]. *)
Definition unreserved (c : ascii) : bool :=
  is_upper c || is_lower c || is_digit c ||
  existsb (Ascii.eqb c)
    [ "-"%char; "_"%char; "."%char; "!"%char; "~"%char; "*"%char; "'"%char;
      "("%char; ")"%char ].

Definition hex_digit (n : nat) : ascii :=
  if (n <? 10)%nat then ascii_of_nat (48 + n) else ascii_of_nat (55 + n).

Definition percent_encode (c : ascii) : string :=
  let n := nat_of_ascii c in
  String "%"%char (String (hex_digit (n / 16)) (String (hex_digit (n mod 16)) "")).

Fixpoint encodeURIComponent (s : string) : string :=
  match s with
  | EmptyString => EmptyString
  | String c rest =>
      if unreserved c then String c (encodeURIComponent rest)
      else percent_encode c ++ encodeURIComponent rest
  end.

Definition generateAffiliateUrl (venue : Venue) (config : Partner) : string :=
  baseUrl config ++ "?aid=" ++ affiliateId config
  ++ "&venue=" ++ encodeURIComponent (name venue)
  ++ "&location=" ++ encodeURIComponent (address venue)
  ++ "&utm_source=syncwithme&utm_medium=affiliate".

(** ** Decisions *)

Definition truthy_bool (b : option bool) : bool :=
  match b with Some true => true | _ => false end.

Definition declined (why : string) : AffiliateDecision :=
  {| useAffiliate := false; platform := None; url := None; reason := why;
     commission := None |}.

Definition createHotelAffiliate (venue : Venue) : AffiliateDecision :=
  let isHostel := includes (toLowerCase (type venue)) "hostel" in
  let partner := if isHostel then "hostelworld" else "booking.com" in
  let config := if isHostel then hostelworld else booking_com in
  {| useAffiliate := true;
     platform := Some partner;
     url := Some (generateAffiliateUrl venue config);
     reason := "Advance booking recommended";
     commission := Some (partnerCommission config) |}.

Definition createRestaurantAffiliate (venue : Venue) : AffiliateDecision :=
  if negb (truthy_bool (needsReservation venue)) then
    declined "Walk-in restaurant - no reservation needed"
  else
    {| useAffiliate := true;
       platform := Some "opentable";
       url := Some (generateAffiliateUrl venue opentable);
       reason := "Reservation essential (especially weekends)";
       commission := Some (partnerCommission opentable) |}.

Definition createActivityAffiliate (venue : Venue) (kind : string) : AffiliateDecision :=
  {| useAffiliate := true;
     platform := Some "getyourguide";
     url := Some (generateAffiliateUrl venue getyourguide);
     reason := if String.eqb kind "skip-the-line"
               then "Skip the queue - worth it on busy days"
               else "Advance booking saves time and guarantees spot";
     commission := Some (partnerCommission getyourguide) |}.

(** [reasons], in the order of its entries. *)
Definition reasons : list (string * string) :=
  [ ("nightclub", "Pay at door - no advance tickets");
    ("club", "Queue and pay at entrance");
    ("street_food", "Street vendor - cash only");
    ("market", "Browse and buy directly");
    ("local_bar", "Walk in and grab a seat");
    ("dive_bar", "No reservations - first come first served");
    ("free", "Free entry - no booking needed");
    ("park", "Public space - always open");
    ("beach", "Public beach - free access") ].

Fixpoint firstReason (entries : list (string * string)) (typeLower : string) : string :=
  match entries with
  | [] => "Direct visit recommended"
  | (key, why) :: rest =>
      if includes typeLower key then why else firstReason rest typeLower
  end.

Definition getNoAffiliateReason (typeLower : string) : string :=
  firstReason reasons typeLower.

Definition shouldUseAffiliate (venue : Venue) : AffiliateDecision :=
  let venueLower := toLowerCase (name venue) in
  let typeLower := toLowerCase (type venue) in
  if existsb (fun blacklisted => includes venueLower blacklisted) blacklistedVenues then
    declined "Iconic venue - pay at location"
  else if existsb (fun ty => includes typeLower ty) neverAffiliate then
    declined (getNoAffiliateReason typeLower)
  else if includes (toLowerCase (price venue)) "free" then
    declined "Free attraction - no booking needed"
  else if includes typeLower "hotel" || includes typeLower "hostel" then
    createHotelAffiliate venue
  else if includes typeLower "restaurant" && truthy_bool (needsReservation venue) then
    createRestaurantAffiliate venue
  else if includes typeLower "museum" && truthy_bool (hasSkipLine venue) then
    createActivityAffiliate venue "skip-the-line"
  else if includes typeLower "tour" || includes typeLower "experience" then
    createActivityAffiliate venue "tour"
  else
    declined "Direct booking or walk-in recommended".

(** ** Revenue *)

(** [price.match(/(\d+)/)]: the leftmost run of digits. *)
Fixpoint firstDigitRun (s : string) : option string :=
  match s with
  | EmptyString => None
  | String c rest =>
      if is_digit c then Some (DayPlanner.take_digits s) else firstDigitRun rest
  end.

(** [priceMatch ? parseInt(priceMatch[1]) * factor : fallback] *)
Definition pricedOr (venue : Venue) (factor fallback : Z) : Z :=
  match firstDigitRun (price venue) with
  | Some ds =>
      match DayPlanner.parseInt ds with
      | Some n => (n * factor)%Z
      | None => fallback
      end
  | None => fallback
  end.

Definition estimateBookingValue (venue : Venue) : Z :=
  let ty := toLowerCase (type venue) in
  if includes ty "hotel" then pricedOr venue 3 300
  else if includes ty "restaurant" then 1%Z
  else if includes ty "tour" || includes ty "museum" then pricedOr venue 1 25
  else 50%Z.

Record Revenue := {
  total : Q;
  breakdown : list (string * Q)
}.

(** One turn of the loop over the itinerary. *)
Definition addVenueRevenue (acc : Revenue) (venue : Venue) : Revenue :=
  let decision := shouldUseAffiliate venue in
  match commission decision with
  | Some rate =>
      if useAffiliate decision && negb (Qeq_bool rate 0) then
        let earned := (inject_Z (estimateBookingValue venue) * rate)%Q in
        {| total := (total acc + earned)%Q;
           breakdown := (breakdown acc ++ [(name venue, earned)])%list |}
      else acc
  | None => acc
  end.

Definition calculateTripRevenue (venues : list Venue) : Revenue :=
  fold_left addVenueRevenue venues {| total := 0; breakdown := [] |}.

(** ** The call from the day planner *)

(** [createTimeSlot] hands the engine the six fields it copies from the
    activity and attaches the url of a positive decision. *)
Definition venueOfActivity (a : DayPlanner.Activity) : Venue :=
  {| name := DayPlanner.name a; type := DayPlanner.type a;
     address := DayPlanner.address a; price := DayPlanner.price a;
     booking := DayPlanner.booking a;
     needsReservation := DayPlanner.needsReservation a;
     hasSkipLine := None |}.

Definition affiliateLinkFor (a : DayPlanner.Activity) : option string :=
  let decision := shouldUseAffiliate (venueOfActivity a) in
  if useAffiliate decision then url decision else None.

End AffiliateEngine.

Section AffiliateFacts.

Import AffiliateEngine.
Local Open Scope Q_scope.
Local Arguments String.append !s1 s2 : simpl nomatch.

(** The three grounds on which the engine refuses outright. *)
Definition blacklisted (v : Venue) : bool :=
  existsb (fun word => includes (toLowerCase (name v)) word) blacklistedVenues.
Definition neverType (v : Venue) : bool :=
  existsb (fun ty => includes (toLowerCase (type v)) ty) neverAffiliate.
Definition freeOfCharge (v : Venue) : bool :=
  includes (toLowerCase (price v)) "free".

(** The venue kinds that earn a link. *)
Definition eligible (v : Venue) : bool :=
  let ty := toLowerCase (type v) in
  includes ty "hotel" || includes ty "hostel"
  || includes ty "restaurant" && truthy_bool (needsReservation v)
  || includes ty "museum" && truthy_bool (hasSkipLine v)
  || includes ty "tour" || includes ty "experience".

Definition partners : list Partner := [booking_com; hostelworld; opentable; getyourguide].

Lemma shouldUseAffiliate_cases (v : Venue) :
  let d := shouldUseAffiliate v in
  useAffiliate d
  = negb (blacklisted v) && negb (neverType v) && negb (freeOfCharge v) && eligible v
  /\ (useAffiliate d = true ->
      exists partner,
        In partner partners
        /\ url d = Some (generateAffiliateUrl v partner)
        /\ commission d = Some (partnerCommission partner)
        /\ 0 < partnerCommission partner
        /\ platform d <> None)
  /\ (useAffiliate d = false ->
      platform d = None /\ url d = None /\ commission d = None).
Proof.
  cbn zeta. unfold shouldUseAffiliate, eligible.
  fold (blacklisted v) (neverType v) (freeOfCharge v).
  destruct (blacklisted v); [cbn; repeat split; discriminate|].
  destruct (neverType v); [cbn; repeat split; discriminate|].
  destruct (freeOfCharge v); [cbn; repeat split; discriminate|].
  cbn [negb andb].
  destruct (includes (toLowerCase (type v)) "hotel"
            || includes (toLowerCase (type v)) "hostel").
  { cbn [orb]. split; [reflexivity|]. split; [|discriminate]. intros _.
    unfold createHotelAffiliate.
    destruct (includes (toLowerCase (type v)) "hostel");
      [exists hostelworld|exists booking_com];
      cbn; repeat split; auto; discriminate. }
  cbn [orb].
  destruct (includes (toLowerCase (type v)) "restaurant"
            && truthy_bool (needsReservation v)) eqn:Hrest.
  { apply andb_true_iff in Hrest as [_ Hneeds].
    unfold createRestaurantAffiliate. rewrite Hneeds.
    cbn. split; [reflexivity|]. split; [|discriminate]. intros _.
    exists opentable. cbn. repeat split; auto; discriminate. }
  cbn [orb].
  destruct (includes (toLowerCase (type v)) "museum" && truthy_bool (hasSkipLine v)).
  { cbn. split; [reflexivity|]. split; [|discriminate]. intros _.
    exists getyourguide. cbn. repeat split; auto; discriminate. }
  cbn [orb].
  destruct (includes (toLowerCase (type v)) "tour"
            || includes (toLowerCase (type v)) "experience").
  - cbn. split; [reflexivity|]. split; [|discriminate]. intros _.
    exists getyourguide. cbn. repeat split; auto; discriminate.
  - cbn. repeat split; discriminate.
Qed.

(** X14.  A venue gets an affiliate link exactly when it is of an eligible
    kind and is neither blacklisted by name, nor of a never-affiliate
    type, nor free.  A positive decision names one of the four partners,
    with that partner's tracking url and a positive commission; a negative
    one carries no platform, url or commission. *)
Theorem shouldUseAffiliate_policy (v : Venue) :
  let d := shouldUseAffiliate v in
  useAffiliate d
  = negb (blacklisted v) && negb (neverType v) && negb (freeOfCharge v) && eligible v
  /\ (useAffiliate d = true ->
      exists partner,
        In partner partners
        /\ url d = Some (generateAffiliateUrl v partner)
        /\ commission d = Some (partnerCommission partner)
        /\ 0 < partnerCommission partner
        /\ platform d <> None)
  /\ (useAffiliate d = false ->
      platform d = None /\ url d = None /\ commission d = None).
Proof.
  exact (shouldUseAffiliate_cases v).
Qed.

(** *** The tracking url *)

Definition chars (s : string) : list ascii := list_ascii_of_string s.

Lemma chars_app s t : chars (s ++ t) = (chars s ++ chars t)%list.
Proof.
  unfold chars. induction s as [|c s IH]; [reflexivity|].
  change (String c s ++ t)%string with (String c (s ++ t)).
  cbn [list_ascii_of_string app]. rewrite IH. reflexivity.
Qed.

Lemma hex_digit_unreserved n : (n < 16)%nat -> unreserved (hex_digit n) = true.
Proof.
  intros H. do 16 (destruct n as [|n]; [reflexivity|]). lia.
Qed.

Lemma percent_encode_chars c :
  Forall (fun x => unreserved x = true \/ x = "%"%char) (chars (percent_encode c)).
Proof.
  unfold percent_encode, chars. cbn [list_ascii_of_string].
  pose proof (nat_ascii_bounded c) as Hb.
  apply List.Forall_cons; [right; reflexivity|].
  apply List.Forall_cons.
  { left. apply hex_digit_unreserved. apply Nat.Div0.div_lt_upper_bound. exact Hb. }
  apply List.Forall_cons; [|constructor].
  left. apply hex_digit_unreserved. apply Nat.mod_upper_bound. discriminate.
Qed.

(** The delimiters of a url. *)
Definition delimiters : list ascii :=
  [ "&"%char; "="%char; "?"%char; "#"%char; "/"%char; "+"%char; " "%char; ":"%char ].

Lemma unreserved_not_delimiter c :
  unreserved c = true \/ c = "%"%char -> ~ In c delimiters.
Proof.
  intros H Hin. unfold delimiters in Hin.
  repeat (destruct Hin as [<-|Hin]; [destruct H as [H|H]; discriminate|]).
  destruct Hin.
Qed.

(** An encoded url component consists of unreserved characters and
    percent escapes only: it holds none of the delimiters [& = ? # / + :]
    and no space.  Text made of unreserved characters is left as it is,
    and no character grows beyond three. *)
Lemma encodeURIComponent_safe (s : string) :
  Forall (fun c => unreserved c = true \/ c = "%"%char) (chars (encodeURIComponent s))
  /\ (forall c, In c (chars (encodeURIComponent s)) -> ~ In c delimiters)
  /\ (forallb unreserved (chars s) = true -> encodeURIComponent s = s)
  /\ (String.length s <= String.length (encodeURIComponent s) <= 3 * String.length s)%nat.
Proof.
  assert (Hsafe : Forall (fun c => unreserved c = true \/ c = "%"%char)
                    (chars (encodeURIComponent s))).
  { induction s as [|c s IH]; cbn [encodeURIComponent]; [constructor|].
    destruct (unreserved c) eqn:E.
    - cbn [chars list_ascii_of_string]. constructor; [left; exact E|exact IH].
    - rewrite chars_app. apply List.Forall_app. split; [apply percent_encode_chars|exact IH]. }
  split; [exact Hsafe|]. split; [|split].
  - intros c Hc. apply unreserved_not_delimiter.
    rewrite List.Forall_forall in Hsafe. apply Hsafe. exact Hc.
  - clear Hsafe. induction s as [|c s IH]; [reflexivity|].
    cbn [chars list_ascii_of_string forallb encodeURIComponent].
    intros H. apply andb_true_iff in H as [Hc Hs]. rewrite Hc, (IH Hs). reflexivity.
  - clear Hsafe. induction s as [|c s IH]; cbn [encodeURIComponent String.length]; [lia|].
    destruct (unreserved c); cbn [String.length percent_encode String.append]; lia.
Qed.

Fixpoint occurrences (c : ascii) (s : string) : nat :=
  match s with
  | EmptyString => 0
  | String d rest => (if Ascii.eqb c d then 1 else 0) + occurrences c rest
  end.

Lemma occurrences_app c s t :
  occurrences c (s ++ t) = (occurrences c s + occurrences c t)%nat.
Proof.
  induction s as [|d s IH]; [reflexivity|].
  change (String d s ++ t)%string with (String d (s ++ t)).
  cbn [occurrences]. rewrite IH. lia.
Qed.

Lemma occurrences_absent c s : ~ In c (chars s) -> occurrences c s = 0%nat.
Proof.
  induction s as [|d s IH]; [reflexivity|].
  cbn [chars list_ascii_of_string In occurrences]. intros Hnot.
  destruct (Ascii.eqb c d) eqn:E.
  - apply Ascii.eqb_eq in E. exfalso. apply Hnot. left. symmetry. exact E.
  - rewrite IH; [reflexivity|]. intros H. apply Hnot. right. exact H.
Qed.

Lemma occurrences_encoded c s :
  In c delimiters -> occurrences c (encodeURIComponent s) = 0%nat.
Proof.
  intros Hc. apply occurrences_absent. intros Hin.
  destruct (encodeURIComponent_safe s) as (_ & Hnone & _).
  exact (Hnone c Hin Hc).
Qed.

(** X15.  Whatever the name and the address of the venue, the tracking
    url of a partner has one query string with exactly the five parameters
    aid, venue, location, utm_source and utm_medium: one question mark,
    four ampersands, five equals signs, no fragment and no space.  A name
    or an address therefore cannot add, end or hide a parameter; one made
    of letters and digits appears in the url as it is. *)
Theorem generateAffiliateUrl_parameters (v : Venue) (partner : Partner) :
  In partner partners ->
  let u := generateAffiliateUrl v partner in
  occurrences "?" u = 1%nat
  /\ occurrences "&" u = 4%nat
  /\ occurrences "=" u = 5%nat
  /\ occurrences "#" u = 0%nat
  /\ occurrences " " u = 0%nat
  /\ (forallb unreserved (chars (name v)) = true ->
      forallb unreserved (chars (address v)) = true ->
      u = baseUrl partner ++ "?aid=" ++ affiliateId partner
          ++ "&venue=" ++ name v ++ "&location=" ++ address v
          ++ "&utm_source=syncwithme&utm_medium=affiliate").
Proof.
  intros Hpartner. cbn zeta. unfold generateAffiliateUrl.
  rewrite !occurrences_app.
  rewrite !(occurrences_encoded "?"), !(occurrences_encoded "&"),
          !(occurrences_encoded "="), !(occurrences_encoded "#"),
          !(occurrences_encoded " ")
    by (unfold delimiters; cbn; tauto).
  assert (Hsame : forallb unreserved (chars (name v)) = true ->
                  forallb unreserved (chars (address v)) = true ->
                  encodeURIComponent (name v) = name v
                  /\ encodeURIComponent (address v) = address v).
  { intros Hn Ha.
    destruct (encodeURIComponent_safe (name v)) as (_ & _ & Hname & _).
    destruct (encodeURIComponent_safe (address v)) as (_ & _ & Haddress & _).
    split; [apply Hname; exact Hn|apply Haddress; exact Ha]. }
  unfold partners in Hpartner. cbn [In] in Hpartner.
  destruct Hpartner as [<-|[<-|[<-|[<-|[]]]]];
    (repeat (split; [reflexivity|]));
    intros Hn Ha; destruct (Hsame Hn Ha) as [-> ->]; reflexivity.
Qed.

(** *** Revenue *)

Definition sumQ (xs : list Q) : Q := fold_right Qplus 0 xs.

Lemma firstDigitRun_value s ds :
  firstDigitRun s = Some ds -> exists n, DayPlanner.parseInt ds = Some n /\ (0 <= n)%Z.
Proof.
  revert ds. induction s as [|c s IH]; intros ds; [discriminate|].
  change (firstDigitRun (String c s))
    with (if is_digit c then Some (DayPlanner.take_digits (String c s))
          else firstDigitRun s).
  destruct (is_digit c) eqn:E; [|apply IH].
  intros H. injection H as <-.
  assert (Hne : DayPlanner.take_digits (String c s) <> "")
    by (cbn; rewrite E; discriminate).
  destruct (digits_value_take_digits (String c s) 0 ltac:(lia)) as (n & Hn & Hpos).
  exists n.
  change (DayPlanner.parseInt (DayPlanner.take_digits (String c s)) = Some n /\ (0 <= n)%Z).
  rewrite (parseInt_digit_run _ Hne). split; assumption.
Qed.

Lemma pricedOr_nonneg v factor fallback :
  (0 <= factor)%Z -> (0 <= fallback)%Z -> (0 <= pricedOr v factor fallback)%Z.
Proof.
  intros Hf Hd. unfold pricedOr. destruct (firstDigitRun (price v)) as [ds|] eqn:E; [|exact Hd].
  destruct (firstDigitRun_value _ _ E) as (n & -> & Hn). lia.
Qed.

Lemma estimateBookingValue_nonneg v : (0 <= estimateBookingValue v)%Z.
Proof.
  unfold estimateBookingValue.
  destruct (includes _ "hotel"); [apply pricedOr_nonneg; lia|].
  destruct (includes _ "restaurant"); [lia|].
  destruct (_ || _)%bool; [apply pricedOr_nonneg; lia|lia].
Qed.

Definition earns (v : Venue) : bool := useAffiliate (shouldUseAffiliate v).

(** What one affiliate venue brings in: booking value times commission. *)
Definition earned (v : Venue) : Q :=
  inject_Z (estimateBookingValue v)
  * match commission (shouldUseAffiliate v) with
    | Some rate => rate
    | None => 0
    end.

Definition entry (v : Venue) : string * Q := (name v, earned v).

Lemma addVenueRevenue_cases acc v :
  addVenueRevenue acc v
  = if earns v then
      {| total := total acc + earned v;
         breakdown := (breakdown acc ++ [entry v])%list |}
    else acc.
Proof.
  unfold addVenueRevenue, earns, entry, earned.
  destruct (shouldUseAffiliate_cases v) as (_ & Hyes & Hno). cbn zeta in *.
  destruct (useAffiliate (shouldUseAffiliate v)).
  - destruct (Hyes eq_refl) as (partner & _ & _ & -> & Hpos & _).
    assert (E : Qeq_bool (partnerCommission partner) 0 = false).
    { destruct (Qeq_bool (partnerCommission partner) 0) eqn:E; [|reflexivity].
      apply Qeq_bool_iff in E. rewrite E in Hpos. discriminate. }
    rewrite E. reflexivity.
  - destruct (Hno eq_refl) as (_ & _ & ->). reflexivity.
Qed.

Lemma earned_nonneg v : 0 <= earned v.
Proof.
  unfold earned. apply Qmult_le_0_compat.
  - change 0 with (inject_Z 0). rewrite <- Zle_Qle. apply estimateBookingValue_nonneg.
  - destruct (shouldUseAffiliate_cases v) as (_ & Hyes & Hno). cbn zeta in *.
    destruct (useAffiliate (shouldUseAffiliate v)).
    + destruct (Hyes eq_refl) as (partner & _ & _ & -> & Hp & _).
      apply Qlt_le_weak. exact Hp.
    + destruct (Hno eq_refl) as (_ & _ & ->). discriminate.
Qed.

Lemma sumQ_nonneg xs : List.Forall (fun x => 0 <= x) xs -> 0 <= sumQ xs.
Proof.
  induction 1 as [|x xs Hx _ IH]; cbn [sumQ fold_right]; [discriminate|].
  fold (sumQ xs). setoid_replace 0 with (0 + 0) using relation Qeq by ring.
  apply Qplus_le_compat; assumption.
Qed.

Lemma fold_addVenueRevenue venues acc :
  let r := fold_left addVenueRevenue venues acc in
  breakdown r = (breakdown acc ++ map entry (List.filter earns venues))%list
  /\ total r == total acc + sumQ (map earned (List.filter earns venues)).
Proof.
  revert acc. induction venues as [|v rest IH]; intros acc; cbn [fold_left List.filter].
  - cbn. rewrite app_nil_r. split; [reflexivity|ring].
  - destruct (IH (addVenueRevenue acc v)) as (Hnames & Hsum).
    cbn zeta in *. rewrite addVenueRevenue_cases in *.
    destruct (earns v) eqn:E.
    + cbn [breakdown total map] in *. split.
      * rewrite Hnames, <- app_assoc. reflexivity.
      * rewrite Hsum. cbn [sumQ fold_right].
        fold (sumQ (map earned (List.filter earns rest))). ring.
    + split; assumption.
Qed.

(** X16.  The trip revenue lists, in itinerary order, exactly the venues
    that get an affiliate link, each with its booking value times the
    partner's commission; its total is the sum of the listed amounts and
    is never negative; an itinerary without any affiliate venue earns
    nothing. *)
Theorem calculateTripRevenue_sums (venues : list Venue) :
  let r := calculateTripRevenue venues in
  breakdown r = map entry (List.filter earns venues)
  /\ total r == sumQ (map snd (breakdown r))
  /\ 0 <= total r
  /\ (forallb (fun v => negb (earns v)) venues = true ->
      breakdown r = [] /\ total r == 0).
Proof.
  cbn zeta. unfold calculateTripRevenue.
  destruct (fold_addVenueRevenue venues {| total := 0; breakdown := [] |})
    as (Hnames & Hsum). cbn zeta in *. cbn [breakdown total map app] in *.
  assert (Hsnd : map snd (map entry (List.filter earns venues))
                 = map earned (List.filter earns venues)).
  { rewrite List.map_map. reflexivity. }
  split; [exact Hnames|]. split; [|split].
  - rewrite Hsum, Hnames, Hsnd. ring.
  - rewrite Hsum, Qplus_0_l. apply sumQ_nonneg.
    apply List.Forall_forall. intros x Hx. apply in_map_iff in Hx as (v & <- & _).
    apply earned_nonneg.
  - intros Hnone.
    assert (Hf : List.filter earns venues = []).
    { clear -Hnone. induction venues as [|v rest IH]; [reflexivity|].
      cbn [forallb List.filter] in *. apply andb_true_iff in Hnone as [Hv Hrest].
      destruct (earns v); [discriminate|]. apply IH. exact Hrest. }
    rewrite Hsum, Hnames, Hf. split; [reflexivity|]. cbn. reflexivity.
Qed.

End AffiliateFacts.

Definition grandHotel : AffiliateEngine.Venue :=
  {| AffiliateEngine.name := "Hotel Adlon"; AffiliateEngine.type := "luxury_hotel";
     AffiliateEngine.address := "Unter den Linden 77"; AffiliateEngine.price := "€350/night";
     AffiliateEngine.booking := None; AffiliateEngine.needsReservation := None;
     AffiliateEngine.hasSkipLine := None |}.

Definition cornerClub : AffiliateEngine.Venue :=
  {| AffiliateEngine.name := "Sisyphos"; AffiliateEngine.type := "nightclub";
     AffiliateEngine.address := "Hauptstrasse 15"; AffiliateEngine.price := "€15";
     AffiliateEngine.booking := None; AffiliateEngine.needsReservation := None;
     AffiliateEngine.hasSkipLine := None |}.

Lemma shouldUseAffiliate_policy_witness :
  exists partner,
    In partner partners
    /\ AffiliateEngine.url (AffiliateEngine.shouldUseAffiliate grandHotel)
       = Some (AffiliateEngine.generateAffiliateUrl grandHotel partner).
Proof.
  destruct (shouldUseAffiliate_policy grandHotel) as (_ & Hyes & _).
  destruct (Hyes eq_refl) as (partner & Hin & Hurl & _).
  exists partner. split; assumption.
Defined.

Lemma generateAffiliateUrl_parameters_witness :
  AffiliateEngine.generateAffiliateUrl grandHotel AffiliateEngine.booking_com
  = "https://www.booking.com/searchresults.html?aid=SYNCWITHME_AFF_ID&venue=Hotel%20Adlon&location=Unter%20den%20Linden%2077&utm_source=syncwithme&utm_medium=affiliate"
  /\ occurrences "&" (AffiliateEngine.generateAffiliateUrl grandHotel
                        AffiliateEngine.booking_com) = 4%nat.
Proof.
  split; [reflexivity|].
  destruct (generateAffiliateUrl_parameters grandHotel AffiliateEngine.booking_com)
    as (_ & Hamp & _); [left; reflexivity|exact Hamp].
Defined.

Lemma calculateTripRevenue_sums_witness :
  AffiliateEngine.breakdown (AffiliateEngine.calculateTripRevenue [cornerClub]) = [].
Proof.
  destruct (calculateTripRevenue_sums [cornerClub]) as (_ & _ & _ & Hnone).
  destruct (Hnone eq_refl) as [Hempty _]. exact Hempty.
Defined.


(* ===================================================================== *)
(** * The day planner with the affiliate engine plugged in                *)
(* ===================================================================== *)

Section PlannerAffiliateFacts.

Import AffiliateEngine.

Variable getDayOfWeek : string -> string.
Variable haversineDistance : DayPlanner.Coordinates -> DayPlanner.Coordinates -> Q.

Local Abbreviation dayPlan :=
  (DayPlanner.createDayPlan getDayOfWeek affiliateLinkFor haversineDistance).

(** The kinds of activity the planner can attach a link to. *)
Definition linkedKind (a : DayPlanner.Activity) : bool :=
  let ty := toLowerCase (DayPlanner.type a) in
  includes ty "hotel" || includes ty "hostel"
  || includes ty "restaurant" && truthy_bool (DayPlanner.needsReservation a)
  || includes ty "tour" || includes ty "experience".

Lemma affiliateLinkFor_cases (a : DayPlanner.Activity) :
  match affiliateLinkFor a with
  | Some u =>
      earns (venueOfActivity a) = true
      /\ linkedKind a = true
      /\ exists partner,
           In partner partners /\ u = generateAffiliateUrl (venueOfActivity a) partner
  | None => earns (venueOfActivity a) = false
  end.
Proof.
  unfold affiliateLinkFor, earns.
  destruct (shouldUseAffiliate_cases (venueOfActivity a)) as (Hwhen & Hyes & Hno).
  cbn zeta in *.
  destruct (useAffiliate (shouldUseAffiliate (venueOfActivity a))) eqn:E.
  - destruct (Hyes eq_refl) as (partner & Hin & -> & _).
    split; [reflexivity|]. split; [|exists partner; split; [exact Hin|reflexivity]].
    symmetry in Hwhen. apply andb_true_iff in Hwhen as [_ Hel].
    unfold eligible in Hel. cbn [venueOfActivity type needsReservation hasSkipLine] in Hel.
    unfold linkedKind. cbn [truthy_bool] in Hel.
    rewrite andb_false_r, orb_false_r in Hel. exact Hel.
  - reflexivity.
Qed.

(** X17.  In a plan made with the affiliate engine, a slot that is not a
    fixed booking carries exactly the link the engine gives its activity.
    That link is the tracking url of one of the four partners and exists
    only for hotels, hostels, restaurants that need a reservation, tours
    and experiences: the planner never passes [hasSkipLine], so the
    skip-the-line rule for museums cannot apply to a planned slot. *)
Theorem plan_affiliate_links date acts fixedBookings prefs :
  (forall s, In s (DayPlanner.slots (dayPlan date acts fixedBookings prefs)) ->
     (exists b, In b fixedBookings /\ sameBooking s b)
     \/ (In (DayPlanner.activity s) acts
         /\ DayPlanner.affiliateLink s = affiliateLinkFor (DayPlanner.activity s)))
  /\ (forall a u,
        affiliateLinkFor a = Some u ->
        linkedKind a = true
        /\ exists partner,
             In partner partners /\ u = generateAffiliateUrl (venueOfActivity a) partner)
  /\ (forall a, linkedKind a = false -> affiliateLinkFor a = None).
Proof.
  split; [|split].
  - intros s Hs.
    apply plan_slot_placed in Hs as (s0 & Hs0 & Hsame).
    rewrite (placeSlots_closed_form getDayOfWeek) in Hs0.
    apply in_app_iff in Hs0 as [Hfixed|Hgen].
    + left. exists s0. split; assumption.
    + right. apply generatedSlots_In in Hgen as (entry & _ & _ & a & Hsel & ->).
      destruct Hsame as (_ & Hact & Hlink & _).
      cbn [DayPlanner.createTimeSlot DayPlanner.activity DayPlanner.affiliateLink] in *.
      rewrite Hact, Hlink. split; [|reflexivity].
      apply selectBestActivity_Some in Hsel as [Hin _]. exact Hin.
  - intros a u Hu. pose proof (affiliateLinkFor_cases a) as H. rewrite Hu in H.
    destruct H as (_ & Hkind & Hurl). split; assumption.
  - intros a Hkind. pose proof (affiliateLinkFor_cases a) as H.
    destruct (affiliateLinkFor a) as [u|]; [|reflexivity].
    destruct H as (_ & Hk & _). congruence.
Qed.

End PlannerAffiliateFacts.

Definition bookedTable : DayPlanner.Activity :=
  {| DayPlanner.name := "Nobelhart"; DayPlanner.type := "restaurant";
     DayPlanner.address := "Kreuzberg"; DayPlanner.duration := 120;
     DayPlanner.price := "€80"; DayPlanner.openTime := None; DayPlanner.closeTime := None;
     DayPlanner.booking := None; DayPlanner.needsReservation := Some true;
     DayPlanner.coordinates := None |}.

Lemma plan_affiliate_links_witness :
  AffiliateEngine.affiliateLinkFor museum = None
  /\ exists partner,
       In partner partners
       /\ AffiliateEngine.affiliateLinkFor bookedTable
          = Some (AffiliateEngine.generateAffiliateUrl
                    (AffiliateEngine.venueOfActivity bookedTable) partner).
Proof.
  destruct (plan_affiliate_links (fun _ => "Tuesday") (fun _ _ => 2%Q) "2024-01-02"
              [museum; bookedTable] [] relaxedDay) as (_ & Hlink & Hnone).
  split; [apply Hnone; reflexivity|].
  destruct (Hlink bookedTable _ eq_refl) as (_ & partner & Hin & Hurl).
  exists partner. split; [exact Hin|]. rewrite <- Hurl. reflexivity.
Defined.


(* ===================================================================== *)
(** * Writing to the index: [CloudVectorStore]                            *)
(* ===================================================================== *)

Module StoredPatterns.

(** A metadata value that the parsers test with [typeof]: JSON text, or
    the array itself. *)
Inductive TextOr (A : Type) : Type :=
| text (s : string)
| array (xs : A).
Arguments text {A} s.
Arguments array {A} xs.

(** The metadata object of a stored vector: the keys that the two upserts
    write and the two parsers read.  [None] is a key that is absent. *)
Record Metadata := {
  m_type : string;
  m_id : option string;
  m_destination : option string;
  m_category : option string;
  m_budgetTier : option string;
  m_successRate : option Q;
  m_userSatisfaction : option Q;
  m_venues : option (TextOr (list Venue));
  m_searchText : string;
  m_source : option string;
  m_lastUpdated : option string;
  m_bookingPattern : option string;
  m_localInsights : option (TextOr (list string));
  m_intent : option string;
  m_confidence : option Q;
  m_phrases : option string;
  m_mapsTo : option string
}.

Record Vector (Embedding : Type) := {
  vec_id : string;
  vec_values : Embedding;
  vec_metadata : Metadata
}.
Arguments vec_id {Embedding} v.
Arguments vec_values {Embedding} v.
Arguments vec_metadata {Embedding} v.

(** [${x}] in a template literal, for a string that may be [undefined]. *)
Definition interpolate (s : option string) : string :=
  match s with Some v => v | None => "undefined" end.

Definition batchSize : nat := 100.

Section Store.

(** The embedding client, the index and [JSON] are outside the repository.
    A call of [index.upsert] may change the index whether or not it
    rejects.  [JSON.stringify] and [JSON.parse] are given at the three
    types the store uses them at. *)
Variable Embedding : Type.
Variable Index : Type.
Variable embedQuery : string -> outcome Embedding.
Variable indexUpsert : Index -> list (Vector Embedding) -> Index * outcome unit.
Variable stringifyVenues : list Venue -> string.
Variable stringifyStrings : list string -> string.
Variable stringifyFragment : IntentFragment -> string.
Variable parseVenues : string -> outcome (list Venue).
Variable parseStrings : string -> outcome (list string).
Variable parseFragment : string -> outcome IntentFragment.

Definition createSearchText (pattern : SuccessPattern) : string :=
  let venueNames := join " " (map Types.name (venues pattern)) in
  let venueTypes := join " " (map Types.type (venues pattern)) in
  let insights :=
    or_string (option_map (join " ") (localInsights (metadata pattern))) "" in
  interpolate (sp_destination pattern) ++ " " ++ or_string (category pattern) "" ++ " "
  ++ venueNames ++ " " ++ venueTypes ++ " " ++ insights ++ " "
  ++ or_string (sp_budgetTier pattern) "".

(** The metadata written for a success pattern; the spread of
    [pattern.metadata] comes last. *)
Definition successMetadata (pattern : SuccessPattern) : Metadata :=
  {| m_type := "success_pattern";
     m_id := None;
     m_destination := sp_destination pattern;
     m_category := category pattern;
     m_budgetTier := sp_budgetTier pattern;
     m_successRate := Some (successRate pattern);
     m_userSatisfaction := Some (userSatisfaction pattern);
     m_venues := Some (text (stringifyVenues (venues pattern)));
     m_searchText := createSearchText pattern;
     m_source := md_source (metadata pattern);
     m_lastUpdated := lastUpdated (metadata pattern);
     m_bookingPattern := Some (bookingPattern (metadata pattern));
     m_localInsights := option_map array (localInsights (metadata pattern));
     m_intent := None;
     m_confidence := None;
     m_phrases := None;
     m_mapsTo := None |}.

Definition toSuccessVector (pattern : SuccessPattern) : outcome (Vector Embedding) :=
  bind (embedQuery (createSearchText pattern)) (fun embedding =>
  Returned {| vec_id := "success_" ++ interpolate (sp_id pattern);
              vec_values := embedding;
              vec_metadata := successMetadata pattern |}).

(** [phrases] is an array in every [LanguagePattern], and an array is
    truthy, so the search text is the joined phrases. *)
Definition languageSearchText (pattern : LanguagePattern) : string :=
  join " | " (phrases pattern).

Definition languageMetadata (pattern : LanguagePattern) : Metadata :=
  {| m_type := "language_pattern";
     m_id := None;
     m_destination := None;
     m_category := None;
     m_budgetTier := None;
     m_successRate := None;
     m_userSatisfaction := None;
     m_venues := None;
     m_searchText := languageSearchText pattern;
     m_source := None;
     m_lastUpdated := None;
     m_bookingPattern := None;
     m_localInsights := None;
     m_intent := lp_intent pattern;
     m_confidence := Some (lp_confidence pattern);
     m_phrases := Some (stringifyStrings (phrases pattern));
     m_mapsTo := Some (stringifyFragment (mapsTo pattern)) |}.

Definition toLanguageVector (pattern : LanguagePattern) : outcome (Vector Embedding) :=
  bind (embedQuery (languageSearchText pattern)) (fun embedding =>
  Returned {| vec_id := "language_" ++ interpolate (lp_id pattern);
              vec_values := embedding;
              vec_metadata := languageMetadata pattern |}).

(** [for (let i = 0; i < vectors.length; i += batchSize)]: every turn
    moves [i] forward, so [length vectors] turns are enough. *)
Fixpoint upsertFrom (fuel i : nat) (vectors : list (Vector Embedding)) (index : Index)
  : Index * outcome unit :=
  match fuel with
  | O => (index, Returned tt)
  | S fuel' =>
      if (i <? length vectors)%nat then
        let batch := slice i (i + batchSize) vectors in
        match indexUpsert index batch with
        | (index', Returned _) => upsertFrom fuel' (i + batchSize) vectors index'
        | (index', Thrown e) => (index', Thrown e)
        end
      else (index, Returned tt)
  end.

Definition upsertBatches (vectors : list (Vector Embedding)) (index : Index)
  : Index * outcome unit :=
  upsertFrom (length vectors) 0 vectors index.

(** [Promise.all] over the embedding requests: the upsert starts only
    when every request has answered.  When several requests fail the model
    reports the failure of the earliest pattern. *)
Definition upsertSuccessPatterns (patterns : list SuccessPattern) (index : Index)
  : Index * outcome unit :=
  match mapM toSuccessVector patterns with
  | Returned vectors => upsertBatches vectors index
  | Thrown e => (index, Thrown e)
  end.

Definition upsertLanguagePatterns (patterns : list LanguagePattern) (index : Index)
  : Index * outcome unit :=
  match mapM toLanguageVector patterns with
  | Returned vectors => upsertBatches vectors index
  | Thrown e => (index, Thrown e)
  end.

(** ** Reading back *)

Definition parseSuccessPattern (m : Metadata) : outcome SuccessPattern :=
  bind (match m_venues m with
        | Some (text s) => parseVenues (or_string (Some s) "[]")
        | Some (array vs) => Returned vs
        | None => Returned []
        end) (fun vs =>
  bind (match m_localInsights m with
        | Some (text s) => parseStrings (or_string (Some s) "[]")
        | Some (array tips) => Returned tips
        | None => Returned []
        end) (fun insights =>
  Returned
    {| sp_id := m_id m;
       sp_destination := m_destination m;
       category := m_category m;
       venues := vs;
       sp_budgetTier := m_budgetTier m;
       successRate := or_zero (m_successRate m);
       userSatisfaction := or_zero (m_userSatisfaction m);
       metadata :=
         {| md_source := m_source m;
            lastUpdated := m_lastUpdated m;
            bookingPattern := or_string (m_bookingPattern m) "";
            localInsights := Some insights |} |})).

Definition parseLanguagePattern (m : Metadata) : outcome LanguagePattern :=
  bind (parseStrings (or_string (m_phrases m) "[]")) (fun ps =>
  bind (parseFragment (or_string (m_mapsTo m) "{}")) (fun fragment =>
  Returned
    {| lp_id := m_id m;
       lp_intent := m_intent m;
       phrases := ps;
       lp_confidence := or_zero (m_confidence m);
       mapsTo := fragment;
       examples := [] |})).

End Store.

End StoredPatterns.

Section StoredPatternFacts.

Import StoredPatterns.

Variable Embedding : Type.
Variable Index : Type.
Variable embedQuery : string -> outcome Embedding.
Variable indexUpsert : Index -> list (Vector Embedding) -> Index * outcome unit.
Variable stringifyVenues : list Venue -> string.
Variable stringifyStrings : list string -> string.
Variable stringifyFragment : IntentFragment -> string.
Variable parseVenues : string -> outcome (list Venue).
Variable parseStrings : string -> outcome (list string).
Variable parseFragment : string -> outcome IntentFragment.

Local Abbreviation V := (Vector Embedding).

(** *** Batches *)

(** The batches of a list: runs of [batchSize] elements, the last one
    possibly shorter. *)
Fixpoint chunksOf {X : Type} (fuel : nat) (xs : list X) : list (list X) :=
  match fuel, xs with
  | S fuel', _ :: _ => firstn batchSize xs :: chunksOf fuel' (skipn batchSize xs)
  | _, _ => []
  end.

Definition chunks {X : Type} (xs : list X) : list (list X) := chunksOf (length xs) xs.

(** Sending batches one after the other, up to the first that is
    rejected. *)
Fixpoint sendAll (batches : list (list V)) (index : Index) : Index * outcome unit :=
  match batches with
  | [] => (index, Returned tt)
  | batch :: rest =>
      match indexUpsert index batch with
      | (index', Returned _) => sendAll rest index'
      | (index', Thrown e) => (index', Thrown e)
      end
  end.

Lemma batchSize_pos : (0 < batchSize)%nat.
Proof. unfold batchSize. lia. Qed.

Lemma chunksOf_cons {X : Type} fuel (x : X) xs :
  chunksOf (S fuel) (x :: xs)
  = firstn batchSize (x :: xs) :: chunksOf fuel (skipn batchSize (x :: xs)).
Proof. reflexivity. Qed.

Lemma chunksOf_nil {X : Type} fuel : chunksOf fuel (@nil X) = [].
Proof. destruct fuel; reflexivity. Qed.

Lemma length_skipn_batch {X : Type} (xs : list X) fuel :
  xs <> [] -> (length xs <= S fuel)%nat -> (length (skipn batchSize xs) <= fuel)%nat.
Proof.
  intros Hne Hlen. rewrite List.length_skipn. pose proof batchSize_pos.
  destruct xs; [congruence|]. cbn [length] in *. lia.
Qed.

Lemma chunksOf_spec {X : Type} fuel (xs : list X) :
  (length xs <= fuel)%nat ->
  concat (chunksOf fuel xs) = xs
  /\ Forall (fun b => (1 <= length b <= batchSize)%nat) (chunksOf fuel xs)
  /\ Forall (fun b => length b = batchSize) (removelast (chunksOf fuel xs))
  /\ (length (chunksOf fuel xs) * batchSize < length xs + batchSize)%nat
  /\ (length xs <= length (chunksOf fuel xs) * batchSize)%nat.
Proof.
  revert xs. induction fuel as [|fuel IH]; intros xs Hlen.
  - destruct xs; [|cbn in Hlen; lia]. cbn. pose proof batchSize_pos.
    repeat split; try constructor; lia.
  - destruct xs as [|x xs].
    + cbn. pose proof batchSize_pos. repeat split; try constructor; lia.
    + rewrite chunksOf_cons.
      assert (Hrest : (length (skipn batchSize (x :: xs)) <= fuel)%nat)
        by (apply length_skipn_batch; [discriminate|exact Hlen]).
      destruct (IH _ Hrest) as (Hcat & Hall & Hfull & Hup & Hlow).
      pose proof batchSize_pos as Hpos.
      assert (Hfirst : length (firstn batchSize (x :: xs))
                       = Nat.min batchSize (length (x :: xs)))
        by apply List.length_firstn.
      assert (Hskip : length (skipn batchSize (x :: xs))
                      = (length (x :: xs) - batchSize)%nat)
        by apply List.length_skipn.
      split; [|split; [|split; [|split]]].
      * cbn [concat]. rewrite Hcat. apply firstn_skipn.
      * constructor; [|exact Hall]. rewrite Hfirst. cbn [length]. lia.
      * destruct (chunksOf fuel (skipn batchSize (x :: xs))) as [|b bs] eqn:E.
        -- constructor.
        -- change (removelast (firstn batchSize (x :: xs) :: b :: bs))
             with (firstn batchSize (x :: xs) :: removelast (b :: bs)).
           constructor; [|exact Hfull].
           rewrite Hfirst. cbn [length concat] in *.
           assert (length (skipn batchSize (x :: xs)) <> 0)%nat.
           { rewrite <- Hcat. rewrite length_app.
             apply List.Forall_inv in Hall. lia. }
           cbn [length] in *. lia.
      * cbn [length] in *. unfold batchSize in *. lia.
      * cbn [length] in *. unfold batchSize in *. lia.
Qed.

Lemma upsertFrom_chunks fuel i (vectors : list V) index :
  upsertFrom Embedding Index indexUpsert fuel i vectors index
  = sendAll (chunksOf fuel (skipn i vectors)) index.
Proof.
  revert i index. induction fuel as [|fuel IH]; intros i index; [reflexivity|].
  cbn [upsertFrom].
  destruct (i <? length vectors)%nat eqn:E.
  - apply Nat.ltb_lt in E.
    destruct (skipn i vectors) as [|v rest] eqn:Hs.
    { apply (f_equal (@length _)) in Hs. rewrite List.length_skipn in Hs.
      cbn in Hs. lia. }
    rewrite chunksOf_cons, <- Hs. cbn [sendAll].
    unfold slice. replace (i + batchSize - i)%nat with batchSize by lia.
    destruct (indexUpsert index (firstn batchSize (skipn i vectors))) as [index' [[]|e]].
    + rewrite IH. rewrite List.skipn_skipn. rewrite (Nat.add_comm batchSize i). reflexivity.
    + reflexivity.
  - apply Nat.ltb_ge in E. rewrite List.skipn_all2 by exact E.
    rewrite chunksOf_nil. reflexivity.
Qed.

Lemma upsertBatches_chunks (vectors : list V) index :
  upsertBatches Embedding Index indexUpsert vectors index = sendAll (chunks vectors) index.
Proof. unfold upsertBatches. rewrite upsertFrom_chunks. reflexivity. Qed.

Lemma mapM_Thrown {A B : Type} (f : A -> outcome B) xs e :
  mapM f xs = Thrown e -> exists x, In x xs /\ f x = Thrown e.
Proof.
  induction xs as [|x xs IH]; cbn [mapM]; [discriminate|].
  destruct (f x) as [y|e'] eqn:E; cbn [bind].
  - destruct (mapM f xs) as [ys|e'']; cbn [bind]; [discriminate|].
    intros H. injection H as ->. destruct (IH eq_refl) as (x' & Hin & Hx').
    exists x'. split; [right; exact Hin|exact Hx'].
  - intros H. injection H as ->. exists x. split; [left; reflexivity|exact E].
Qed.

Lemma mapM_some_Thrown {A B : Type} (f : A -> outcome B) xs x e :
  In x xs -> f x = Thrown e -> exists e', mapM f xs = Thrown e'.
Proof.
  induction xs as [|y xs IH]; cbn [In mapM]; [contradiction|].
  intros [->|Hin] Hx.
  - rewrite Hx. eexists. reflexivity.
  - destruct (f y) as [b|e']; cbn [bind]; [|eexists; reflexivity].
    destruct (IH Hin Hx) as [e' ->]. eexists. reflexivity.
Qed.

Local Abbreviation upsertSuccess :=
  (upsertSuccessPatterns Embedding Index embedQuery indexUpsert stringifyVenues).
Local Abbreviation successVector := (toSuccessVector Embedding embedQuery stringifyVenues).
Local Abbreviation upsertLanguage :=
  (upsertLanguagePatterns Embedding Index embedQuery indexUpsert stringifyStrings
     stringifyFragment).
Local Abbreviation languageVector :=
  (toLanguageVector Embedding embedQuery stringifyStrings stringifyFragment).

(** X18.  An upsert first embeds every pattern and only then writes: when
    an embedding request fails nothing is written and the upsert fails
    with the error of one of the failed requests.  Otherwise the vectors,
    one per pattern and in the order of the patterns, go to the index in
    batches that together are the list of vectors: every batch holds
    between 1 and 100 vectors, every batch but the last exactly 100, so
    [n] patterns make [ceil(n / 100)] calls and no pattern makes none.
    The batches are sent in order up to the first one the index rejects;
    batches sent before it are not taken back.  Phrase patterns are
    written by the same loop. *)
Theorem upsert_batches (patterns : list SuccessPattern) (index : Index) :
  (forall p e, In p patterns -> successVector p = Thrown e ->
     exists p' e', In p' patterns /\ successVector p' = Thrown e'
                   /\ upsertSuccess patterns index = (index, Thrown e'))
  /\ (forall vectors,
        mapM successVector patterns = Returned vectors ->
        upsertSuccess patterns index = sendAll (chunks vectors) index
        /\ map vec_id vectors
           = map (fun p => "success_" ++ interpolate (sp_id p)) patterns
        /\ map vec_metadata vectors = map (successMetadata stringifyVenues) patterns
        /\ concat (chunks vectors) = vectors
        /\ Forall (fun b => (1 <= length b <= 100)%nat) (chunks vectors)
        /\ Forall (fun b => length b = 100%nat) (removelast (chunks vectors))
        /\ length (chunks vectors) = ((length patterns + 99) / 100)%nat)
  /\ (forall phrasePatterns vectors,
        mapM languageVector phrasePatterns = Returned vectors ->
        upsertLanguage phrasePatterns index = sendAll (chunks vectors) index).
Proof.
  unfold upsertSuccessPatterns, upsertLanguagePatterns. split; [|split].
  3: { intros phrasePatterns vectors ->. apply upsertBatches_chunks. }
  - intros p e Hin Hp.
    destruct (mapM_some_Thrown _ _ _ _ Hin Hp) as [e' He'].
    destruct (mapM_Thrown _ _ _ He') as (p' & Hin' & Hp').
    exists p', e'. rewrite He'. repeat split; assumption.
  - intros vectors Hvs. rewrite Hvs.
    destruct (chunksOf_spec (length vectors) vectors (Nat.le_refl _))
      as (Hcat & Hall & Hfull & Hup & Hlow).
    fold (chunks vectors) in *.
    pose proof (mapM_Returned _ _ _ Hvs) as Hrel.
    assert (Hlen : length vectors = length patterns).
    { symmetry. clear -Hrel. induction Hrel; cbn; congruence. }
    split; [apply upsertBatches_chunks|].
    split; [|split; [|split; [exact Hcat|split; [exact Hall|split; [exact Hfull|]]]]].
    + clear -Hrel. induction Hrel as [|p v ps vs Hp _ IH]; [reflexivity|].
      cbn [map]. rewrite IH. f_equal.
      unfold toSuccessVector in Hp. apply bind_Returned in Hp as (emb & _ & Hp).
      injection Hp as <-. reflexivity.
    + clear -Hrel. induction Hrel as [|p v ps vs Hp _ IH]; [reflexivity|].
      cbn [map]. rewrite IH. f_equal.
      unfold toSuccessVector in Hp. apply bind_Returned in Hp as (emb & _ & Hp).
      injection Hp as <-. reflexivity.
    + rewrite <- Hlen. unfold batchSize in *.
      apply Nat.div_unique with (r := (length vectors + 99
                                                 - 100 * length (chunks vectors))%nat); lia.
Qed.

(** *** The embedded text *)

(** [x] occurs in [s]. *)
Definition occursIn (x s : string) : Prop := exists a b, s = (a ++ x ++ b)%string.

Lemma append_nil_r s : (s ++ "")%string = s.
Proof.
  induction s as [|c s IH]; [reflexivity|].
  change (String c s ++ "")%string with (String c (s ++ "")). rewrite IH. reflexivity.
Qed.

Lemma append_assoc s t u : (s ++ t ++ u)%string = ((s ++ t) ++ u)%string.
Proof.
  induction s as [|c s IH]; [reflexivity|].
  change (String c s ++ t ++ u)%string with (String c (s ++ t ++ u)).
  change ((String c s ++ t) ++ u)%string with (String c ((s ++ t) ++ u)).
  rewrite IH. reflexivity.
Qed.

Lemma occursIn_refl x : occursIn x x.
Proof.
  exists "", "". change ("" ++ x ++ "")%string with (x ++ "")%string.
  rewrite append_nil_r. reflexivity.
Qed.

Lemma occursIn_empty s : occursIn "" s.
Proof. exists "", s. reflexivity. Qed.

Lemma occursIn_app_l x s t : occursIn x s -> occursIn x (s ++ t).
Proof.
  intros (a & b & ->). exists a, (b ++ t)%string.
  rewrite !append_assoc. reflexivity.
Qed.

Lemma occursIn_app_r x s t : occursIn x t -> occursIn x (s ++ t).
Proof.
  intros (a & b & ->). exists (s ++ a)%string, b.
  rewrite !append_assoc. reflexivity.
Qed.

Lemma occursIn_join sep x parts : In x parts -> occursIn x (join sep parts).
Proof.
  induction parts as [|p rest IH]; [contradiction|].
  intros [->|Hin].
  - destruct rest as [|q rest]; [apply occursIn_refl|].
    change (join sep (x :: q :: rest)) with (x ++ sep ++ join sep (q :: rest))%string.
    apply occursIn_app_l, occursIn_refl.
  - destruct rest as [|q rest]; [contradiction|].
    change (join sep (p :: q :: rest)) with (p ++ sep ++ join sep (q :: rest))%string.
    apply occursIn_app_r, occursIn_app_r, IH. exact Hin.
Qed.

Lemma occursIn_includes x s : occursIn x s -> includes s x = true.
Proof. intros (a & b & ->). apply includes_app_l, includes_prefix_app. Qed.

(** X26.  The text that is embedded for a success pattern mentions its
    destination, its category, its budget tier, every name and every type
    of its venues and every local insight; the text embedded for a phrase
    pattern mentions every phrase. *)
Theorem search_text_mentions (p : SuccessPattern) (lp : LanguagePattern) :
  (forall d, sp_destination p = Some d -> includes (createSearchText p) d = true)
  /\ (forall c, category p = Some c -> includes (createSearchText p) c = true)
  /\ (forall b, sp_budgetTier p = Some b -> includes (createSearchText p) b = true)
  /\ (forall v, In v (venues p) ->
        includes (createSearchText p) (Types.name v) = true
        /\ includes (createSearchText p) (Types.type v) = true)
  /\ (forall tip tips, localInsights (metadata p) = Some tips -> In tip tips ->
        includes (createSearchText p) tip = true)
  /\ (forall phrase, In phrase (phrases lp) ->
        includes (languageSearchText lp) phrase = true).
Proof.
  unfold createSearchText, languageSearchText.
  split; [|split; [|split; [|split; [|split]]]].
  - intros d ->. apply occursIn_includes. cbn [interpolate].
    apply occursIn_app_l, occursIn_refl.
  - intros c Hc. apply occursIn_includes. rewrite Hc.
    apply occursIn_app_r, occursIn_app_r, occursIn_app_l.
    destruct c; [apply occursIn_empty|apply occursIn_refl].
  - intros b Hb. apply occursIn_includes. rewrite Hb.
    do 10 apply occursIn_app_r.
    destruct b; [apply occursIn_empty|apply occursIn_refl].
  - intros v Hv. split; apply occursIn_includes.
    + do 4 apply occursIn_app_r. apply occursIn_app_l, occursIn_join, in_map, Hv.
    + do 6 apply occursIn_app_r. apply occursIn_app_l, occursIn_join, in_map, Hv.
  - intros tip tips Htips Hin. apply occursIn_includes. rewrite Htips. cbn [option_map].
    do 8 apply occursIn_app_r. apply occursIn_app_l.
    pose proof (occursIn_join " " tip tips Hin) as Hjoin.
    unfold or_string, truthy_string. destruct (join " " tips); [|exact Hjoin].
    destruct Hjoin as (a & b & Hab). destruct a; [|discriminate].
    destruct tip; [apply occursIn_empty|discriminate].
  - intros phrase Hin. apply occursIn_includes, occursIn_join, Hin.
Qed.

(** *** Reading a stored pattern back *)

Lemma or_string_same s : or_string (Some s) "" = s.
Proof. destruct s; reflexivity. Qed.

Lemma or_string_nonempty s dflt : s <> "" -> or_string (Some s) dflt = s.
Proof. destruct s; [congruence|reflexivity]. Qed.

Lemma or_zero_same v : (or_zero (Some v) == v)%Q.
Proof.
  unfold or_zero. destruct (Qeq_bool v 0) eqn:E; [|reflexivity].
  apply Qeq_bool_iff in E. symmetry. exact E.
Qed.

Lemma toLowerCase_idempotent s : toLowerCase (toLowerCase s) = toLowerCase s.
Proof.
  induction s as [|c s IH]; [reflexivity|]. cbn [toLowerCase]. rewrite IH. f_equal.
  unfold lower_ascii.
  destruct ((65 <=? nat_of_ascii c)%nat && (nat_of_ascii c <=? 90)%nat) eqn:E.
  - apply andb_true_iff in E as [Hlo Hhi].
    apply Nat.leb_le in Hlo. apply Nat.leb_le in Hhi.
    rewrite nat_ascii_embedding by lia.
    replace ((65 <=? nat_of_ascii c + 32)%nat && (nat_of_ascii c + 32 <=? 90)%nat)
      with false; [reflexivity|].
    symmetry. apply andb_false_iff. right. apply Nat.leb_gt. lia.
  - rewrite E. reflexivity.
Qed.

Local Abbreviation readSuccess := (parseSuccessPattern parseVenues parseStrings).
Local Abbreviation readLanguage := (parseLanguagePattern parseStrings parseFragment).

(** X19.  What the store writes for a pattern it reads back as the same
    pattern, with two losses: the id is not part of the stored metadata,
    so every pattern comes back without one, and a phrase pattern comes
    back without its examples.  Missing local insights come back as the
    empty list.  This holds when [JSON.parse] undoes [JSON.stringify] on
    the venues, the phrases and the intent fragment of the pattern. *)
Theorem stored_pattern_read_back (p : SuccessPattern) (lp : LanguagePattern) :
  (stringifyVenues (venues p) <> "" ->
   parseVenues (stringifyVenues (venues p)) = Returned (venues p) ->
   exists q,
     readSuccess (successMetadata stringifyVenues p) = Returned q
     /\ sp_id q = None
     /\ sp_destination q = sp_destination p
     /\ category q = category p
     /\ venues q = venues p
     /\ sp_budgetTier q = sp_budgetTier p
     /\ (successRate q == successRate p)%Q
     /\ (userSatisfaction q == userSatisfaction p)%Q
     /\ md_source (metadata q) = md_source (metadata p)
     /\ lastUpdated (metadata q) = lastUpdated (metadata p)
     /\ bookingPattern (metadata q) = bookingPattern (metadata p)
     /\ localInsights (metadata q)
        = Some (match localInsights (metadata p) with Some tips => tips | None => [] end))
  /\ (stringifyStrings (phrases lp) <> "" ->
      stringifyFragment (mapsTo lp) <> "" ->
      parseStrings (stringifyStrings (phrases lp)) = Returned (phrases lp) ->
      parseFragment (stringifyFragment (mapsTo lp)) = Returned (mapsTo lp) ->
      exists lq,
        readLanguage (languageMetadata stringifyStrings stringifyFragment lp) = Returned lq
        /\ lp_id lq = None
        /\ lp_intent lq = lp_intent lp
        /\ phrases lq = phrases lp
        /\ (lp_confidence lq == lp_confidence lp)%Q
        /\ mapsTo lq = mapsTo lp
        /\ examples lq = []).
Proof.
  split.
  - intros Hne Hjson. unfold parseSuccessPattern, successMetadata.
    cbn [m_venues m_localInsights m_id m_destination m_category m_budgetTier
         m_successRate m_userSatisfaction m_source m_lastUpdated m_bookingPattern].
    rewrite (or_string_nonempty _ _ Hne), Hjson. cbn [bind].
    destruct (localInsights (metadata p)) as [tips|]; cbn [option_map bind];
      (eexists; split; [reflexivity|];
       cbn [sp_id sp_destination category venues sp_budgetTier successRate
            userSatisfaction metadata md_source lastUpdated bookingPattern localInsights];
       repeat (split; [first [reflexivity | apply or_zero_same | apply or_string_same]|]);
       reflexivity).
  - intros Hne1 Hne2 Hjson1 Hjson2. unfold parseLanguagePattern, languageMetadata.
    cbn [m_phrases m_mapsTo m_id m_intent m_confidence].
    rewrite (or_string_nonempty _ _ Hne1), Hjson1. cbn [bind].
    rewrite (or_string_nonempty _ _ Hne2), Hjson2. cbn [bind].
    eexists. split; [reflexivity|].
    cbn [lp_id lp_intent phrases lp_confidence mapsTo examples].
    repeat (split; [first [reflexivity | apply or_zero_same]|]). reflexivity.
Qed.

(** X20.  The destination of a pattern is stored as it is written, while
    the query sends the destination of its filter in lower case and the
    index compares for equality.  A destination filter therefore never
    selects a pattern whose stored destination has a capital letter, and
    selects a pattern stored in lower case whatever the case of the
    filter. *)
Theorem destination_filter_case (p : SuccessPattern) (filters : VectorStore.Filters)
    (wanted : string) :
  VectorStore.fc_destination (VectorStore.successFilterConditions filters) = Some wanted ->
  toLowerCase wanted = wanted
  /\ (forall d,
        sp_destination p = Some d ->
        toLowerCase d <> d ->
        m_destination (successMetadata stringifyVenues p) <> Some wanted)
  /\ (forall asked d,
        VectorStore.f_destination filters = Some asked ->
        sp_destination p = Some d ->
        toLowerCase asked = d ->
        m_destination (successMetadata stringifyVenues p) = Some wanted).
Proof.
  unfold VectorStore.successFilterConditions.
  cbn [VectorStore.fc_destination m_destination successMetadata].
  intros Hwanted.
  destruct (truthy_string (VectorStore.f_destination filters)) as [asked|] eqn:E;
    [|discriminate].
  injection Hwanted as <-.
  split; [apply toLowerCase_idempotent|]. split.
  - intros d Hp Hcase H. rewrite Hp in H. injection H as ->.
    apply Hcase. apply toLowerCase_idempotent.
  - intros asked' d Hf Hp Hsame. rewrite Hf in E.
    assert (asked' = asked).
    { destruct asked'; cbn in E; [discriminate|]. injection E as <-. reflexivity. }
    subst asked'. rewrite Hp, Hsame. reflexivity.
Qed.

End StoredPatternFacts.

(** An index that records the size of every batch it receives. *)
Definition batchSizes (received : list nat) (batch : list (StoredPatterns.Vector unit))
  : list nat * outcome unit :=
  ((received ++ [length batch])%list, Returned tt).

Lemma upsert_batches_witness :
  fst (StoredPatterns.upsertSuccessPatterns unit (list nat) (fun _ => Returned tt)
         batchSizes (fun _ => "[]") (repeat (sampleSuccessPattern []) 250) [])
  = [100; 100; 50]%nat.
Proof.
  destruct (upsert_batches unit (list nat) (fun _ => Returned tt) batchSizes
              (fun _ => "[]") (fun _ => "[]") (fun _ => "{}")
              (repeat (sampleSuccessPattern []) 250) [])
    as (_ & Hok & _).
  destruct (Hok _ eq_refl) as (Hsend & _).
  rewrite Hsend. vm_compute. reflexivity.
Defined.

(** A decoder that knows the text of the empty array, phrases joined by
    colons, and a fragment that names a budget tier only. *)
Definition readEmptyArray (s : string) : outcome (list Venue) :=
  if String.eqb s "[]" then Returned [] else Thrown "SyntaxError".

Definition tierOnly (s : string) : outcome IntentFragment :=
  Returned {| fr_budgetTier := Some s; fr_interests := None;
              fr_pace := None; fr_groupType := None |}.

Lemma stored_pattern_read_back_witness :
  (exists q,
     StoredPatterns.parseSuccessPattern readEmptyArray (fun s => Returned (split_colon s))
       (StoredPatterns.successMetadata (fun _ => "[]") (sampleSuccessPattern []))
     = Returned q
     /\ sp_id q = None
     /\ sp_destination q = Some "berlin")
  /\ (exists lq,
        StoredPatterns.parseLanguagePattern (fun s => Returned (split_colon s)) tierOnly
          (StoredPatterns.languageMetadata (join ":")
             (fun f => or_string (fr_budgetTier f) "{}") sampleLanguagePattern)
        = Returned lq
        /\ lp_id lq = None
        /\ phrases lq = ["broke"; "on a shoestring"]).
Proof.
  destruct (stored_pattern_read_back (fun _ => "[]") (join ":")
              (fun f => or_string (fr_budgetTier f) "{}")
              readEmptyArray (fun s => Returned (split_colon s)) tierOnly
              (sampleSuccessPattern []) sampleLanguagePattern) as [Hsuccess Hlanguage].
  split.
  - destruct Hsuccess as (q & Hq & Hid & Hdest & _); [discriminate|reflexivity|].
    exists q. split; [exact Hq|]. split; [exact Hid|exact Hdest].
  - destruct Hlanguage as (lq & Hq & Hid & _ & Hphrases & _);
      [discriminate|discriminate|reflexivity|reflexivity|].
    exists lq. split; [exact Hq|]. split; [exact Hid|exact Hphrases].
Defined.

Lemma destination_filter_case_witness :
  StoredPatterns.m_destination
    (StoredPatterns.successMetadata (fun _ => "[]") (sampleSuccessPattern []))
  = Some "berlin".
Proof.
  destruct (destination_filter_case (fun _ => "[]") (sampleSuccessPattern [])
              {| VectorStore.f_destination := Some "Berlin";
                 VectorStore.f_budgetTier := None; VectorStore.f_category := None |}
              "berlin" eq_refl) as (_ & _ & Hsame).
  apply (Hsame "Berlin" "berlin"); reflexivity.
Defined.

Lemma search_text_mentions_witness :
  includes (StoredPatterns.createSearchText (sampleSuccessPattern [streetMarket; streetFoodHall]))
    "Street_Food" = true
  /\ includes (StoredPatterns.languageSearchText sampleLanguagePattern) "on a shoestring"
     = true.
Proof.
  destruct (search_text_mentions (sampleSuccessPattern [streetMarket; streetFoodHall])
              sampleLanguagePattern) as (_ & _ & _ & Hvenue & _ & Hphrase).
  split.
  - apply (Hvenue streetFoodHall). right. left. reflexivity.
  - apply Hphrase. right. left. reflexivity.
Defined.


(* ===================================================================== *)
(** * Venue freshness: [VenueValidator]                                   *)
(* ===================================================================== *)

Module VenueValidator.

Inductive Status := open | closed | uncertain | moved.

Definition Status_eqb (a b : Status) : bool :=
  match a, b with
  | open, open | closed, closed | uncertain, uncertain | moved, moved => true
  | _, _ => false
  end.

(** [updatedInfo]: a key that is present overrides the venue's. *)
Record Updates := {
  u_address : option string;
  u_priceRange : option string;
  u_website : option string;
  u_hours : option string
}.

Definition no_updates : Updates :=
  {| u_address := None; u_priceRange := None; u_website := None; u_hours := None |}.

(** A venue as the validator sees it: the fields of [Venue], and the three
    keys the validator adds.  Instants are milliseconds since the epoch;
    the source keeps them as ISO strings and reads them back with
    [new Date(..).getTime()]. *)
Record Venue := {
  name : string;
  type : string;
  address : option string;
  priceRange : string;
  bookingMethod : string;
  rating : Q;
  coordinates : option (Q * Q);
  openingHours : option string;
  website : option string;
  specialNotes : option (list string);
  hours : option string;
  lastValidated : option Z;
  validationStatus : option Status
}.

(** The answer of the search, decoded: [stillOpen] is [Some b] for the
    boolean [b] and [None] for anything else; a confidence that is not a
    number is [None]. *)
Record SearchResult := {
  stillOpen : option bool;
  sr_confidence : option Q;
  updates : option Updates
}.

(** What [JSON.parse] makes of the text of the completion: the literal
    [null], or a value whose fields the validator reads.  A number, a
    string, a boolean or an array has none of the three fields. *)
Inductive ParsedAnswer :=
| parsed_null
| parsed_value (answer : SearchResult).

Record ValidationResult := {
  venue : Venue;
  isValid : bool;
  status : Status;
  lastChecked : Z;
  confidence : option Q;
  updatedInfo : Updates
}.

(** [Math.max] of two numbers, [None] when either is not a number. *)
Definition num_max (a b : option Q) : option Q :=
  match a, b with
  | Some x, Some y => Some (Qmax x y)
  | _, _ => None
  end.

Definition httpWebsite (v : Venue) : bool :=
  match truthy_string (website v) with
  | Some url => String.prefix "http" url
  | None => false
  end.

Definition iconic (v : Venue) : bool :=
  includes (toLowerCase (name v)) "berghain" || includes (toLowerCase (name v)) "golden gai".

(** The confidence after the website signal. *)
Definition websiteSignal (v : Venue) (websiteValid : bool) : Q :=
  if httpWebsite v then
    if websiteValid then (1 # 2) + (3 # 10) else (1 # 2) - (2 # 10)
  else 1 # 2.

(** Reading a field of [null]. *)
Definition typeError : string :=
  "TypeError: Cannot read properties of null (reading 'stillOpen')".

(** [now] is read first; the website signal reads the venue only; the
    first look at the search result is [searchResult.stillOpen]. *)
Definition aiValidation (now : Z) (v : Venue) (websiteValid : bool)
    (searchResult : ParsedAnswer) : outcome ValidationResult :=
  let confidence0 := websiteSignal v websiteValid in
  match searchResult with
  | parsed_null => Thrown typeError
  | parsed_value answer =>
      let '(confidence1, status1, isValid1) :=
        match stillOpen answer with
        | Some true => (num_max (Some confidence0) (sr_confidence answer), open, true)
        | Some false => (sr_confidence answer, closed, false)
        | None => (Some confidence0, uncertain, negb (Qle_bool confidence0 (1 # 2)))
        end in
      let '(confidence2, status2, isValid2) :=
        if iconic v then (num_max confidence1 (Some (9 # 10)), open, true)
        else (confidence1, status1, isValid1) in
      Returned
        {| venue := v;
           isValid := isValid2;
           status := status2;
           lastChecked := now;
           confidence := confidence2;
           updatedInfo := match updates answer with Some u => u | None => no_updates end |}
  end.

(** The validator's state: its cache, and how many requests it has made
    to the outside (clock readings, website checks, completions). *)
Record State := {
  cacheMap : gmap string ValidationResult;
  requests : nat
}.

Definition tick (st : State) : State :=
  {| cacheMap := cacheMap st; requests := S (requests st) |}.

Definition CACHE_DURATION : Z := 24 * 60 * 60 * 1000.

Definition failedSearch : SearchResult :=
  {| stillOpen := None; sr_confidence := Some 0%Q; updates := None |}.

Section Validator.

(** The outside, by request number: the clock, the [HEAD] request, the
    completion for a venue at a date, and the decoding of its text. *)
Variable clock : nat -> Z.
Variable fetchStatus : nat -> string -> outcome Z.
Variable searchCompletion : nat -> Z -> Venue -> outcome (option string).
Variable JSON_parse : string -> outcome ParsedAnswer.

Definition Date_now (st : State) : Z * State := (clock (requests st), tick st).

Definition checkWebsite (url : string) (st : State) : bool * State :=
  if String.eqb url "" || String.eqb url "Walk-in only" || String.eqb url "Pay at door"
  then (true, st)
  else
    match fetchStatus (requests st) url with
    | Returned code => ((200 <=? code)%Z && (code <? 400)%Z, tick st)
    | Thrown _ => (false, tick st)
    end.

(** The clock is read for the unused query text and again for the date of
    the prompt.  The [try] covers the completion and [JSON.parse]; what
    [JSON.parse] returns is returned as it is, [null] included. *)
Definition searchForVenue (v : Venue) (st : State) : ParsedAnswer * State :=
  let '(_, st1) := Date_now st in
  let '(today, st2) := Date_now st1 in
  let answer :=
    bind (searchCompletion (requests st2) today v) (fun content =>
    JSON_parse (or_string content "{}")) in
  (match answer with Returned r => r | Thrown _ => parsed_value failedSearch end, tick st2).

Definition cacheKey (v : Venue) : string :=
  name v ++ "_" ++ or_string (address v) (type v).

(** [markVenueAsClosed] only logs; it reads the clock for the log entry. *)
Definition markVenueAsClosed (v : Venue) (st : State) : State := snd (Date_now st).

(** The path after a cache miss.  When [aiValidation] throws, nothing is
    cached and the error leaves [validateVenue]. *)
Definition validateFresh (v : Venue) (st : State) : outcome ValidationResult * State :=
  let '(websiteValid, st1) :=
    match truthy_string (website v) with
    | Some url => checkWebsite url st
    | None => (false, st)
    end in
  let '(searchResult, st2) := searchForVenue v st1 in
  let '(now, st3) := Date_now st2 in
  match aiValidation now v websiteValid searchResult with
  | Thrown e => (Thrown e, st3)
  | Returned validation =>
      let st4 := {| cacheMap := <[cacheKey v := validation]> (cacheMap st3);
                    requests := requests st3 |} in
      let st5 :=
        if negb (isValid validation) && Status_eqb (status validation) closed
        then markVenueAsClosed v st4 else st4 in
      (Returned validation, st5)
  end.

Definition validateVenue (v : Venue) (st : State) : outcome ValidationResult * State :=
  match cacheMap st !! cacheKey v with
  | Some cached =>
      let '(now, st1) := Date_now st in
      if (now - lastChecked cached <? CACHE_DURATION)%Z then (Returned cached, st1)
      else validateFresh v st1
  | None => validateFresh v st
  end.

Definition uncertainNote : string := "⚠️ Status uncertain - verify before visiting".

Definition override (update current : option string) : option string :=
  match update with Some x => Some x | None => current end.

(** What [validateVenues] pushes for a venue and its validation. *)
Definition validated (v : Venue) (validation : ValidationResult) : option Venue :=
  if isValid validation then
    let u := updatedInfo validation in
    Some {| name := name v;
            type := type v;
            address := override (u_address u) (address v);
            priceRange := match u_priceRange u with Some p => p | None => priceRange v end;
            bookingMethod := bookingMethod v;
            rating := rating v;
            coordinates := coordinates v;
            openingHours := openingHours v;
            website := override (u_website u) (website v);
            specialNotes := specialNotes v;
            hours := override (u_hours u) (hours v);
            lastValidated := Some (lastChecked validation);
            validationStatus := Some (status validation) |}
  else if Status_eqb (status validation) uncertain then
    Some {| name := name v;
            type := type v;
            address := address v;
            priceRange := priceRange v;
            bookingMethod := bookingMethod v;
            rating := rating v;
            coordinates := coordinates v;
            openingHours := openingHours v;
            website := website v;
            specialNotes :=
              Some ((match specialNotes v with Some notes => notes | None => [] end)
                    ++ [uncertainNote])%list;
            hours := hours v;
            lastValidated := Some (lastChecked validation);
            validationStatus := Some (status validation) |}
  else None.

(** The loop of [validateVenues]: a validation that throws ends the loop
    and the call, and the venues validated so far are not returned. *)
Fixpoint validateLoop (venues : list Venue) (validatedVenues : list Venue) (st : State)
  : outcome (list Venue) * State :=
  match venues with
  | [] => (Returned validatedVenues, st)
  | v :: rest =>
      match validateVenue v st with
      | (Returned validation, st') =>
          validateLoop rest
            (match validated v validation with
             | Some kept => (validatedVenues ++ [kept])%list
             | None => validatedVenues
             end) st'
      | (Thrown e, st') => (Thrown e, st')
      end
  end.

Definition validateVenues (venues : list Venue) (st : State)
  : outcome (list Venue) * State :=
  validateLoop venues [] st.

End Validator.

End VenueValidator.

Section ValidatorFacts.

Import VenueValidator.
Local Open Scope Q_scope.

Variable clock : nat -> Z.
Variable fetchStatus : nat -> string -> outcome Z.
Variable searchCompletion : nat -> Z -> Venue -> outcome (option string).
Variable JSON_parse : string -> outcome ParsedAnswer.

Local Abbreviation validateOne := (validateVenue clock fetchStatus searchCompletion JSON_parse).
Local Abbreviation validateAll :=
  (validateVenues clock fetchStatus searchCompletion JSON_parse).
Local Abbreviation loop := (validateLoop clock fetchStatus searchCompletion JSON_parse).
Local Abbreviation fresh := (validateFresh clock fetchStatus searchCompletion JSON_parse).
Local Abbreviation search := (searchForVenue clock searchCompletion JSON_parse).

(** *** The verdict *)

Lemma websiteSignal_values v websiteValid :
  websiteSignal v websiteValid
  = (if httpWebsite v && websiteValid then (1 # 2) + (3 # 10)
     else if httpWebsite v then (1 # 2) - (2 # 10) else 1 # 2)
  /\ negb (Qle_bool (websiteSignal v websiteValid) (1 # 2)) = httpWebsite v && websiteValid
  /\ 0 <= websiteSignal v websiteValid <= 1.
Proof.
  unfold websiteSignal. destruct (httpWebsite v), websiteValid; cbn [andb];
    (split; [reflexivity|split; [reflexivity|split; discriminate]]).
Qed.

Lemma aiValidation_returns now v websiteValid answer :
  exists result, aiValidation now v websiteValid (parsed_value answer) = Returned result.
Proof.
  unfold aiValidation.
  destruct (stillOpen answer) as [[|]|], (iconic v); eexists; reflexivity.
Qed.

Lemma aiValidation_null now v websiteValid searchResult e :
  aiValidation now v websiteValid searchResult = Thrown e -> searchResult = parsed_null.
Proof.
  destruct searchResult as [|answer]; [reflexivity|].
  destruct (aiValidation_returns now v websiteValid answer) as [result ->]. discriminate.
Qed.

(** X21.  The verdict on a venue.  For every answer of the search other
    than [null] there is a verdict.  The venue is reported closed exactly
    when the search says it is not open and its name is not one of the two
    iconic ones; it is invalid exactly when it is closed or when the search
    gave no answer and no http website of the venue answered.  An invalid
    venue is closed or uncertain, a closed one is invalid, "moved" is never
    reported, and the confidence stays within 0 and 1 when that of the
    search does.  On the answer [null] the validation throws a type
    error. *)
Theorem aiValidation_verdicts (now : Z) (v : Venue) (websiteValid : bool)
    (r : SearchResult) :
  (exists result,
     aiValidation now v websiteValid (parsed_value r) = Returned result
     /\ venue result = v
     /\ lastChecked result = now
     /\ status result <> moved
     /\ (status result = closed <-> iconic v = false /\ stillOpen r = Some false)
     /\ (isValid result = false <->
         iconic v = false
         /\ (stillOpen r = Some false
             \/ (stillOpen r = None /\ httpWebsite v && websiteValid = false)))
     /\ (isValid result = false -> status result = closed \/ status result = uncertain)
     /\ (status result = closed -> isValid result = false)
     /\ (iconic v = true -> isValid result = true /\ status result = open)
     /\ (forall c, sr_confidence r = Some c -> 0 <= c <= 1 ->
           exists c', confidence result = Some c' /\ 0 <= c' <= 1))
  /\ aiValidation now v websiteValid parsed_null = Thrown typeError.
Proof.
  split; [|reflexivity].
  unfold aiValidation.
  destruct (websiteSignal_values v websiteValid) as (_ & Hvalid & Hlo & Hhi).
  rewrite Hvalid.
  destruct (iconic v) eqn:Hi, (stillOpen r) as [[|]|] eqn:Hs;
    (eexists; split; [reflexivity|]);
    cbn [venue lastChecked status isValid confidence];
    (split; [reflexivity|]); (split; [reflexivity|]);
    (split; [discriminate|]);
    do 5 (split; [clear Hlo Hhi; intuition (try discriminate; try congruence)|]);
    intros c Hc [Hc0 Hc1]; try rewrite Hc; cbn [num_max];
    (eexists; split; [reflexivity|]); split;
    repeat first
      [ assumption
      | discriminate
      | apply Q.max_lub
      | eapply Qle_trans; [|apply Q.le_max_r]; discriminate
      | eapply Qle_trans; [|apply Q.le_max_r]; assumption ].
Qed.

(** *** The cache *)

Lemma checkWebsite_cache url st :
  cacheMap (snd (checkWebsite fetchStatus url st)) = cacheMap st.
Proof.
  unfold checkWebsite. destruct (_ || _)%bool; [reflexivity|].
  destruct (fetchStatus (requests st) url); reflexivity.
Qed.

(** The state in which the search for a venue starts, and its answer. *)
Definition afterWebsite (v : Venue) (st : State) : State :=
  match truthy_string (website v) with
  | Some url => snd (checkWebsite fetchStatus url st)
  | None => st
  end.

Definition searchAnswer (v : Venue) (st : State) : ParsedAnswer :=
  fst (search v (afterWebsite v st)).

Lemma afterWebsite_cache v st : cacheMap (afterWebsite v st) = cacheMap st.
Proof.
  unfold afterWebsite. destruct (truthy_string (website v));
    [apply checkWebsite_cache|reflexivity].
Qed.

(** A fresh validation is the verdict on the answer of the search; a
    verdict is cached under the key of the venue, a thrown error leaves
    the cache as it was. *)
Lemma validateFresh_spec v st :
  exists websiteValid now,
    fst (fresh v st) = aiValidation now v websiteValid (searchAnswer v st)
    /\ match fst (fresh v st) with
       | Returned result =>
           cacheMap (snd (fresh v st)) = <[cacheKey v := result]> (cacheMap st)
       | Thrown _ => cacheMap (snd (fresh v st)) = cacheMap st
       end.
Proof.
  unfold validateFresh, searchAnswer.
  pose proof (afterWebsite_cache v st) as Hw. unfold afterWebsite in *.
  destruct (match truthy_string (website v) with
            | Some url => checkWebsite fetchStatus url st
            | None => (false, st)
            end) as [websiteValid st1] eqn:E1.
  assert (Hst1 : st1 = match truthy_string (website v) with
                       | Some url => snd (checkWebsite fetchStatus url st)
                       | None => st
                       end).
  { destruct (truthy_string (website v)); [rewrite E1; reflexivity|congruence]. }
  rewrite <- Hst1 in *.
  destruct (search v st1) as [searchResult st2] eqn:E2.
  assert (Hs : cacheMap st2 = cacheMap st1).
  { apply (f_equal snd) in E2. cbn [snd] in E2. subst st2. reflexivity. }
  cbn [Date_now fst].
  exists websiteValid, (clock (requests st2)).
  destruct (aiValidation (clock (requests st2)) v websiteValid searchResult)
    as [validation|e]; cbn [fst snd].
  - split; [reflexivity|].
    destruct (_ && _)%bool; cbn [markVenueAsClosed Date_now tick cacheMap snd];
      rewrite Hs, Hw; reflexivity.
  - split; [reflexivity|]. cbn [tick cacheMap]. rewrite Hs, Hw. reflexivity.
Qed.

(** A cached verdict is fresh when the next reading of the clock is less
    than a day after it was reached. *)
Definition freshAt (st : State) (cached : ValidationResult) : Prop :=
  (clock (requests st) - lastChecked cached < CACHE_DURATION)%Z.

(** The decoder never answers [null]. *)
Definition neverNull : Prop := forall text, JSON_parse text <> Returned parsed_null.

Lemma searchAnswer_neverNull v st : neverNull -> searchAnswer v st <> parsed_null.
Proof.
  intros Hnever. unfold searchAnswer, searchForVenue. cbn [Date_now fst].
  destruct (searchCompletion _ _ v) as [content|e]; cbn [bind]; [|discriminate].
  destruct (JSON_parse (or_string content "{}")) as [[|answer]|e] eqn:E;
    [|discriminate|discriminate].
  exfalso. exact (Hnever _ E).
Qed.

Lemma validateVenue_spec v st :
  (exists cached,
     cacheMap st !! cacheKey v = Some cached /\ freshAt st cached
     /\ validateOne v st = (Returned cached, tick st))
  \/ (exists st0 websiteValid now,
        cacheMap st0 = cacheMap st
        /\ (forall cached, cacheMap st !! cacheKey v = Some cached -> ~ freshAt st cached)
        /\ validateOne v st = fresh v st0
        /\ fst (fresh v st0) = aiValidation now v websiteValid (searchAnswer v st0)
        /\ match fst (fresh v st0) with
           | Returned result =>
               cacheMap (snd (fresh v st0)) = <[cacheKey v := result]> (cacheMap st)
           | Thrown _ => cacheMap (snd (fresh v st0)) = cacheMap st
           end).
Proof.
  unfold validateVenue, freshAt.
  destruct (cacheMap st !! cacheKey v) as [cached|] eqn:Hc.
  - cbn [Date_now].
    destruct (clock (requests st) - lastChecked cached <? CACHE_DURATION)%Z eqn:Hage.
    + left. exists cached. apply Z.ltb_lt in Hage. repeat split; [exact Hage].
    + right. destruct (validateFresh_spec v (tick st)) as (w & now & Hr & Hmap).
      exists (tick st), w, now. split; [reflexivity|]. split; [|split; [reflexivity|]].
      * intros cached' H. injection H as <-. apply Z.ltb_ge in Hage. lia.
      * split; [exact Hr|exact Hmap].
  - right. destruct (validateFresh_spec v st) as (w & now & Hr & Hmap).
    exists st, w, now. split; [reflexivity|]. split; [discriminate|].
    split; [reflexivity|]. split; [exact Hr|exact Hmap].
Qed.

Lemma validateVenue_returns v st :
  neverNull -> exists result, fst (validateOne v st) = Returned result.
Proof.
  intros Hnever.
  destruct (validateVenue_spec v st)
    as [(cached & _ & _ & Hhit)|(st0 & w & now & _ & _ & Hmiss & Hr & _)].
  - rewrite Hhit. exists cached. reflexivity.
  - rewrite Hmiss, Hr.
    destruct (searchAnswer v st0) as [|answer] eqn:E.
    + exfalso. exact (searchAnswer_neverNull v st0 Hnever E).
    + apply aiValidation_returns.
Qed.

(** X22.  A validation that returns leaves its verdict in the cache under
    the key of the venue, and no other key changed; one that throws
    caches nothing, and it throws only when the verdict was to be made
    anew and the search answered [null].  A fresh cached verdict is
    returned as it is, after one reading of the clock and nothing else;
    without one the outcome is that of the verdict on the answer of the
    search, so a validation returns whenever the decoder never answers
    [null].  The key is the name and the address, or the type when there
    is no address: a venue with the same key that is validated next,
    within a day, gets the very same verdict, made for the first venue. *)
Theorem validateVenue_cache (v : Venue) (st : State) :
  let st' := snd (validateOne v st) in
  (forall result,
     fst (validateOne v st) = Returned result ->
     cacheMap st' !! cacheKey v = Some result
     /\ (forall k, k <> cacheKey v -> cacheMap st' !! k = cacheMap st !! k)
     /\ (forall v2,
           cacheKey v2 = cacheKey v ->
           freshAt st' result ->
           validateOne v2 st' = (Returned result, tick st')))
  /\ (forall e,
        fst (validateOne v st) = Thrown e ->
        cacheMap st' = cacheMap st
        /\ e = typeError
        /\ (forall cached, cacheMap st !! cacheKey v = Some cached -> ~ freshAt st cached)
        /\ exists st0, cacheMap st0 = cacheMap st /\ searchAnswer v st0 = parsed_null)
  /\ (forall cached,
        cacheMap st !! cacheKey v = Some cached ->
        freshAt st cached ->
        validateOne v st = (Returned cached, tick st))
  /\ (cacheMap st !! cacheKey v = None ->
      exists websiteValid now,
        fst (validateOne v st) = aiValidation now v websiteValid (searchAnswer v st))
  /\ (neverNull -> exists result, fst (validateOne v st) = Returned result).
Proof.
  cbn zeta.
  destruct (validateVenue_spec v st)
    as [(cached & Hc & Hfresh & Hhit)|(st0 & w & now & Hst0 & Hstale & Hmiss & Hr & Hmap)].
  - rewrite Hhit. cbn [fst snd tick cacheMap]. split; [|split; [|split; [|split]]].
    + intros result H. injection H as <-. split; [exact Hc|]. split; [reflexivity|].
      intros v2 Hk Hfresh2. unfold validateVenue. cbn [tick cacheMap].
      rewrite Hk, Hc. cbn [Date_now]. unfold freshAt in Hfresh2.
      apply Z.ltb_lt in Hfresh2. rewrite Hfresh2. reflexivity.
    + intros e H. discriminate.
    + intros cached' Hc' _. congruence.
    + intros Hnone. congruence.
    + intros _. exists cached. reflexivity.
  - split; [|split; [|split; [|split]]].
    + intros result Hres. rewrite Hmiss in Hres |- *. rewrite Hres in Hmap.
      assert (Hkey : cacheMap (snd (fresh v st0)) !! cacheKey v = Some result)
        by (rewrite Hmap; apply lookup_insert_eq).
      split; [exact Hkey|]. split.
      * intros k Hk. rewrite Hmap. apply lookup_insert_ne. congruence.
      * intros v2 Hk Hfresh2. unfold validateVenue. rewrite Hk, Hkey. cbn [Date_now].
        unfold freshAt in Hfresh2. apply Z.ltb_lt in Hfresh2. rewrite Hfresh2. reflexivity.
    + intros e Hres. rewrite Hmiss in Hres |- *. rewrite Hres in Hmap.
      split; [exact Hmap|].
      rewrite Hres in Hr. symmetry in Hr.
      pose proof (aiValidation_null _ _ _ _ _ Hr) as Hnull.
      split; [|split; [exact Hstale|exists st0; split; assumption]].
      rewrite Hnull in Hr. cbn in Hr. congruence.
    + intros cached Hc Hfresh. exfalso. exact (Hstale cached Hc Hfresh).
    + intros Hnone. unfold validateVenue. rewrite Hnone.
      destruct (validateFresh_spec v st) as (w' & now' & Hr' & _).
      exists w', now'. exact Hr'.
    + apply validateVenue_returns.
Qed.

(** *** The list of venues *)













End ValidatorFacts.

Definition listedVenue (n ty : string) (site : option string) : VenueValidator.Venue :=
  {| VenueValidator.name := n; VenueValidator.type := ty;
     VenueValidator.address := Some "Mitte"; VenueValidator.priceRange := "€5-20";
     VenueValidator.bookingMethod := "walk-in"; VenueValidator.rating := 4;
     VenueValidator.coordinates := None; VenueValidator.openingHours := None;
     VenueValidator.website := site; VenueValidator.specialNotes := None;
     VenueValidator.hours := None; VenueValidator.lastValidated := None;
     VenueValidator.validationStatus := None |}.

Definition saidClosed : VenueValidator.SearchResult :=
  {| VenueValidator.stillOpen := Some false;
     VenueValidator.sr_confidence := Some (9 # 10);
     VenueValidator.updates := None |}.

Lemma aiValidation_verdicts_witness :
  (exists result,
     VenueValidator.aiValidation 0 (listedVenue "Cafe Zapata" "bar" None) true
       (VenueValidator.parsed_value saidClosed) = Returned result
     /\ VenueValidator.isValid result = false
     /\ VenueValidator.status result = VenueValidator.closed)
  /\ (exists result,
        VenueValidator.aiValidation 0 (listedVenue "Berghain" "club" None) true
          (VenueValidator.parsed_value saidClosed) = Returned result
        /\ VenueValidator.isValid result = true).
Proof.
  destruct (aiValidation_verdicts 0 (listedVenue "Cafe Zapata" "bar" None) true saidClosed)
    as ((result & Hr & _ & _ & _ & Hclosed & _ & _ & Hinvalid & _) & _).
  destruct (aiValidation_verdicts 0 (listedVenue "Berghain" "club" None) true saidClosed)
    as ((iconic & Hi & _ & _ & _ & _ & _ & _ & _ & Hiconic & _) & _).
  split.
  - exists result. split; [exact Hr|].
    assert (Hc : VenueValidator.status result = VenueValidator.closed)
      by (apply Hclosed; split; reflexivity).
    split; [apply Hinvalid; exact Hc|exact Hc].
  - exists iconic. split; [exact Hi|]. apply Hiconic. reflexivity.
Defined.

(** A clock that advances a second per request, and a search that
    answers the first requests only. *)
Definition secondsClock (n : nat) : Z := (Z.of_nat n * 1000)%Z.

Definition briefSearch (n : nat) (_ : Z) (_ : VenueValidator.Venue)
  : outcome (option string) :=
  if (n <? 5)%nat then Returned (Some "{}") else Thrown "quota exceeded".

Definition newValidator : VenueValidator.State :=
  {| VenueValidator.cacheMap := ∅; VenueValidator.requests := 0 |}.

Definition readsClosed (_ : string) : outcome VenueValidator.ParsedAnswer :=
  Returned (VenueValidator.parsed_value saidClosed).

(** A decoder of the texts [null] and anything else. *)
Definition readsNull (text : string) : outcome VenueValidator.ParsedAnswer :=
  if String.eqb text "null" then Returned VenueValidator.parsed_null
  else Returned (VenueValidator.parsed_value saidClosed).

Lemma validateVenue_cache_witness :
  let first := VenueValidator.validateVenue secondsClock (fun _ _ => Returned 200%Z)
                 briefSearch readsClosed
                 (listedVenue "Cafe Zapata" "bar" None) newValidator in
  exists verdict,
    fst first = Returned verdict
    /\ VenueValidator.status verdict = VenueValidator.closed
    /\ fst (VenueValidator.validateVenue secondsClock (fun _ _ => Returned 200%Z)
              briefSearch readsClosed
              (listedVenue "Cafe Zapata" "restaurant" None) (snd first))
       = Returned verdict.
Proof.
  cbn zeta.
  destruct (validateVenue_cache secondsClock (fun _ _ => Returned 200%Z)
              briefSearch readsClosed
              (listedVenue "Cafe Zapata" "bar" None) newValidator)
    as (Hreturned & _ & _ & _ & Hret).
  destruct Hret as [verdict Hverdict]; [intros text; discriminate|].
  destruct (Hreturned verdict Hverdict) as (_ & _ & Hagain).
  exists verdict. split; [exact Hverdict|]. split.
  - vm_compute in Hverdict. injection Hverdict as <-. reflexivity.
  - rewrite (Hagain (listedVenue "Cafe Zapata" "restaurant" None)); [reflexivity|reflexivity|].
    vm_compute in Hverdict. injection Hverdict as <-. reflexivity.
Defined.

(** The answer [null] for the second venue: the call throws, and the
    first venue, validated and cached, is not returned. *)
Example validateVenues_null_answer :
  let venues := [listedVenue "Cafe Zapata" "bar" None; listedVenue "Tresor" "club" None] in
  let answers (n : nat) (_ : Z) (_ : VenueValidator.Venue) : outcome (option string) :=
    if (n <? 5)%nat then Returned (Some "{}") else Returned (Some "null") in
  let batch := VenueValidator.validateVenues secondsClock (fun _ _ => Returned 200%Z)
                 answers readsNull venues newValidator in
  fst batch = Thrown VenueValidator.typeError
  /\ VenueValidator.cacheMap (snd batch) !! "Tresor_Mitte" = None
  /\ VenueValidator.cacheMap (snd batch) !! "Cafe Zapata_Mitte" <> None.
Proof. vm_compute. split; [reflexivity|]. split; [reflexivity|discriminate]. Qed.


